(** * The MCP HTTP bridge ([mcp_http_bridge.py]) and the tools it drives

    A shallow embedding of [create_app], the endpoints it registers and the
    line protocol they speak with a tool subprocess, together with the parts
    of the Python runtime the bridge leans on ([str.strip], [repr],
    [json.dumps], [json.loads]).

    Text is a list of Unicode code points, a JSON document is the Python
    object [json.loads] builds for it, threads are step functions over a
    shared process table, and a schedule (a list of events) picks which
    thread runs next. *)

From Stdlib Require Import ZArith List String Ascii Bool Lia.
From stdpp Require Import base list.
Import ListNotations.
Open Scope Z_scope.

(** ** Python text *)

(** A Python [str]: its code points, in order. *)
Definition str := list Z.

(** A literal written in ASCII. *)
Definition u (s : string) : str :=
  map (fun a => Z.of_N (N_of_ascii a)) (list_ascii_of_string s).

Fixpoint str_eqb (a b : str) : bool :=
  match a, b with
  | [], [] => true
  | x :: a', y :: b' => (x =? y) && str_eqb a' b'
  | _, _ => false
  end.

(** [needle in hay] *)
Fixpoint starts_with (p s : str) : bool :=
  match p, s with
  | [], _ => true
  | x :: p', y :: s' => (x =? y) && starts_with p' s'
  | _ :: _, [] => false
  end.

Fixpoint contains (needle hay : str) : bool :=
  starts_with needle hay ||
  match hay with
  | [] => false
  | _ :: hay' => contains needle hay'
  end.

(** [str.isspace] for one code point: what [str.strip()] removes. *)
Definition isspace (c : Z) : bool :=
  ((9 <=? c) && (c <=? 13)) || ((28 <=? c) && (c <=? 32)) ||
  (c =? 133) || (c =? 160) || (c =? 5760) ||
  ((8192 <=? c) && (c <=? 8202)) || (c =? 8232) || (c =? 8233) ||
  (c =? 8239) || (c =? 8287) || (c =? 12288).

Fixpoint lstrip (s : str) : str :=
  match s with
  | c :: r => if isspace c then lstrip r else s
  | [] => []
  end.

Definition strip (s : str) : str := rev (lstrip (rev (lstrip s))).

(** A Unicode scalar value: a code point that is not a surrogate. Text
    made of these is the text that [encode("utf-8")] takes. *)
Definition is_scalar (c : Z) : bool :=
  ((0 <=? c) && (c <? 55296)) || ((57344 <=? c) && (c <? 1114112)).

Fixpoint join (sep : str) (parts : list str) : str :=
  match parts with
  | [] => []
  | [p] => p
  | p :: ps => p ++ sep ++ join sep ps
  end.

(** *** Integers in decimal and code points in hexadecimal *)

Definition digit (n : Z) : Z := 48 + n.

Fixpoint decimal (fuel : nat) (n : Z) (acc : str) : str :=
  match fuel with
  | O => acc
  | S fuel' =>
      if n <? 10 then digit n :: acc
      else decimal fuel' (n / 10) (digit (n mod 10) :: acc)
  end.

(** [str(n)] for an [int] (one within the digits the interpreter converts,
    see [too_long]: [json.loads] builds no other). *)
Definition str_of_int (n : Z) : str :=
  if n <? 0 then 45 :: decimal (S (Z.to_nat (Z.log2 (- n)))) (- n) []
  else decimal (S (Z.to_nat (Z.log2 n))) n [].

Definition hex_digit (n : Z) : Z := if n <? 10 then 48 + n else 87 + n.

Definition hex2 (n : Z) : str := [hex_digit (n / 16 mod 16); hex_digit (n mod 16)].

Definition hex4 (n : Z) : str := hex2 (n / 256) ++ hex2 n.

Definition hex8 (n : Z) : str := hex4 (n / 65536) ++ hex4 n.

(** ** JSON documents as Python objects *)

(** What [json.loads] builds. A [dict] keeps its insertion order and its keys
    are text; a number with a fraction or an exponent (and [NaN],
    [Infinity]) is a [float], kept as the literal it was read from. *)
#[local] Unset Elimination Schemes.
Inductive json : Type :=
| JNull
| JBool (b : bool)
| JInt (n : Z)
| JFloat (lit : str)
| JStr (s : str)
| JList (items : list json)
| JDict (pairs : list (str * json)).
#[local] Set Elimination Schemes.

(** [d.get(k)] *)
Fixpoint dict_get (k : str) (d : list (str * json)) : option json :=
  match d with
  | [] => None
  | (k', v) :: d' => if str_eqb k k' then Some v else dict_get k d'
  end.

(** [k in d] *)
Definition dict_has (k : str) (d : list (str * json)) : bool :=
  match dict_get k d with Some _ => true | None => false end.

(** [d[k] = v]: in place when the key is there, appended otherwise. *)
Fixpoint dict_set {A : Type} (k : str) (v : A) (d : list (str * A)) : list (str * A) :=
  match d with
  | [] => [(k, v)]
  | (k', v') :: d' => if str_eqb k k' then (k', v) :: d' else (k', v') :: dict_set k v d'
  end.

(** [dict(pairs)] *)
Definition dict_of_pairs {A : Type} (l : list (str * A)) : list (str * A) :=
  fold_left (fun d kv => dict_set (fst kv) (snd kv) d) l [].

(** ** Exceptions *)

(** What the code can raise. [RuntimeError] is the one of [create_app]
    (its message starts with "Invalid tool-description"); [HTTPException]
    carries [status_code] and [detail]; [JSONDecodeError] is what
    [json.loads] raises for text that is not JSON, and [ValueError] the
    plain one it raises for an integer of too many digits;
    [UnicodeEncodeError] is raised for text with a surrogate where UTF-8 is
    needed; [NameError] is one of those pydantic has for a field name it
    does not take. *)
Inductive exn : Type :=
| RuntimeError
| KeyError (key : str)
| TypeError
| AttributeError
| HTTPException (status_code : Z) (detail : str)
| JSONDecodeError
| ValueError
| UnicodeEncodeError
| NameError.

Inductive result (A : Type) : Type :=
| Ok (a : A)
| Raise (e : exn).
Arguments Ok {A} a.
Arguments Raise {A} e.

#[global] Instance result_ret : MRet result := fun A a => Ok a.
#[global] Instance result_bind : MBind result :=
  fun A B f m => match m with Ok a => f a | Raise e => Raise e end.

(** What is left of an exception under an [except] that does not look at
    it. *)
Definition caught {A : Type} (r : result A) : option A :=
  match r with
  | Ok a => Some a
  | Raise _ => None
  end.

(** A field of a request model; [(str, ...)] is the only kind
    [create_app] declares. *)
Inductive field : Type := RequiredStr.

(** ** The interpreter and the libraries *)

(** What the interpreter and the installed libraries supply and the
    embedding leaves open: how a [float] prints and whether it is finite,
    which code points above ASCII are printable, how many digits the
    interpreter converts between an [int] and text, and what pydantic makes
    of a field name it has a use of its own for: a keyword of
    [create_model] (as [__base__] or [__config__]) or a member of
    [BaseModel] (as [dict], [json] or [model_config]). Which names these
    are, and whether such a field is refused, passed over or kept, differs
    between the versions of pydantic. *)
Class PythonRuntime : Type := {
  float_repr : str -> str;          (* repr(float(lit)) *)
  float_json : str -> str;          (* float.__repr__ as json.dumps writes it *)
  isfinite : str -> bool;           (* math.isfinite(float(lit)) *)
  isprintable : Z -> bool;          (* str.isprintable, one code point *)
  int_max_str_digits : Z;           (* sys.get_int_max_str_digits(); 0 is no limit *)
  reserved : str -> bool;           (* pydantic has a use of its own for the name *)
  create_reserved : list (str * field) -> result (list (str * field))
                                    (* create_model(name, **fields) when a name among the
                                       fields is reserved: the fields of the class it makes,
                                       or what it raises *)
}.

Section Printing.
Context `{PythonRuntime}.

(** *** [repr] *)

Definition repr_char (quote c : Z) : str :=
  if (c =? quote) || (c =? 92) then [92; c]
  else if c =? 9 then [92; 116]
  else if c =? 10 then [92; 110]
  else if c =? 13 then [92; 114]
  else if (c <? 32) || (c =? 127) then [92; 120] ++ hex2 c
  else if c <? 127 then [c]
  else if isprintable c then [c]
  else if c <=? 255 then [92; 120] ++ hex2 c
  else if c <=? 65535 then [92; 117] ++ hex4 c
  else [92; 85] ++ hex8 c.

Definition has_char (c : Z) (s : str) : bool := existsb (Z.eqb c) s.

(** [repr(s)] for text: single quotes, unless the text holds one and no
    double quote. *)
Definition repr_str (s : str) : str :=
  let quote := if has_char 39 s && negb (has_char 34 s) then 34 else 39 in
  quote :: flat_map (repr_char quote) s ++ [quote].

Fixpoint repr (v : json) : str :=
  match v with
  | JNull => u "None"
  | JBool true => u "True"
  | JBool false => u "False"
  | JInt n => str_of_int n
  | JFloat lit => float_repr lit
  | JStr s => repr_str s
  | JList items => 91 :: join (u ", ") (map repr items) ++ [93]
  | JDict pairs =>
      123 :: join (u ", ") (map (fun kv => repr_str (fst kv) ++ u ": " ++ repr (snd kv)) pairs)
          ++ [125]
  end.

(** *** [json.dumps] *)

(** One code point inside a JSON string ([ensure_ascii] is on). *)
Definition escape_char (c : Z) : str :=
  if c =? 34 then [92; 34]
  else if c =? 92 then [92; 92]
  else if c =? 10 then [92; 110]
  else if c =? 13 then [92; 114]
  else if c =? 9 then [92; 116]
  else if c =? 8 then [92; 98]
  else if c =? 12 then [92; 102]
  else if (32 <=? c) && (c <=? 126) then [c]
  else if c <? 65536 then [92; 117] ++ hex4 c
  else
    let v := c - 65536 in
    [92; 117] ++ hex4 (Z.lor 55296 (Z.land (Z.shiftr v 10) 1023)) ++
    [92; 117] ++ hex4 (Z.lor 56320 (Z.land v 1023)).

Definition dumps_str (s : str) : str := 34 :: flat_map escape_char s ++ [34].

Fixpoint dumps (v : json) : str :=
  match v with
  | JNull => u "null"
  | JBool true => u "true"
  | JBool false => u "false"
  | JInt n => str_of_int n
  | JFloat lit => float_json lit
  | JStr s => dumps_str s
  | JList items => 91 :: join (u ", ") (map dumps items) ++ [93]
  | JDict pairs =>
      123 :: join (u ", ") (map (fun kv => dumps_str (fst kv) ++ u ": " ++ dumps (snd kv)) pairs)
          ++ [125]
  end.

End Printing.

(** *** [json.loads] *)

Definition is_ws (c : Z) : bool := (c =? 32) || (c =? 9) || (c =? 10) || (c =? 13).

Fixpoint skip_ws (s : str) : str :=
  match s with
  | c :: r => if is_ws c then skip_ws r else s
  | [] => []
  end.

Definition hex_val (c : Z) : option Z :=
  if (48 <=? c) && (c <=? 57) then Some (c - 48)
  else if (97 <=? c) && (c <=? 102) then Some (c - 87)
  else if (65 <=? c) && (c <=? 70) then Some (c - 55)
  else None.

Definition hex4_val (a b c d : Z) : option Z :=
  match hex_val a, hex_val b, hex_val c, hex_val d with
  | Some x, Some y, Some z, Some w => Some (((x * 16 + y) * 16 + z) * 16 + w)
  | _, _, _, _ => None
  end.

Definition is_high_surrogate (c : Z) : bool := (55296 <=? c) && (c <=? 56319).
Definition is_low_surrogate (c : Z) : bool := (56320 <=? c) && (c <=? 57343).
Definition join_surrogates (hi lo : Z) : Z :=
  65536 + Z.lor (Z.shiftl (hi - 55296) 10) (lo - 56320).

Definition prepend (c : Z) (o : option (str * str)) : option (str * str) :=
  match o with
  | Some (t, rest) => Some (c :: t, rest)
  | None => None
  end.

(** The single-character escapes of a JSON string. *)
Definition unescape (e : Z) : option Z :=
  if (e =? 34) || (e =? 92) || (e =? 47) then Some e
  else if e =? 98 then Some 8
  else if e =? 102 then Some 12
  else if e =? 110 then Some 10
  else if e =? 114 then Some 13
  else if e =? 116 then Some 9
  else None.

(** [scanstring], strict: the text after an opening quote, up to the
    closing one; the decoded text and what follows. *)
Fixpoint scanstring (s : str) : option (str * str) :=
  match s with
  | [] => None
  | c :: r =>
      if c =? 34 then Some ([], r)
      else if c =? 92 then
        match r with
        | [] => None
        | e :: r1 =>
            if e =? 117 then
              match r1 with
              | h1 :: h2 :: h3 :: h4 :: r2 =>
                  match hex4_val h1 h2 h3 h4 with
                  | None => None
                  | Some hi =>
                      match r2 with
                      | b1 :: b2 :: l1 :: l2 :: l3 :: l4 :: r3 =>
                          if is_high_surrogate hi && (b1 =? 92) && (b2 =? 117) then
                            match hex4_val l1 l2 l3 l4 with
                            | None => None
                            | Some lo =>
                                if is_low_surrogate lo
                                then prepend (join_surrogates hi lo) (scanstring r3)
                                else prepend hi (scanstring r2)
                            end
                          else prepend hi (scanstring r2)
                      | _ => prepend hi (scanstring r2)
                      end
                  end
              | _ => None
              end
            else
              match unescape e with
              | Some c' => prepend c' (scanstring r1)
              | None => None
              end
        end
      else if c <? 32 then None
      else prepend c (scanstring r)
  end.

Definition is_digit (c : Z) : bool := (48 <=? c) && (c <=? 57).

Fixpoint span_digits (s : str) : str * str :=
  match s with
  | c :: r =>
      if is_digit c then let (ds, rest) := span_digits r in (c :: ds, rest)
      else ([], s)
  | [] => ([], [])
  end.

(** The integer part of a number: an optional minus, then a lone zero or
    digits that do not start with zero. *)
Definition scan_integer (s : str) : option (str * str) :=
  let (sign, s1) :=
    match s with
    | c :: r => if c =? 45 then ([45], r) else ([], s)
    | [] => ([], s)
    end in
  match s1 with
  | d :: r =>
      if d =? 48 then Some (sign ++ [48], r)
      else if is_digit d then let (ds, rest) := span_digits r in Some (sign ++ d :: ds, rest)
      else None
  | [] => None
  end.

(** The fraction: a dot and at least one digit, or nothing. *)
Definition scan_frac (s : str) : str * str :=
  match s with
  | c :: r =>
      if c =? 46 then
        match span_digits r with
        | ([], _) => ([], s)
        | (ds, rest) => (c :: ds, rest)
        end
      else ([], s)
  | [] => ([], s)
  end.

(** The exponent: e or E, an optional sign and at least one digit, or
    nothing. *)
Definition scan_exp (s : str) : str * str :=
  match s with
  | e :: r =>
      if (e =? 101) || (e =? 69) then
        let (sg, r1) :=
          match r with
          | c :: r' => if (c =? 43) || (c =? 45) then ([c], r') else ([], r)
          | [] => ([], r)
          end in
        match span_digits r1 with
        | ([], _) => ([], s)
        | (ds, rest) => (e :: sg ++ ds, rest)
        end
      else ([], s)
  | [] => ([], s)
  end.

Definition digits_value (ds : str) : Z := fold_left (fun a d => 10 * a + (d - 48)) ds 0.

(** [int(lit)] for the text [scan_integer] accepts. *)
Definition int_of_literal (lit : str) : Z :=
  match lit with
  | c :: ds => if c =? 45 then - digits_value ds else digits_value lit
  | [] => 0
  end.

Definition scan_word (w : str) (v : json) (s : str) : option (json * str) :=
  if starts_with w s then Some (v, skipn (length w) s) else None.

(** The digits of an integer literal, without its sign. *)
Definition digits_of (lit : str) : str :=
  match lit with
  | c :: ds => if c =? 45 then ds else lit
  | [] => []
  end.

Section Scanning.
Context `{PythonRuntime}.

(** Whether [int(lit)] and [str(n)] refuse the number for its length: it
    has more digits than [sys.get_int_max_str_digits()]. The interpreter
    only looks above 640 digits, and 0 switches the limit off. *)
Definition too_long (lit : str) : bool :=
  let digits := Z.of_nat (length (digits_of lit)) in
  (640 <? digits) && (0 <? int_max_str_digits) && (int_max_str_digits <? digits).

(** A number: [JSONDecodeError] when there is none, and the [ValueError] of
    [int] for an integer that is too long (a [float] has no such limit). *)
Definition scan_number (s : str) : result (json * str) :=
  match scan_integer s with
  | None => Raise JSONDecodeError
  | Some (i, r) =>
      let (f, r1) := scan_frac r in
      let (e, r2) := scan_exp r1 in
      match f ++ e with
      | [] => if too_long i then Raise ValueError else Ok (JInt (int_of_literal i), r2)
      | _ => Ok (JFloat (i ++ f ++ e), r2)
      end
  end.

(** The scalars that are not text, in the order [scan_once] tries them. *)
Definition scan_atom (s : str) : result (json * str) :=
  match scan_word (u "null") JNull s with
  | Some a => Ok a
  | None =>
  match scan_word (u "true") (JBool true) s with
  | Some a => Ok a
  | None =>
  match scan_word (u "false") (JBool false) s with
  | Some a => Ok a
  | None =>
  match scan_number s with
  | Ok a => Ok a
  | Raise ValueError => Raise ValueError
  | Raise _ =>
  match scan_word (u "NaN") (JFloat (u "NaN")) s with
  | Some a => Ok a
  | None =>
  match scan_word (u "Infinity") (JFloat (u "Infinity")) s with
  | Some a => Ok a
  | None =>
  match scan_word (u "-Infinity") (JFloat (u "-Infinity")) s with
  | Some a => Ok a
  | None => Raise JSONDecodeError
  end end end end end end end.

(** [scan_once] with [JSONArray] and [JSONObject]: the value and what
    follows it, or what is raised where the scan stops. Every call consumes
    input, so fuel above twice the length of the text is never used up. *)
Fixpoint scan_once (fuel : nat) (s : str) : result (json * str) :=
  match fuel with
  | O => Raise JSONDecodeError
  | S fuel' =>
      match s with
      | [] => Raise JSONDecodeError
      | c :: r =>
          if c =? 34 then
            match scanstring r with
            | Some (t, rest) => Ok (JStr t, rest)
            | None => Raise JSONDecodeError
            end
          else if c =? 123 then
            match skip_ws r with
            | c' :: r' =>
                if c' =? 125 then Ok (JDict [], r')
                else
                  match scan_members fuel' (c' :: r') with
                  | Ok (kvs, rest) => Ok (JDict (dict_of_pairs kvs), rest)
                  | Raise e => Raise e
                  end
            | [] => Raise JSONDecodeError
            end
          else if c =? 91 then
            match skip_ws r with
            | c' :: r' =>
                if c' =? 93 then Ok (JList [], r')
                else
                  match scan_items fuel' (c' :: r') with
                  | Ok (vs, rest) => Ok (JList vs, rest)
                  | Raise e => Raise e
                  end
            | [] => Raise JSONDecodeError
            end
          else scan_atom s
      end
  end
with scan_items (fuel : nat) (s : str) : result (list json * str) :=
  match fuel with
  | O => Raise JSONDecodeError
  | S fuel' =>
      match scan_once fuel' s with
      | Raise e => Raise e
      | Ok (v, r) =>
          match skip_ws r with
          | c :: r' =>
              if c =? 93 then Ok ([v], r')
              else if c =? 44 then
                match scan_items fuel' (skip_ws r') with
                | Ok (vs, rest) => Ok (v :: vs, rest)
                | Raise e => Raise e
                end
              else Raise JSONDecodeError
          | [] => Raise JSONDecodeError
          end
      end
  end
with scan_members (fuel : nat) (s : str) : result (list (str * json) * str) :=
  match fuel with
  | O => Raise JSONDecodeError
  | S fuel' =>
      match s with
      | c :: r =>
          if c =? 34 then
            match scanstring r with
            | None => Raise JSONDecodeError
            | Some (k, r1) =>
                match skip_ws r1 with
                | c1 :: r2 =>
                    if c1 =? 58 then
                      match scan_once fuel' (skip_ws r2) with
                      | Raise e => Raise e
                      | Ok (v, r3) =>
                          match skip_ws r3 with
                          | c2 :: r4 =>
                              if c2 =? 125 then Ok ([(k, v)], r4)
                              else if c2 =? 44 then
                                match scan_members fuel' (skip_ws r4) with
                                | Ok (kvs, rest) => Ok ((k, v) :: kvs, rest)
                                | Raise e => Raise e
                                end
                              else Raise JSONDecodeError
                          | [] => Raise JSONDecodeError
                          end
                      end
                    else Raise JSONDecodeError
                | [] => Raise JSONDecodeError
                end
            end
          else Raise JSONDecodeError
      | [] => Raise JSONDecodeError
      end
  end.

(** [json.loads(s)]: the document; [JSONDecodeError] for text that is not
    one document; the [ValueError] of an integer that is too long, when the
    scan comes to such a literal before it comes to anything that is not
    JSON. The stack is taken to be deep enough for the nesting of the
    text. *)
Definition loads (s : str) : result json :=
  match scan_once (2 * length s + 2) (skip_ws s) with
  | Ok (v, rest) =>
      match skip_ws rest with
      | [] => Ok v
      | _ :: _ => Raise JSONDecodeError
      end
  | Raise e => Raise e
  end.

End Scanning.

(** ** Objects *)

(** [o[key]] *)
Definition subscript (o : json) (key : str) : result json :=
  match o with
  | JDict d =>
      match dict_get key d with
      | Some v => Ok v
      | None => Raise (KeyError key)
      end
  | _ => Raise TypeError
  end.

(** [o.get(key, default)] *)
Definition get (o : json) (key : str) (default : json) : result json :=
  match o with
  | JDict d => Ok (match dict_get key d with Some v => v | None => default end)
  | _ => Raise AttributeError
  end.

(** [o.items()] *)
Definition items (o : json) : result (list (str * json)) :=
  match o with
  | JDict d => Ok d
  | _ => Raise AttributeError
  end.

(** [for x in o] *)
Definition iterate (o : json) : result (list json) :=
  match o with
  | JList l => Ok l
  | JDict d => Ok (map (fun kv => JStr (fst kv)) d)
  | JStr s => Ok (map (fun c => JStr [c]) s)
  | _ => Raise TypeError
  end.

(** [o == s] for a text literal [s] *)
Definition is_text (s : str) (o : json) : bool :=
  match o with
  | JStr t => str_eqb t s
  | _ => false
  end.

(** ** Subprocesses *)

(** A tool subprocess with the buffer its reader thread fills. [stdout_seen]
    is history, kept for the statements only: every line [read_lines] has
    appended so far; the bridge never reads it. *)
Record process : Type := {
  killed : bool;               (* server_proc.kill() ran *)
  stdin : list str;            (* written to its stdin and flushed, oldest first *)
  stdout_buffer : list str;    (* the list of create_app or of one call *)
  reader_exited : bool;        (* read_lines left its loop *)
  stdout_seen : list str
}.

(** [subprocess.Popen(...)], with a fresh buffer and a reader thread. *)
Definition Popen : process :=
  {| killed := false; stdin := []; stdout_buffer := []; reader_exited := false;
     stdout_seen := [] |}.

(** One turn of the loop of [read_lines] (lines 33 to 39): [line] is what
    [readline] returned, empty at the end of the stream. *)
Definition read_lines (line : str) (p : process) : process :=
  if reader_exited p then p
  else
    match line with
    | [] =>
        {| killed := killed p; stdin := stdin p; stdout_buffer := stdout_buffer p;
           reader_exited := true; stdout_seen := stdout_seen p |}
    | _ :: _ =>
        {| killed := killed p; stdin := stdin p;
           stdout_buffer := stdout_buffer p ++ [strip line];
           reader_exited := false; stdout_seen := stdout_seen p ++ [strip line] |}
    end.

(** [stdout_buffer.pop(0)], the buffer that is left *)
Definition pop0 (p : process) : process :=
  {| killed := killed p; stdin := stdin p; stdout_buffer := tail (stdout_buffer p);
     reader_exited := reader_exited p; stdout_seen := stdout_seen p |}.

(** [server_proc.stdin.write(line); server_proc.stdin.flush()] *)
Definition write (line : str) (p : process) : process :=
  {| killed := killed p; stdin := stdin p ++ [line]; stdout_buffer := stdout_buffer p;
     reader_exited := reader_exited p; stdout_seen := stdout_seen p |}.

(** [server_proc.kill()] *)
Definition kill (p : process) : process :=
  {| killed := true; stdin := stdin p; stdout_buffer := stdout_buffer p;
     reader_exited := reader_exited p; stdout_seen := stdout_seen p |}.

(** ** [create_app]: from the description to the endpoints *)

(** One registered endpoint: a POST route, the model of its body and the
    default of its [tool] parameter. The name given to the model class is
    not kept. *)
Record endpoint : Type := {
  path : str;
  request_model : list (str * field);
  default_tool : str
}.

(** The loop over [input_schema.get("properties", {}).items()] (lines 105
    to 108): a property is kept when its [type] is "string", and passed
    over otherwise. *)
Fixpoint string_properties (props : list (str * json)) (input_properties : list (str * field))
  : result (list (str * field)) :=
  match props with
  | [] => Ok input_properties
  | (prop_name, prop_schema) :: rest =>
      ty ← get prop_schema (u "type") JNull;
      if is_text (u "string") ty
      then string_properties rest (dict_set prop_name RequiredStr input_properties)
      else string_properties rest input_properties
  end.

(** [tool_name.title()] needs text; the class name built from it is not
    kept. *)
Definition title (tool_name : json) : result str :=
  match tool_name with
  | JStr s => Ok s
  | _ => Raise AttributeError
  end.

(** pydantic's [is_valid_field_name]: a name that starts with an underscore
    is no field of a model. *)
Definition is_valid_field_name (name : str) : bool := negb (starts_with [95] name).

Section Registration.
Context `{PythonRuntime}.

(** [create_model(name, **input_properties)] (lines 110 to 113), as the
    fields of the class it makes: an entry whose name starts with an
    underscore is passed over, with a warning. The class is made by
    [type(name, bases, namespace)], which raises for a name that does not
    encode as UTF-8, and for one with a NUL in it; the name is the tool
    name in title case, without its hyphens and followed by "Request",
    so it is such a name exactly when [tool_name] is. Entries with a name
    that is [reserved] are left to [create_reserved]; what a call of
    [request_data.dict()] gives for a model with such a field is outside
    the embedding. *)
Definition create_model (tool_name : str) (input_properties : list (str * field))
  : result (list (str * field)) :=
  if existsb reserved (map fst input_properties) then create_reserved input_properties
  else if negb (forallb is_scalar tool_name) then Raise UnicodeEncodeError
  else if existsb (Z.eqb 0) tool_name then Raise ValueError
  else Ok (List.filter (fun kv => is_valid_field_name (fst kv)) input_properties).

(** The body of [for tool in tools] (lines 100 to 117). The route is kept
    by the path it was given: a name with a brace in it, which the
    framework reads as a path with parameters, is outside the embedding. *)
Definition register (tool : json) : result endpoint :=
  tool_name ← subscript tool (u "name");
  input_schema ← subscript tool (u "input_schema");
  output_schema ← subscript tool (u "output_schema");
  properties ← get input_schema (u "properties") (JDict []);
  props ← items properties;
  input_properties ← string_properties props [];
  name ← title tool_name;
  request_model ← create_model name input_properties;
  Ok {| path := 47 :: name; request_model := request_model; default_tool := name |}.

Fixpoint register_all (tools : list json) : result (list endpoint) :=
  match tools with
  | [] => Ok []
  | tool :: rest =>
      e ← register tool;
      es ← register_all rest;
      Ok (e :: es)
  end.

(** [create_app] from [first_line] on (lines 88 to 169): whether
    [server_proc.kill()] ran, and the application returned or the exception
    raised. Only [JSONDecodeError] is caught. *)
Definition describe (first_line : str) : bool * result (list endpoint) :=
  match loads first_line with
  | Raise JSONDecodeError => (true, Raise RuntimeError)
  | Raise e => (false, Raise e)
  | Ok desc =>
      match get desc (u "tools") (JList []) with
      | Raise e => (false, Raise e)
      | Ok tools => (true, l ← iterate tools; register_all l)
      end
  end.

End Registration.

(** ** HTTP *)

Inductive method : Type := GET | POST.

Record request : Type := {
  verb : method;
  target : str;                       (* the path asked for *)
  query : list (str * str);           (* the query string, decoded *)
  body : json                         (* the JSON body, decoded *)
}.

Inductive content : Type :=
| Output (v : json)           (* what the endpoint returned, as JSON *)
| Detail (d : str)            (* the detail of an HTTPException *)
| Invalid (fields : list str) (* a validation error, naming what is wrong *)
| ServerError                 (* an exception nobody handled *)
| Moved (location : str).     (* a redirect, to this path *)

Record response : Type := { status : Z; payload : content }.

(** [jsonable_encoder(v)], which the framework applies to what an endpoint
    without a response model returns: a [dict] and a [list] are rebuilt
    entry by entry, and with [sqlalchemy_safe] left at its default an entry
    of a [dict] whose key starts with "_sa" is dropped. *)
Fixpoint jsonable_encoder (v : json) : json :=
  match v with
  | JList items => JList (map jsonable_encoder items)
  | JDict pairs =>
      JDict (flat_map (fun kv => if starts_with (u "_sa") (fst kv) then []
                                 else [(fst kv, jsonable_encoder (snd kv))]) pairs)
  | _ => v
  end.

Section Responding.
Context `{PythonRuntime}.

(** Whether [JSONResponse] renders the content:
    [json.dumps(content, ensure_ascii=False, allow_nan=False, ...)] raises
    [ValueError] for a [float] that is not finite (and for an integer that
    is too long), and [.encode("utf-8")] raises [UnicodeEncodeError] for a
    surrogate, in a text or in a key. *)
Fixpoint renders (v : json) : bool :=
  match v with
  | JNull | JBool _ => true
  | JInt n => negb (too_long (str_of_int n))
  | JFloat lit => isfinite lit
  | JStr s => forallb is_scalar s
  | JList items => forallb renders items
  | JDict pairs => forallb (fun kv => forallb is_scalar (fst kv) && renders (snd kv)) pairs
  end.

(** How the framework answers for an endpoint that returned or raised. What
    is returned goes through [jsonable_encoder] and is rendered; when that
    raises, the exception is one nobody handles, as any that the endpoint
    raises and that is no [HTTPException]. *)
Definition respond (o : result json) : response :=
  match o with
  | Ok v =>
      let content := jsonable_encoder v in
      if renders content then {| status := 200; payload := Output content |}
      else {| status := 500; payload := ServerError |}
  | Raise (HTTPException code d) => {| status := code; payload := Detail d |}
  | Raise _ => {| status := 500; payload := ServerError |}
  end.

End Responding.

(** The body checked against the request model, as the framework does
    before it calls the endpoint: every declared field must be there and
    be a JSON string (a [str] field takes nothing else from a JSON body);
    other keys are dropped. [inl] lists the fields at fault. *)
Fixpoint validate (model : list (str * field)) (d : list (str * json))
  : list str + list (str * str) :=
  match model with
  | [] => inr []
  | (name, RequiredStr) :: rest =>
      match dict_get name d, validate rest d with
      | Some (JStr s), inr data => inr ((name, s) :: data)
      | Some (JStr s), inl bad => inl bad
      | _, inr _ => inl [name]
      | _, inl bad => inl (name :: bad)
      end
  end.

(** The last value a key has in the query string. *)
Fixpoint query_get (k : str) (qs : list (str * str)) : option str :=
  match qs with
  | [] => None
  | (k', v) :: rest =>
      match query_get k rest with
      | Some v' => Some v'
      | None => if str_eqb k k' then Some v else None
      end
  end.

(** ** [tool_endpoint] *)

(** Where one call of [tool_endpoint] stands. *)
Inductive call : Type :=
| Rejected (r : response)     (* answered by the framework, tool_endpoint never ran *)
| Starting (tool : str) (input_data : list (str * str))       (* about to Popen *)
| AwaitingDescription (h : nat) (tool : str) (input_data : list (str * str))
| AwaitingResult (h : nat)
| Answered (h : nat) (r : response).   (* returned or raised; h was its server_proc *)

(** The subprocess a call has spawned. *)
Definition server_proc (c : call) : option nat :=
  match c with
  | AwaitingDescription h _ _ | AwaitingResult h | Answered h _ => Some h
  | Rejected _ | Starting _ _ => None
  end.

(** The message of lines 143 to 147. *)
Definition tool_call (tool : str) (input_data : list (str * str)) : json :=
  JDict [(u "type", JStr (u "tool-call"));
         (u "tool", JStr tool);
         (u "input", JDict (map (fun kv => (fst kv, JStr (snd kv))) input_data))].

(** [path.rstrip("/")] *)
Fixpoint lstrip_slashes (s : str) : str :=
  match s with
  | c :: r => if c =? 47 then lstrip_slashes r else s
  | [] => []
  end.

Definition rstrip_slashes (s : str) : str := rev (lstrip_slashes (rev s)).

(** The router's [redirect_slashes]: the path that is tried when no route
    takes the one asked for, which is that path without its trailing
    slashes, or with one put on; "/" has none. *)
Definition redirect_slashes (target : str) : option str :=
  if str_eqb target (u "/") then None
  else
    match rev target with
    | c :: _ => Some (if c =? 47 then rstrip_slashes target else target ++ [47])
    | [] => Some (target ++ [47])
    end.

(** The framework in front of the endpoints: routing, then the body against
    the request model, then [tool_endpoint]. A path no route takes is
    answered with a redirect when a route takes it with the trailing slash
    changed, and with 404 otherwise. The second parameter of the endpoint,
    [tool=tool_name] (line 117), has a default and no annotation: the
    framework takes it from the query string when it is there, and leaves
    the default otherwise. [app] holds the routes of the tools, each taking
    the path that is its own; the routes the framework adds for its
    documentation ([/docs], [/redoc], [/openapi.json]) are not among them,
    and a request for one of those is outside the embedding. *)
Definition dispatch (app : list endpoint) (r : request) : call :=
  match find (fun e => str_eqb (target r) (path e)) app with
  | None =>
      match redirect_slashes (target r) with
      | Some path' =>
          if existsb (fun e => str_eqb path' (path e)) app
          then Rejected {| status := 307; payload := Moved path' |}
          else Rejected {| status := 404; payload := Detail (u "Not Found") |}
      | None => Rejected {| status := 404; payload := Detail (u "Not Found") |}
      end
  | Some e =>
      match verb r with
      | GET => Rejected {| status := 405; payload := Detail (u "Method Not Allowed") |}
      | POST =>
          match body r with
          | JDict d =>
              match validate (request_model e) d with
              | inl bad => Rejected {| status := 422; payload := Invalid bad |}
              | inr input_data =>
                  Starting (match query_get (u "tool") (query r) with
                            | Some t => t
                            | None => default_tool e
                            end) input_data
              end
          | _ => Rejected {| status := 422; payload := Invalid [u "body"] |}
          end
      end
  end.

Section Bridge.
Context `{PythonRuntime}.

(** [tool_endpoint] from [result_line] on (lines 155 to 167): whether
    [server_proc.kill()] ran, and what is returned or raised. Only
    [JSONDecodeError] is caught. *)
Definition finish (result_line : str) : bool * result json :=
  match loads result_line with
  | Raise JSONDecodeError => (true, Raise (HTTPException 500 (u "Invalid response from tool")))
  | Raise e => (false, Raise e)
  | Ok (JDict d) =>
      if negb (match dict_get (u "type") d with
               | Some t => is_text (u "tool-result") t
               | None => false
               end)
         || negb (dict_has (u "output") d)
      then (true, Raise (HTTPException 500 (u "Unexpected response: " ++ repr (JDict d))))
      else (true, subscript (JDict d) (u "output"))
  | Ok _ => (false, Raise AttributeError)
  end.

(** ** The running bridge *)

(** [create_app] is about to spawn, spins on its empty buffer, has
    returned the application, or has raised. *)
Inductive boot : Type :=
| Launching
| Describing (h : nat)
| Up (app : list endpoint)
| Failed (e : exn).

Record bridge : Type := {
  procs : list process;   (* every subprocess spawned so far; a handle is an index *)
  main : boot;
  calls : list call       (* the requests received so far *)
}.

Definition initial : bridge := {| procs := []; main := Launching; calls := [] |}.

Definition buffer (s : bridge) (h : nat) : list str :=
  match procs s !! h with
  | Some p => stdout_buffer p
  | None => []
  end.

(** [create_app] runs until it next finds its buffer empty: it spawns
    (line 69), or tests the buffer (line 85) and goes on from the first
    line when there is one. *)
Definition create_app (s : bridge) : bridge :=
  match main s with
  | Launching =>
      {| procs := procs s ++ [Popen]; main := Describing (length (procs s));
         calls := calls s |}
  | Describing h =>
      match buffer s h with
      | [] => s
      | first_line :: _ =>
          let (killing, outcome) := describe first_line in
          {| procs := alter (fun p => if killing then kill (pop0 p) else pop0 p) h (procs s);
             main := match outcome with Ok app => Up app | Raise e => Failed e end;
             calls := calls s |}
      end
  | _ => s
  end.

(** One call of [tool_endpoint] runs until it next finds its buffer empty
    (lines 122, 138 and 152): the new process table and where the call
    stands. *)
Definition tool_endpoint (ps : list process) (c : call) : list process * call :=
  match c with
  | Starting tool input_data =>
      (ps ++ [Popen], AwaitingDescription (length ps) tool input_data)
  | AwaitingDescription h tool input_data =>
      match ps !! h with
      | Some p =>
          match stdout_buffer p with
          | [] => (ps, c)
          | _ :: _ =>
              (alter (fun p => write (dumps (tool_call tool input_data) ++ [10]) (pop0 p)) h ps,
               AwaitingResult h)
          end
      | None => (ps, c)
      end
  | AwaitingResult h =>
      match ps !! h with
      | Some p =>
          match stdout_buffer p with
          | [] => (ps, c)
          | result_line :: _ =>
              let (killing, outcome) := finish result_line in
              (alter (fun p => if killing then kill (pop0 p) else pop0 p) h ps,
               Answered h (respond outcome))
          end
      | None => (ps, c)
      end
  | Rejected _ | Answered _ _ => (ps, c)
  end.

(** What can happen next: the main thread runs, a request comes in, call
    [i] runs, or the reader thread of process [h] gets [raw] from
    [readline]. *)
Inductive event : Type :=
| Main
| Http (r : request)
| Tick (i : nat)
| Line (h : nat) (raw : str).

Definition step (s : bridge) (e : event) : bridge :=
  match e with
  | Main => create_app s
  | Http r =>
      match main s with
      | Up app => {| procs := procs s; main := main s; calls := calls s ++ [dispatch app r] |}
      | _ => s
      end
  | Tick i =>
      match calls s !! i with
      | Some c =>
          let (ps, c') := tool_endpoint (procs s) c in
          {| procs := ps; main := main s; calls := <[i := c']> (calls s) |}
      | None => s
      end
  | Line h raw =>
      {| procs := alter (read_lines raw) h (procs s); main := main s; calls := calls s |}
  end.

Definition run (evs : list event) (s : bridge) : bridge := fold_left step evs s.

End Bridge.

(** ** The messages on the wire *)

(** The four kinds of message, as [describe_tools], [tool_call] and the
    main loop of a tool build them. *)
Inductive message : Type :=
| ToolDescription (tools : list json)
| ToolCall (tool : str) (input : json)
| ToolResult (output : json)
| Error (error : str).

Definition to_json (m : message) : json :=
  match m with
  | ToolDescription tools =>
      JDict [(u "type", JStr (u "tool-description")); (u "tools", JList tools)]
  | ToolCall tool input =>
      JDict [(u "type", JStr (u "tool-call")); (u "tool", JStr tool); (u "input", input)]
  | ToolResult output =>
      JDict [(u "type", JStr (u "tool-result")); (u "output", output)]
  | Error error =>
      JDict [(u "type", JStr (u "error")); (u "error", JStr error)]
  end.

Section Codec.
Context `{PythonRuntime}.

(** [json.dumps(m) + "\n"], and what [print(json.dumps(m))] writes. *)
Definition encode (m : message) : str := dumps (to_json m) ++ [10].

(** A line as the bridge reads it: [read_lines] strips it, [json.loads]
    parses it; [None] when that raises. *)
Definition decode (line : str) : option json := caught (loads (strip line)).


End Codec.

(** ** What the tools and the Flask server lean on *)

(** More that the interpreter supplies and the embedding leaves open: the
    truth value of a [float], and the wording of the exceptions that a tool
    turns into error messages. *)
Class Interpreter : Type := {
  float_bool : str -> bool;             (* bool(float(lit)) *)
  decode_error : str -> str;            (* str(e), e the JSONDecodeError of json.loads(line) *)
  exception_text : exn -> str -> str    (* str(e), e a TypeError, an AttributeError or a
                                           ValueError raised while line is handled *)
}.

(** Dates and times as [datetime] has them. [fromisoformat] gives the
    message of its [ValueError] on the right. *)
Class Calendar : Type := {
  datetime : Type;
  fromisoformat : str -> datetime + str;
  strftime : datetime -> str -> str
}.

(** [bool(v)], as [not v] and [if v] test it. *)
Definition truthy `{Interpreter} (v : json) : bool :=
  match v with
  | JNull => false
  | JBool b => b
  | JInt n => negb (n =? 0)
  | JFloat lit => float_bool lit
  | JStr [] => false
  | JStr (_ :: _) => true
  | JList [] => false
  | JList (_ :: _) => true
  | JDict [] => false
  | JDict (_ :: _) => true
  end.

(** [o[0]]; [None] when it raises: [IndexError] for what is empty,
    [KeyError] for a [dict] (its keys are text), [TypeError] for the rest. *)
Definition index0 (o : json) : option json :=
  match o with
  | JList (x :: _) => Some x
  | JStr (c :: _) => Some (JStr [c])
  | _ => None
  end.

(** [s.replace(old, new)] for [old] of one code point. *)
Definition replace (old : Z) (new s : str) : str :=
  flat_map (fun c => if c =? old then new else [c]) s.

(** [s.split(sep)] for [sep] of one code point. *)
Fixpoint split (sep : Z) (s : str) : list str :=
  match s with
  | [] => [[]]
  | c :: r =>
      if c =? sep then [] :: split sep r
      else
        match split sep r with
        | part :: parts => (c :: part) :: parts
        | [] => [[c]]
        end
  end.

(** [range(a, b)] *)
Definition range (a b : Z) : list Z := map (fun i => a + Z.of_nat i) (seq 0 (Z.to_nat (b - a))).

(** [for line in sys.stdin]: the lines of the text, each with its newline
    (the last one may lack it). *)
Fixpoint readlines (s : str) : list str :=
  match s with
  | [] => []
  | c :: r =>
      if c =? 10 then [10] :: readlines r
      else
        match readlines r with
        | line :: lines => (c :: line) :: lines
        | [] => [[c]]
        end
  end.

(** What the parent reads from a pipe opened with [text=True]: a carriage
    return, with or without a newline after it, has become a newline. *)
Fixpoint universal_newlines (s : str) : str :=
  match s with
  | [] => []
  | c :: r =>
      if c =? 13 then
        match r with
        | c' :: r' => if c' =? 10 then 10 :: universal_newlines r' else 10 :: universal_newlines r
        | [] => [10]
        end
      else c :: universal_newlines r
  end.

(** What [requests.get] gives back: [response.status_code], and
    [response.json()], [None] when that raises. *)
Record Response : Type := { status_code : Z; json_body : option json }.

(** The network at one moment: the answer to a GET of a URL with query
    parameters, [None] when [requests.get] raises. *)
Definition network : Type := str -> list (str * json) -> option Response.

(** [resp.raise_for_status()] raises for a client or a server error. *)
Definition raises_for_status (resp : Response) : bool :=
  (400 <=? status_code resp) && (status_code resp <? 600).

(** What [subprocess.run(..., capture_output=True, text=True)] returns. *)
Record CompletedProcess : Type := { returncode : Z; stdout : str; stderr : str }.

Section Values.
Context `{PythonRuntime}.

(** [str(v)], which is also how an f-string formats [v]. *)
Definition str_of (v : json) : str :=
  match v with
  | JStr s => s
  | _ => repr v
  end.

(** [print(json.dumps(v), flush=True)] *)
Definition print_json (v : json) : str := dumps v ++ [10].

End Values.

(** The main loop of a tool. The two tools have the same loop, around
    their own [describe_tools] and [handle_call]. *)
Section Loop.
Context `{PythonRuntime} `{Interpreter} {world : Type}.
Variable describe_tools : json.
Variable handle_call : world -> json -> json -> result json.

(** [str(e)] in the handler of the loop; a [KeyError] prints the [repr] of
    its key. *)
Definition str_exn (line : str) (e : exn) : str :=
  match e with
  | KeyError key => repr_str key
  | JSONDecodeError => decode_error line
  | _ => exception_text e line
  end.

(** The body of the loop for one [line] of the input, with the outside
    world as it is while the line is handled: the document printed, if
    any. *)
Definition answer (w : world) (line : str) : option json :=
  match loads line with
  | Raise e => Some (to_json (Error (str_exn line e)))
  | Ok msg =>
      match
        ty ← get msg (u "type") JNull;
        if is_text (u "tool-call") ty
        then
          tool ← subscript msg (u "tool");
          input ← subscript msg (u "input");
          output ← handle_call w tool input;
          Ok (Some output)
        else Ok None
      with
      | Ok (Some output) => Some (to_json (ToolResult output))
      | Ok None => None
      | Raise e => Some (to_json (Error (str_exn line e)))
      end
  end.

(** [main()] of a tool: what it prints, line by line, for the lines it
    reads. *)
Definition tool_main (served : list (world * str)) : list str :=
  print_json describe_tools :: omap (fun wl => print_json <$> answer wl.1 wl.2) served.

(** The tool run to the end of its input, as [subprocess.run] sees it
    when the time allowed is enough: the tool leaves its loop at the end
    of the input and exits with 0. *)
Definition tool_process (w : world) (input : str) : CompletedProcess :=
  {| returncode := 0;
     stdout := universal_newlines (concat (tool_main (map (pair w) (readlines input))));
     stderr := [] |}.

End Loop.

(** ** The tools of the repository *)

Module WeatherServer.

(** What [describe_tools] prints. *)
Definition describe_tools : json :=
  JDict [(u "type", JStr (u "tool-description"));
         (u "tools", JList [
           JDict [(u "name", JStr (u "get-forecast"));
                  (u "description", JStr (u "Returns the current weather for a location"));
                  (u "input_schema",
                     JDict [(u "type", JStr (u "object"));
                            (u "properties",
                               JDict [(u "location", JDict [(u "type", JStr (u "string"))])]);
                            (u "required", JList [JStr (u "location")])]);
                  (u "output_schema",
                     JDict [(u "type", JStr (u "object"));
                            (u "properties",
                               JDict [(u "location", JDict [(u "type", JStr (u "string"))]);
                                      (u "forecast", JDict [(u "type", JStr (u "string"))])])])]])].

(** The outside world during one call of the tool: the network, and what
    the random generator draws below a bound. *)
Record world : Type := { requests_get : network; randbelow : nat -> nat }.

(** [random.choice(seq)]: the element at an index drawn below the length
    (the draw is taken modulo the length, so that every [randbelow] stands
    for a generator). Both sequences it is used on are literals that are
    not empty. *)
Definition choice {A : Type} `{Inhabited A} (w : world) (seq : list A) : A :=
  default inhabitant (seq !! (randbelow w (length seq) `mod` length seq)%nat).

Definition conditions : list str :=
  [u "Sunny"; u "Cloudy"; u "Rainy"; u "Partly cloudy"; u "Clear skies"].

Section Tool.
Context `{PythonRuntime}.

(** The f-string of lines 103 and 114; 176 is the degree sign. *)
Definition forecast (desc temp location : json) : str :=
  str_of desc ++ u " and " ++ str_of temp ++ 176 :: u "F in " ++ str_of location.

(** Lines 99 and 100: the temperature and the description out of the
    answer of the weather API, [None] when anything raises. *)
Definition current (data : json) : option (json * json) :=
  cc ← caught (get data (u "current_condition") (JList [JDict []]));
  c0 ← index0 cc;
  temp ← caught (get c0 (u "temp_F") (JStr (u "??")));
  cc' ← caught (get data (u "current_condition") (JList [JDict []]));
  c0' ← index0 cc';
  wd ← caught (get c0' (u "weatherDesc") (JList [JDict []]));
  w0 ← index0 wd;
  desc ← caught (get w0 (u "value") (JStr (u "unknown")));
  Some (temp, desc).

(** Lines 110 to 115: the mock data. *)
Definition mock (w : world) (location : json) : json :=
  let conditions := choice w conditions in
  let temp := choice w (range 60 85) in
  JDict [(u "location", location);
         (u "forecast", JStr (forecast (JStr conditions) (JInt temp) location))].

(** [get_forecast] (lines 87 to 115). The bare [except] swallows whatever
    the [try] block raises, and a status other than 200 leaves the block by
    its end: both go on to the mock data. *)
Definition get_forecast (w : world) (location : json) : json :=
  match requests_get w (u "https://wttr.in/" ++ str_of location ++ u "?format=j1") [] with
  | Some response =>
      if status_code response =? 200 then
        match json_body response ≫= current with
        | Some (temp, desc) =>
            JDict [(u "location", location);
                   (u "forecast", JStr (forecast desc temp location))]
        | None => mock w location
        end
      else mock w location
  | None => mock w location
  end.

(** [handle_call] (lines 78 to 85) *)
Definition handle_call (w : world) (tool input : json) : result json :=
  if is_text (u "get-forecast") tool
  then
    location ← subscript input (u "location");
    Ok (get_forecast w location)
  else Ok (JDict [(u "forecast", JStr (u "Unknown tool"))]).

Context `{Interpreter}.

(** [main] (lines 117 to 146) *)
Definition main : list (world * str) -> list str := tool_main describe_tools handle_call.

(** [python server.py], given its whole input at once. *)
Definition subprocess_run : world -> str -> CompletedProcess :=
  tool_process describe_tools handle_call.

End Tool.

End WeatherServer.

Module TimeTool.

(** What [describe_tools] prints. *)
Definition describe_tools : json :=
  JDict [(u "type", JStr (u "tool-description"));
         (u "tools", JList [
           JDict [(u "name", JStr (u "get-time"));
                  (u "description",
                     JStr (u "Returns the current time for any location in the world"));
                  (u "input_schema",
                     JDict [(u "type", JStr (u "object"));
                            (u "properties",
                               JDict [(u "location", JDict [(u "type", JStr (u "string"))])]);
                            (u "required", JList [JStr (u "location")])]);
                  (u "output_schema",
                     JDict [(u "type", JStr (u "object"));
                            (u "properties",
                               JDict [(u "location", JDict [(u "type", JStr (u "string"))]);
                                      (u "timezone", JDict [(u "type", JStr (u "string"))]);
                                      (u "time", JDict [(u "type", JStr (u "string"))]);
                                      (u "date", JDict [(u "type", JStr (u "string"))])])])]])].

Section Tool.
Context `{PythonRuntime} `{Interpreter} `{Calendar}.

(** The outside world during one call of the tool: the network, and what
    [datetime.datetime.utcnow()] returns. *)
Record world : Type := { requests_get : network; utcnow : datetime }.

(** [get_coordinates] (lines 95 to 118); [except Exception] turns whatever
    is raised into [None]. *)
Definition get_coordinates (w : world) (location : json) : option (json * json) :=
  resp ← requests_get w (u "https://nominatim.openstreetmap.org/search")
           [(u "q", location); (u "format", JStr (u "json")); (u "limit", JInt 1)];
  if raises_for_status resp then None
  else
    data ← json_body resp;
    if negb (truthy data) then None
    else
      d0 ← index0 data;
      lat ← caught (subscript d0 (u "lat"));
      d0' ← index0 data;
      lon ← caught (subscript d0' (u "lon"));
      Some (lat, lon).

(** [get_time_by_coordinates] (lines 120 to 143); a [None] of Python is
    [JNull]. *)
Definition get_time_by_coordinates (w : world) (lat lon : json) : json * json :=
  default (JNull, JNull)
    (resp ← requests_get w (u "https://timeapi.io/api/Time/current/coordinate")
              [(u "latitude", lat); (u "longitude", lon)];
     if raises_for_status resp then None
     else
       data ← json_body resp;
       current_dt ← caught (get data (u "dateTime") JNull);
       tz_id ← caught (get data (u "timeZone") JNull);
       if negb (truthy current_dt) || negb (truthy tz_id) then Some (JNull, JNull)
       else Some (current_dt, tz_id)).

(** How the [try] block of [get_time] ends. *)
Inductive attempt : Type :=
| Returned (v : json)
| ValueError (message : str)
| OtherException.

(** Lines 151 to 173. [current_time.replace] needs text, anything else
    raises [AttributeError]. *)
Definition try_get_time (w : world) (location : json) : attempt :=
  match get_coordinates w location with
  | None => ValueError (u "Location '" ++ str_of location ++ u "' not found.")
  | Some (lat, lon) =>
      let (current_time, timezone_id) := get_time_by_coordinates w lat lon in
      if negb (truthy current_time) || negb (truthy timezone_id)
      then ValueError (u "Could not get time data for the coordinates.")
      else
        match current_time with
        | JStr s =>
            match fromisoformat (replace 90 (u "+00:00") s) with
            | inl dt =>
                Returned (JDict [(u "location", location);
                                 (u "timezone", timezone_id);
                                 (u "time", JStr (strftime dt (u "%H:%M:%S")));
                                 (u "date", JStr (strftime dt (u "%Y-%m-%d")))])
            | inr message => ValueError message
            end
        | _ => OtherException
        end
  end.

(** [get_time] (lines 145 to 191) *)
Definition get_time (w : world) (location : json) : json :=
  match try_get_time w location with
  | Returned v => v
  | ValueError message =>
      let now := utcnow w in
      JDict [(u "location", location);
             (u "timezone", JStr (u "Error: " ++ message));
             (u "time", JStr (strftime now (u "%H:%M:%S") ++ u " (UTC)"));
             (u "date", JStr (strftime now (u "%Y-%m-%d")))]
  | OtherException =>
      let now := utcnow w in
      JDict [(u "location", location);
             (u "timezone", JStr (u "Error: Could not determine time for this location"));
             (u "time", JStr (strftime now (u "%H:%M:%S") ++ u " (UTC)"));
             (u "date", JStr (strftime now (u "%Y-%m-%d")))]
  end.

(** [handle_call] (lines 86 to 93) *)
Definition handle_call (w : world) (tool input : json) : result json :=
  if is_text (u "get-time") tool
  then
    location ← subscript input (u "location");
    Ok (get_time w location)
  else Ok (JDict [(u "error", JStr (u "Unknown tool"))]).

(** [main] (lines 193 to 222) *)
Definition main : list (world * str) -> list str := tool_main describe_tools handle_call.

(** [python tool.py], given its whole input at once. *)
Definition subprocess_run : world -> str -> CompletedProcess :=
  tool_process describe_tools handle_call.

End Tool.

End TimeTool.

(** The Flask server of [mcp-server/server.py], which runs a tool once per
    request and reads all it printed. *)
Module McpServer.

Section Server.
Context `{PythonRuntime} `{Interpreter}.

(** [subprocess.run(["python", tool_path], input=..., capture_output=True,
    text=True, timeout=10)]: the completed process, or on the right the
    [str(e)] of what it raised (the timeout, a missing interpreter). *)
Variable run : str -> str -> CompletedProcess + str.

(** One turn of the loop over the lines (lines 90 to 95): [Some] is the
    [return], [None] goes on to the next line, by the end of the [if] or by
    the [continue] of the bare [except]. *)
Definition tool_result (line : str) : option json :=
  data ← caught (loads line);
  ty ← caught (get data (u "type") JNull);
  if is_text (u "tool-result") ty then caught (subscript data (u "output")) else None.

(** Lines 89 to 96 *)
Fixpoint first_result (lines : list str) : json :=
  match lines with
  | [] => JDict [(u "error", JStr (u "No valid tool result found"))]
  | line :: rest =>
      match tool_result line with
      | Some output => output
      | None => first_result rest
      end
  end.

(** [call_mcp_tool] (lines 54 to 101) *)
Definition call_mcp_tool (tool_path tool_name : str) (input_data : json) : json :=
  let mcp_request := to_json (ToolCall tool_name input_data) in
  match run tool_path (dumps mcp_request) with
  | inl result =>
      if returncode result =? 0
      then first_result (split 10 (strip (stdout result)))
      else JDict [(u "error", JStr (u "Tool execution failed: " ++ stderr result))]
  | inr message => JDict [(u "error", JStr message)]
  end.

(** [weather] (lines 103 to 120), from [data], the body [get_json] has
    decoded: the status and the document of the answer. What the view
    prints to the log is left out. *)
Definition weather (data : json) : result (Z * json) :=
  location ← get data (u "location") (JStr []);
  if negb (truthy location)
  then Ok (400, JDict [(u "error", JStr (u "Missing location"))])
  else Ok (200, call_mcp_tool (u "/app/weather-tool/tool.py") (u "get-forecast")
                  (JDict [(u "location", location)])).

(** [time] (lines 122 to 139) *)
Definition time (data : json) : result (Z * json) :=
  location ← get data (u "location") (JStr []);
  if negb (truthy location)
  then Ok (400, JDict [(u "error", JStr (u "Missing location"))])
  else Ok (200, call_mcp_tool (u "/app/time-tool/tool.py") (u "get-time")
                  (JDict [(u "location", location)])).

End Server.

End McpServer.

(** ** Vocabulary of the statements *)

(** Whether a property schema says [{"type": "string"}]. *)
Definition string_typed (prop_schema : json) : bool :=
  match get prop_schema (u "type") JNull with
  | Ok ty => is_text (u "string") ty
  | Raise _ => false
  end.

Definition is_dict (o : json) : Prop := exists d, o = JDict d.

(** What [json.loads] raises: a [JSONDecodeError], or the [ValueError] of
    an integer that is too long. *)
Definition scan_error (e : exn) : Prop := e = JSONDecodeError \/ e = ValueError.

(** A tool name that the frameworks take as it is: text that encodes as
    UTF-8, with no NUL in it (the name of a class is made from it) and no
    opening brace (the path of a route is made from it, and a brace would
    open a parameter of the path). *)
Definition plain_name (name : str) : bool :=
  forallb (fun c => is_scalar c && negb (c =? 0) && negb (c =? 123)) name.

(** A tool of the description in the shape [create_app] reads: a name that
    is text, an [input_schema] whose [properties] are [props], each with a
    schema that is an object, and an [output_schema]. *)
Record described (tool : json) (name : str) (props : list (str * json)) : Prop := {
  described_name : subscript tool (u "name") = Ok (JStr name);
  described_input :
    exists input_schema, subscript tool (u "input_schema") = Ok input_schema /\
      get input_schema (u "properties") (JDict []) = Ok (JDict props);
  described_output : exists output_schema, subscript tool (u "output_schema") = Ok output_schema;
  described_props : Forall (fun kv => is_dict kv.2) props
}.

(** The capability description of the wire protocol: an object whose
    [type] is "tool-description" and that lists its [tools]. *)
Definition is_description `{PythonRuntime} (line : str) : bool :=
  match loads line with
  | Ok (JDict d) =>
      match dict_get (u "type") d, dict_get (u "tools") d with
      | Some t, Some (JList _) => is_text (u "tool-description") t
      | _, _ => false
      end
  | _ => false
  end.

Inductive thread : Type := MainThread | CallThread (i : nat).

Definition line_of (h : nat) (e : event) : bool :=
  match e with
  | Line h' _ => Nat.eqb h h'
  | _ => false
  end.

Definition is_line (e : event) : bool :=
  match e with
  | Line _ _ => true
  | _ => false
  end.

(** The first [n] events of an unending schedule. *)
Definition prefix (sched : nat -> event) (n : nat) : list event := map sched (seq 0 n).

Section Threads.
Context `{PythonRuntime}.

(** Where a thread stands. *)
Definition standing (s : bridge) (t : thread) : option (boot + call) :=
  match t with
  | MainThread => Some (inl (main s))
  | CallThread i => inr <$> calls s !! i
  end.

(** The handle whose buffer a thread is spinning on. *)
Definition polling (s : bridge) (t : thread) : option nat :=
  match standing s t with
  | Some (inl (Describing h)) => Some h
  | Some (inr (AwaitingDescription h _ _)) => Some h
  | Some (inr (AwaitingResult h)) => Some h
  | _ => None
  end.

End Threads.

Definition tools_of (d : list (str * json)) : json := default (JList []) (dict_get (u "tools") d).

(** The tools a description lists. *)
Definition listed (description : json) : list json :=
  match get description (u "tools") (JList []) with
  | Ok (JList tools) => tools
  | _ => []
  end.

(** A document in which no key of a [dict] starts with "_sa". *)
Fixpoint sa_free (v : json) : bool :=
  match v with
  | JList items => forallb sa_free items
  | JDict pairs =>
      forallb (fun kv => negb (starts_with (u "_sa") (fst kv)) && sa_free (snd kv)) pairs
  | _ => true
  end.

(** The error message of the protocol that the tests speak of. *)
Definition error_boom : json :=
  JDict [(u "type", JStr (u "error")); (u "error", JStr (u "boom"))].

Definition valid_char (c : Z) : bool := (0 <=? c) && (c <? 1114112).

(** Text that survives the wire: code points in range, and no high
    surrogate directly before a low one (written as two escapes, such a
    pair is read back as one code point). All text of scalar values is of
    this kind ([scalar_text_wf]). *)
Fixpoint wf_str (s : str) : bool :=
  match s with
  | [] => true
  | c :: r =>
      valid_char c &&
      negb (is_high_surrogate c &&
            match r with c' :: _ => is_low_surrogate c' | [] => false end) &&
      wf_str r
  end.

Fixpoint distinct (ks : list str) : bool :=
  match ks with
  | [] => true
  | k :: r => negb (existsb (str_eqb k) r) && distinct r
  end.

(** A document that survives the wire: no [float], no integer that is too
    long for the interpreter to write or read, text as above, no key twice
    in a [dict]. *)
Fixpoint wf `{PythonRuntime} (v : json) : bool :=
  match v with
  | JNull | JBool _ => true
  | JInt n => negb (too_long (str_of_int n))
  | JFloat _ => false
  | JStr s => wf_str s
  | JList items => forallb wf items
  | JDict pairs =>
      forallb (fun kv => wf_str (fst kv) && wf (snd kv)) pairs && distinct (map fst pairs)
  end.

(** What may follow a number without being read as part of it. *)
Definition delimited (rest : str) : bool :=
  match rest with
  | [] => true
  | c :: _ => negb (is_digit c || (c =? 46) || (c =? 101) || (c =? 69))
  end.

Section Written.
Context `{PythonRuntime}.

(** One entry of a [dict], as [json.dumps] writes it. *)
Definition member (kv : str * json) : str := dumps_str (fst kv) ++ u ": " ++ dumps (snd kv).

(** How a written value starts: never with white space, nor with a
    closing bracket. *)
Definition opener (c : Z) : Prop :=
  c = 34 \/ c = 123 \/ c = 91 \/ c = 110 \/ c = 116 \/ c = 102 \/ c = 45 \/ 48 <= c <= 57.

(** Read back with enough fuel, a written value is itself, whatever
    delimiter follows. *)
Definition scans (v : json) : Prop :=
  forall fuel rest, (length (dumps v) <= fuel)%nat -> delimited rest = true ->
    scan_once fuel (dumps v ++ rest) = Ok (v, rest).

End Written.

Section Ownership.
Context `{PythonRuntime}.

(** What holds of a call and the process table at every moment: the call's
    subprocess exists, and what the call has popped so far is the front of
    what that subprocess's reader has appended. *)
Definition call_ok (ps : list process) (c : call) : Prop :=
  match c with
  | Rejected _ | Starting _ _ => True
  | AwaitingDescription h _ _ =>
      exists p, ps !! h = Some p /\ stdout_seen p = stdout_buffer p
  | AwaitingResult h =>
      exists p l1, ps !! h = Some p /\ stdout_seen p = l1 :: stdout_buffer p
  | Answered h r =>
      exists p l1 l2 rest, ps !! h = Some p /\ stdout_seen p = l1 :: l2 :: rest /\
        r = respond (finish l2).2
  end.

Record invariant (s : bridge) : Prop := {
  inv_calls : forall i c, calls s !! i = Some c -> call_ok (procs s) c;
  inv_own : forall i j c c' h, i <> j ->
    calls s !! i = Some c -> calls s !! j = Some c' ->
    server_proc c = Some h -> server_proc c' <> Some h;
  inv_main : calls s = [] \/ exists app, main s = Up app
}.

End Ownership.

(** ** Vocabulary of the further statements *)

(** Printable ASCII. *)
Definition printable (c : Z) : Prop := 32 <= c <= 126.

(** What [readline] returned before it first returned nothing. *)
Fixpoint until_eof (raws : list str) : list str :=
  match raws with
  | [] => []
  | [] :: _ => []
  | raw :: rest => raw :: until_eof rest
  end.

(** A document without a [float] in it. *)
Fixpoint float_free (v : json) : bool :=
  match v with
  | JFloat _ => false
  | JList items => forallb float_free items
  | JDict pairs => forallb (fun kv => float_free (snd kv)) pairs
  | _ => true
  end.

(** The reader thread of subprocess [h] has left its loop. *)
Definition exited (s : bridge) (h : nat) : Prop :=
  exists p, procs s !! h = Some p /\ reader_exited p = true.

(** [create_app] has spawned its subprocess. *)
Definition launched (b : boot) : bool :=
  match b with
  | Launching => false
  | _ => true
  end.

(** The call has spawned its subprocess. *)
Definition spawned (c : call) : bool :=
  match server_proc c with
  | Some _ => true
  | None => false
  end.

Section Discipline.
Context `{PythonRuntime}.

(** A line as an endpoint writes it: one [tool-call] message and a
    newline. *)
Definition request_line (line : str) : Prop :=
  exists tool input_data, line = dumps (tool_call tool input_data) ++ [10].

(** What a call has done to its subprocess, where it stands. *)
Definition call_io (ps : list process) (c : call) : Prop :=
  match c with
  | Rejected _ | Starting _ _ => True
  | AwaitingDescription h _ _ =>
      exists p, ps !! h = Some p /\ stdin p = [] /\ killed p = false
  | AwaitingResult h =>
      exists p line, ps !! h = Some p /\ stdin p = [line] /\ request_line line /\
        killed p = false
  | Answered h r =>
      exists p line l1 l2 rest, ps !! h = Some p /\ stdin p = [line] /\ request_line line /\
        stdout_seen p = l1 :: l2 :: rest /\ killed p = (finish l2).1 /\
        r = respond (finish l2).2
  end.

(** What [create_app] has done to its subprocess, where it stands. *)
Definition main_io (s : bridge) : Prop :=
  match main s with
  | Launching => procs s = [] /\ calls s = []
  | Describing h =>
      h = 0%nat /\ calls s = [] /\ exists p, procs s = [p] /\ stdin p = [] /\ killed p = false
  | Up app => exists p, procs s !! 0%nat = Some p /\ stdin p = [] /\ killed p = true
  | Failed e =>
      calls s = [] /\
      exists p, procs s = [p] /\ stdin p = [] /\
        (killed p = true \/ e = AttributeError \/ e = ValueError)
  end.

Record tidy (s : bridge) : Prop := {
  tidy_main : main_io s;
  tidy_calls : forall i c, calls s !! i = Some c -> call_io (procs s) c;
  tidy_handles : forall i c, calls s !! i = Some c -> server_proc c <> Some 0%nat;
  tidy_count :
    length (procs s) =
    ((if launched (main s) then 1 else 0) + length (List.filter spawned (calls s)))%nat;
  tidy_lines : forall h p, procs s !! h = Some p -> Forall request_line (stdin p)
}.

End Discipline.

(** ** Concrete runs *)

(** The names the plain installation below reserves. *)
Definition plain_reserved (name : str) : bool :=
  starts_with (u "__") name || starts_with (u "model_") name ||
  existsb (str_eqb name)
    [u "dict"; u "json"; u "copy"; u "construct"; u "schema"; u "schema_json"; u "validate";
     u "parse_obj"; u "parse_raw"; u "parse_file"; u "from_orm"; u "update_forward_refs"].

(** An installation to evaluate with: a [float] prints as it was read and
    is finite unless it was read from [NaN] or an [Infinity], no code point
    above ASCII is printable, integers have up to 4300 digits, and pydantic
    refuses a model with a field name it has a use for. *)
Definition plain_runtime : PythonRuntime :=
  {| float_repr := fun lit => lit;
     float_json := fun lit => lit;
     isfinite := fun lit => negb (existsb (fun c => (c =? 78) || (c =? 73)) lit);
     isprintable := fun _ => false;
     int_max_str_digits := 4300;
     reserved := plain_reserved;
     create_reserved := fun _ => Raise NameError |}.

Section Concrete.
#[local] Existing Instance plain_runtime.

(** What a subprocess prints for a document: the line, with its newline. *)
Definition printed (v : json) : str := dumps v ++ [10].

(** The bridge started on the weather server. *)
Definition weather_bridge : bridge :=
  run [Main; Line 0 (printed WeatherServer.describe_tools); Main] initial.

Definition forecast_endpoint : endpoint :=
  {| path := u "/get-forecast";
     request_model := [(u "location", RequiredStr)];
     default_tool := u "get-forecast" |}.

Definition paris : request :=
  {| verb := POST; target := u "/get-forecast"; query := [];
     body := JDict [(u "location", JStr (u "Paris"))] |}.

Definition tokyo : request :=
  {| verb := POST; target := u "/get-time"; query := [];
     body := JDict [(u "location", JStr (u "Tokyo"))] |}.

(** The same request as [paris], with a query string. *)
Definition overriding : request :=
  {| verb := POST; target := u "/get-forecast"; query := [(u "tool", u "get-time")];
     body := JDict [(u "location", JStr (u "Paris"))] |}.


Definition sunny : json :=
  JDict [(u "location", JStr (u "Paris")); (u "forecast", JStr (u "Sunny and 70 in Paris"))].

Definition noon : json :=
  JDict [(u "location", JStr (u "Tokyo")); (u "time", JStr (u "12:00:00"))].

(** A first line that is not JSON. *)
Definition garbage : str := u "starting up...".

(** A tool with an integer property beside a string one. *)
Definition repeat_tool : json :=
  JDict [(u "name", JStr (u "repeat"));
         (u "description", JStr (u "Repeats a message"));
         (u "input_schema",
            JDict [(u "type", JStr (u "object"));
                   (u "properties",
                      JDict [(u "msg", JDict [(u "type", JStr (u "string"))]);
                             (u "times", JDict [(u "type", JStr (u "integer"))])])]);
         (u "output_schema", JDict [(u "type", JStr (u "object"))])].

Definition repeat_props : list (str * json) :=
  [(u "msg", JDict [(u "type", JStr (u "string"))]);
   (u "times", JDict [(u "type", JStr (u "integer"))])].





(** A result whose output holds a surrogate on its own, as a tool writes
    it: the escape [\ud800] inside a JSON string. *)
Definition lone_surrogate : json :=
  JDict [(u "location", JStr [55296]); (u "forecast", JStr (u "Sunny"))].

(** A call on the weather bridge that has sent its message and finds the
    error line in its buffer. *)
Definition failing_call : bridge :=
  run [Http paris; Tick 0; Line 1 (printed WeatherServer.describe_tools); Tick 0;
       Line 1 (printed error_boom)] weather_bridge.

(** The same call, finding a result. *)
Definition answered_call : bridge :=
  run [Http paris; Tick 0; Line 1 (printed WeatherServer.describe_tools); Tick 0;
       Line 1 (printed (to_json (ToolResult sunny)))] weather_bridge.

(** The description of a server that offers both tools. *)
Definition both_tools : json :=
  to_json (ToolDescription (listed WeatherServer.describe_tools ++ listed TimeTool.describe_tools)).

(** Two calls in flight at once, their steps and the lines of their
    subprocesses interleaved. *)
Definition interleaved : list event :=
  [Main; Line 0 (printed both_tools); Main;
   Http paris; Http tokyo; Tick 1; Tick 0;
   Line 2 (printed both_tools); Line 1 (printed both_tools); Tick 0; Tick 1;
   Line 1 (printed (to_json (ToolResult noon)));
   Line 2 (printed (to_json (ToolResult sunny)));
   Tick 1; Tick 0].

End Concrete.

(** An interpreter to evaluate with: a [float] is false when its literal
    has no digit but zero, and every exception reads the same. *)
Definition plain_interpreter : Interpreter :=
  {| float_bool := fun lit => existsb (fun c => (49 <=? c) && (c <=? 57)) lit;
     decode_error := fun _ => u "Expecting value";
     exception_text := fun _ _ => u "bad request" |}.

(** A calendar to evaluate with: a [datetime] is the date and the time of
    day of its ISO text, cut out by position. *)
Definition plain_calendar : Calendar :=
  {| datetime := str * str;
     fromisoformat := fun s =>
       if (19 <=? length s)%nat then inl (take 10 s, take 8 (drop 11 s))
       else inr (u "Invalid isoformat string");
     strftime := fun dt format => if str_eqb format (u "%H:%M:%S") then dt.2 else dt.1 |}.

Section Surroundings.
#[local] Existing Instance plain_runtime.
#[local] Existing Instance plain_interpreter.
#[local] Existing Instance plain_calendar.

(** The weather server with the network down. *)
Definition offline : WeatherServer.world :=
  {| WeatherServer.requests_get := fun _ _ => None;
     WeatherServer.randbelow := fun n => 0%nat |}.

(** The weather API answering with an empty object. *)
Definition no_conditions : WeatherServer.world :=
  {| WeatherServer.requests_get := fun _ _ =>
       Some {| status_code := 200; json_body := Some (JDict []) |};
     WeatherServer.randbelow := fun n => 0%nat |}.

(** The time tool with the network down, at noon of a new year's day. *)
Definition offline_at_noon : TimeTool.world :=
  {| TimeTool.requests_get := fun _ _ => None;
     TimeTool.utcnow := (u "2024-01-01", u "12:00:00") |}.

(** The time tool with both services answering for Tokyo. *)
Definition online_tokyo : TimeTool.world :=
  {| TimeTool.requests_get := fun url _ =>
       if starts_with (u "https://nominatim") url
       then Some {| status_code := 200;
                    json_body := Some (JList [JDict [(u "lat", JStr (u "35.6769"));
                                                     (u "lon", JStr (u "139.7639"))]]) |}
       else Some {| status_code := 200;
                    json_body := Some (JDict [(u "dateTime", JStr (u "2024-01-01T21:00:00"));
                                              (u "timeZone", JStr (u "Asia/Tokyo"))]) |};
     TimeTool.utcnow := (u "2024-01-01", u "12:00:00") |}.

(** A tool that exits with an error. *)
Definition crashed : CompletedProcess :=
  {| returncode := 1; stdout := []; stderr := u "Traceback (most recent call last)" |}.

Definition time_endpoint : endpoint :=
  {| path := u "/get-time"; request_model := [(u "location", RequiredStr)];
     default_tool := u "get-time" |}.

(** One call on the weather bridge, up to the message it writes. *)
Definition one_call : list event :=
  [Main; Line 0 (printed WeatherServer.describe_tools); Main; Http paris; Tick 0;
   Line 1 (printed WeatherServer.describe_tools); Tick 0].

(** The call answered from a result, and from a line that is JSON but no
    object. *)
Definition answered_sunny : list event :=
  one_call ++ [Line 1 (printed (to_json (ToolResult sunny))); Tick 0].

Definition answered_list : list event :=
  one_call ++ [Line 1 (printed (JList [JInt 1])); Tick 0].

(** The call answered from a line that is an integer of 4301 digits, one
    more than the interpreter converts as it is set up. *)
Definition answered_long : list event :=
  one_call ++ [Line 1 (repeat 49 4301%nat ++ [10]); Tick 0].

(** A description whose second tool lacks its schemas. *)
Definition half_described : json :=
  to_json (ToolDescription (listed WeatherServer.describe_tools ++
                            [JDict [(u "name", JStr (u "broken"))]])).

(** A tool whose input schema names no properties. *)
Definition ping_tool : json :=
  JDict [(u "name", JStr (u "ping"));
         (u "input_schema", JDict [(u "type", JStr (u "object"))]);
         (u "output_schema", JDict [(u "type", JStr (u "object"))])].

(** A tool run to its end that printed its description and a result. *)
Definition sunny_process : CompletedProcess :=
  {| returncode := 0;
     stdout := printed WeatherServer.describe_tools ++ printed (to_json (ToolResult sunny));
     stderr := [] |}.

End Surroundings.

(** * Facts *)

(** ** Text and dictionaries *)

Lemma str_eqb_eq (a b : str) : str_eqb a b = true <-> a = b.
Proof.
  revert b. induction a as [| x a IH]; intros [| y b]; simpl; split; try easy.
  - intros Hxy. apply andb_true_iff in Hxy as [Hx Ha]. apply Z.eqb_eq in Hx.
    apply IH in Ha. congruence.
  - intros [= -> ->]. rewrite Z.eqb_refl. simpl. apply IH. reflexivity.
Qed.

Lemma dict_set_keys {A : Type} (k k' : str) (v : A) (d : list (str * A)) :
  In k (map fst (dict_set k' v d)) <-> k = k' \/ In k (map fst d).
Proof.
  induction d as [| [k0 v0] d IH]; simpl.
  - intuition congruence.
  - destruct (str_eqb k' k0) eqn:E; simpl.
    + apply str_eqb_eq in E. subst. intuition congruence.
    + rewrite IH. intuition congruence.
Qed.

Lemma string_properties_cons (k : str) (d : list (str * json)) (rest : list (str * json))
    (acc : list (str * field)) :
  string_properties ((k, JDict d) :: rest) acc =
  if string_typed (JDict d)
  then string_properties rest (dict_set k RequiredStr acc)
  else string_properties rest acc.
Proof. reflexivity. Qed.

Lemma string_properties_keys (props : list (str * json)) (acc : list (str * field)) :
  Forall (fun kv => is_dict kv.2) props ->
  exists m, string_properties props acc = Ok m /\
    forall k, In k (map fst m) <->
      In k (map fst acc) \/ exists schema, In (k, schema) props /\ string_typed schema = true.
Proof.
  intros Hd. revert acc. induction Hd as [| [k0 sch] props Hsch _ IH]; intros acc.
  2: destruct Hsch as [d Hsch]; simpl in Hsch; subst sch.
  - exists acc. split; [reflexivity |]. intros k. split; [tauto |].
    intros [Hk | (sch & [] & _)]. exact Hk.
  - rewrite string_properties_cons. destruct (string_typed (JDict d)) eqn:Et.
    + destruct (IH (dict_set k0 RequiredStr acc)) as (m & Hm & Hk).
      exists m. split; [exact Hm |].
      intros k. rewrite Hk, dict_set_keys. split.
      * intros [[-> | Hin] | (sch & Hin & Hs)].
        -- right. exists (JDict d). split; [left; reflexivity | exact Et].
        -- left. exact Hin.
        -- right. exists sch. split; [right; exact Hin | exact Hs].
      * intros [Hin | (sch & [[= <- <-] | Hin] & Hs)].
        -- left. right. exact Hin.
        -- left. left. reflexivity.
        -- right. exists sch. split; assumption.
    + destruct (IH acc) as (m & Hm & Hk).
      exists m. split; [exact Hm |].
      intros k. rewrite Hk. split.
      * intros [Hin | (sch & Hin & Hs)]; [left; exact Hin |].
        right. exists sch. split; [right; exact Hin | exact Hs].
      * intros [Hin | (sch & [[= <- <-] | Hin] & Hs)].
        -- left. exact Hin.
        -- congruence.
        -- right. exists sch. split; assumption.
Qed.

Lemma filter_keys {A : Type} (f : str -> bool) (l : list (str * A)) (k : str) :
  In k (map fst (List.filter (fun kv => f (fst kv)) l)) <-> f k = true /\ In k (map fst l).
Proof.
  induction l as [| [k' v] l IH]; simpl; [tauto |].
  destruct (f k') eqn:E; simpl; rewrite IH; intuition congruence.
Qed.

Section Registered.
Context `{PythonRuntime}.

Lemma plain_name_class (name : str) :
  plain_name name = true -> forallb is_scalar name = true /\ existsb (Z.eqb 0) name = false.
Proof.
  unfold plain_name. induction name as [| c name IH]; cbn [forallb existsb]; [auto |].
  intros Hp. apply andb_true_iff in Hp as [Hc Hp].
  apply andb_true_iff in Hc as [Hc _]. apply andb_true_iff in Hc as [Hs Hz].
  destruct (IH Hp) as [-> ->]. rewrite Hs. split; [reflexivity |].
  rewrite Z.eqb_sym. apply negb_true_iff in Hz. rewrite Hz. reflexivity.
Qed.

Lemma create_model_plain (name : str) (input_properties : list (str * field)) :
  plain_name name = true ->
  Forall (fun name => reserved name = false) (map fst input_properties) ->
  create_model name input_properties =
  Ok (List.filter (fun kv => is_valid_field_name (fst kv)) input_properties).
Proof.
  intros Hp Hr. unfold create_model. destruct (plain_name_class name Hp) as [-> ->].
  replace (existsb reserved (map fst input_properties)) with false; [reflexivity |].
  symmetry. induction Hr as [| k names Hn _ IH]; simpl; [reflexivity |].
  rewrite Hn, IH. reflexivity.
Qed.

Lemma register_described (tool : json) (name : str) (props : list (str * json)) :
  described tool name props ->
  plain_name name = true ->
  Forall (fun kv => string_typed kv.2 = true -> reserved kv.1 = false) props ->
  exists e, register tool = Ok e /\ path e = 47 :: name /\ default_tool e = name /\
    forall k, In k (map fst (request_model e)) <->
      is_valid_field_name k = true /\
      exists schema, In (k, schema) props /\ string_typed schema = true.
Proof.
  intros [Hn (isch & Hi & Hp) (osch & Ho) Hd] Hplain Hres.
  destruct (string_properties_keys props [] Hd) as (m & Hm & Hk).
  exists {| path := 47 :: name;
            request_model := List.filter (fun kv => is_valid_field_name (fst kv)) m;
            default_tool := name |}.
  split; [| split; [reflexivity | split; [reflexivity |]]].
  - unfold register. rewrite Hn, Hi, Ho. simpl. rewrite Hp. simpl. rewrite Hm. simpl.
    rewrite create_model_plain; [reflexivity | exact Hplain |].
    apply List.Forall_forall. intros k Hin. apply Hk in Hin as [[] | (schema & Hin & Hs)].
    rewrite List.Forall_forall in Hres. exact (Hres _ Hin Hs).
  - intros k. cbn [request_model]. rewrite filter_keys, Hk. simpl. tauto.
Qed.




Lemma dispatch_no_route (app : list endpoint) (r : request) :
  find (fun e => str_eqb (target r) (path e)) app = None ->
  exists resp, dispatch app r = Rejected resp.
Proof.
  intros Hf. unfold dispatch. rewrite Hf.
  destruct (redirect_slashes (target r)); [destruct (existsb _ app) |]; eauto.
Qed.

Lemma dispatch_not_spawned (app : list endpoint) (r : request) :
  server_proc (dispatch app r) = None.
Proof.
  destruct (find (fun e => str_eqb (target r) (path e)) app) eqn:Ef;
    [| destruct (dispatch_no_route app r Ef) as [resp ->]; reflexivity].
  unfold dispatch. rewrite Ef.
  destruct (verb r); [reflexivity |]. destruct (body r); try reflexivity.
  destruct (validate _ _); reflexivity.
Qed.

Lemma register_all_each (tools : list json) (app : list endpoint) :
  register_all tools = Ok app ->
  Forall2 (fun tool e => register tool = Ok e) tools app.
Proof.
  revert app. induction tools as [| tool tools IH]; intros app; simpl.
  - intros [= <-]. constructor.
  - unfold mbind, result_bind.
    destruct (register tool) as [e | ex] eqn:Er; [| discriminate].
    destruct (register_all tools) as [es | ex]; [| discriminate].
    intros [= <-]. constructor; [exact Er | apply IH; reflexivity].
Qed.

Lemma register_path (tool : json) (e : endpoint) :
  register tool = Ok e ->
  exists name, subscript tool (u "name") = Ok (JStr name) /\ path e = 47 :: name /\
    default_tool e = name.
Proof.
  unfold register, mbind, result_bind.
  destruct (subscript tool (u "name")) as [tn |]; [| discriminate].
  destruct (subscript tool (u "input_schema")) as [isch |]; [| discriminate].
  destruct (subscript tool (u "output_schema")) as [osch |]; [| discriminate].
  destruct (get isch (u "properties") (JDict [])) as [pr |]; [| discriminate].
  destruct (items pr) as [props |]; [| discriminate].
  destruct (string_properties props []) as [m |]; [| discriminate].
  destruct tn; simpl; try discriminate.
  destruct (create_model s m) as [model |]; [| discriminate].
  intros [= <-]. exists s. auto.
Qed.

End Registered.

(** ** Threads that wait *)

Section Waiting.
Context `{PythonRuntime}.

Lemma run_cons (e : event) (evs : list event) (s : bridge) : run (e :: evs) s = run evs (step s e).
Proof. reflexivity. Qed.

Lemma buffer_alter_ne (s : bridge) (f : process -> process) (h h' : nat) ps :
  h <> h' ->
  buffer {| procs := alter f h' (procs s); main := ps; calls := calls s |} h = buffer s h.
Proof.
  intros Hne. unfold buffer. simpl. rewrite list_lookup_alter_ne by congruence. reflexivity.
Qed.

Lemma lookup_snoc_empty (ps : list process) (h : nat) :
  match (ps ++ [Popen]) !! h with Some p => stdout_buffer p | None => [] end =
  match ps !! h with Some p => stdout_buffer p | None => [] end.
Proof.
  destruct (decide (h < length ps)%nat) as [Hlt | Hge].
  - rewrite lookup_app_l by exact Hlt. reflexivity.
  - rewrite (lookup_ge_None_2 ps h) by lia.
    rewrite lookup_app_r by lia.
    destruct (h - length ps)%nat as [| k]; simpl; [reflexivity |].
    destruct k; reflexivity.
Qed.

Lemma tool_endpoint_spin (ps : list process) (c : call) (h : nat) :
  server_proc c = Some h ->
  match ps !! h with Some p => stdout_buffer p | None => [] end = [] ->
  tool_endpoint ps c = (ps, c).
Proof.
  intros Hc Hb. destruct c as [r | t i | h' t i | h' | h' r]; simpl in *; try discriminate;
    try reflexivity; injection Hc as ->.
  - destruct (ps !! h) as [p |]; [| reflexivity]. rewrite Hb. reflexivity.
  - destruct (ps !! h) as [p |]; [| reflexivity]. rewrite Hb. reflexivity.
Qed.

Lemma tool_endpoint_buffer (ps : list process) (c : call) (h : nat) :
  match ps !! h with Some p => stdout_buffer p | None => [] end = [] ->
  match (tool_endpoint ps c).1 !! h with Some p => stdout_buffer p | None => [] end = [].
Proof.
  intros Hb. destruct c as [r | t i | h' t i | h' | h' r]; simpl; try exact Hb.
  - rewrite lookup_snoc_empty. exact Hb.
  - destruct (ps !! h') as [p |] eqn:Hp; [| exact Hb].
    destruct (stdout_buffer p) as [| l b] eqn:Hq; [exact Hb |]. simpl.
    destruct (decide (h = h')) as [-> | Hne].
    + rewrite Hp in Hb. congruence.
    + rewrite list_lookup_alter_ne by congruence. exact Hb.
  - destruct (ps !! h') as [p |] eqn:Hp; [| exact Hb].
    destruct (stdout_buffer p) as [| l b] eqn:Hq; [exact Hb |].
    destruct (finish l) as [k o]. simpl.
    destruct (decide (h = h')) as [-> | Hne].
    + rewrite Hp in Hb. congruence.
    + rewrite list_lookup_alter_ne by congruence. exact Hb.
Qed.

Lemma step_keeps_spinning (s : bridge) (e : event) (t : thread) (h : nat) :
  polling s t = Some h -> buffer s h = [] -> line_of h e = false ->
  standing (step s e) t = standing s t /\ buffer (step s e) h = [].
Proof.
  intros Hp Hb He. destruct e as [| r | j | h' raw]; simpl.
  - (* Main *)
    unfold create_app. destruct (main s) as [| h' | app | ex] eqn:Hm.
    + split.
      * destruct t; simpl; [| reflexivity].
        unfold polling, standing in Hp. rewrite Hm in Hp. discriminate.
      * unfold buffer. simpl. rewrite lookup_snoc_empty. exact Hb.
    + destruct (buffer s h') as [| l b] eqn:Hb'; [split; [reflexivity | exact Hb] |].
      assert (h <> h') by (intros ->; congruence).
      destruct (describe l) as [k o]. split.
      * destruct t; simpl; [| reflexivity].
        unfold polling, standing in Hp. rewrite Hm in Hp. congruence.
      * rewrite buffer_alter_ne by assumption. exact Hb.
    + split; [reflexivity | exact Hb].
    + split; [reflexivity | exact Hb].
  - (* Http *)
    destruct (main s) as [| h' | app | ex] eqn:Hm; try (split; [reflexivity | exact Hb]).
    split; [| exact Hb].
    destruct t; simpl; [congruence |].
    unfold polling, standing in Hp.
    destruct (calls s !! i) as [c |] eqn:Hc; [| discriminate].
    rewrite lookup_app_l by (eapply lookup_lt_Some; eassumption). rewrite Hc. reflexivity.
  - (* Tick *)
    destruct (calls s !! j) as [c |] eqn:Hc; [| split; [reflexivity | exact Hb]].
    destruct (tool_endpoint (procs s) c) as [ps c'] eqn:Hte. simpl. split.
    + destruct t as [| i]; simpl; [reflexivity |].
      destruct (decide (i = j)) as [-> | Hne].
      * unfold polling, standing in Hp. rewrite Hc in Hp. simpl in Hp.
        assert (server_proc c = Some h) as Hs by (destruct c; simpl in *; congruence).
        rewrite (tool_endpoint_spin _ _ _ Hs Hb) in Hte. injection Hte as <- <-.
        rewrite list_insert_id by exact Hc. reflexivity.
      * rewrite list_lookup_insert_ne by congruence. reflexivity.
    + unfold buffer. simpl.
      pose proof (tool_endpoint_buffer (procs s) c h Hb) as Hk. rewrite Hte in Hk. exact Hk.
  - (* Line *)
    simpl in He. apply Nat.eqb_neq in He. split; [destruct t; reflexivity |].
    rewrite buffer_alter_ne by exact He. exact Hb.
Qed.

Lemma polling_standing (s s' : bridge) (t : thread) :
  standing s' t = standing s t -> polling s' t = polling s t.
Proof. unfold polling. intros ->. reflexivity. Qed.

Lemma keeps_spinning (evs : list event) (s : bridge) (t : thread) (h : nat) :
  polling s t = Some h ->
  buffer s h = [] ->
  Forall (fun e => line_of h e = false) evs ->
  standing (run evs s) t = standing s t /\ buffer (run evs s) h = [].
Proof.
  intros Hp Hb Hq. revert s Hp Hb. induction Hq as [| e evs He _ IH]; intros s Hp Hb.
  - split; [reflexivity | exact Hb].
  - rewrite run_cons.
    destruct (step_keeps_spinning s e t h Hp Hb He) as [Hs Hb'].
    destruct (IH (step s e)) as [Hs' Hb'']; [| exact Hb' |].
    + rewrite (polling_standing _ _ _ Hs). exact Hp.
    + split; [congruence | exact Hb''].
Qed.

End Waiting.

(** ** Decimal numbers *)

Lemma decimal_acc (fuel : nat) (n : Z) (acc : str) :
  decimal fuel n acc = decimal fuel n [] ++ acc.
Proof.
  revert n acc. induction fuel as [| fuel IH]; intros n acc; simpl; [reflexivity |].
  destruct (n <? 10); [reflexivity |].
  rewrite IH, (IH _ [_]), <- app_assoc. reflexivity.
Qed.

Lemma decimal_step (fuel : nat) (n : Z) :
  10 <= n -> decimal (S fuel) n [] = decimal fuel (n / 10) [] ++ [digit (n mod 10)].
Proof.
  intros Hn. simpl. destruct (n <? 10) eqn:E; [lia |]. apply decimal_acc.
Qed.

Lemma decimal_small (fuel : nat) (n : Z) : n < 10 -> decimal (S fuel) n [] = [digit n].
Proof. intros Hn. simpl. destruct (n <? 10) eqn:E; [reflexivity | lia]. Qed.

Lemma digits_value_snoc (ds : str) (d : Z) :
  digits_value (ds ++ [d]) = 10 * digits_value ds + (d - 48).
Proof. unfold digits_value. rewrite fold_left_app. reflexivity. Qed.

Lemma pow2_fuel (fuel : nat) (n : Z) :
  10 <= n < 2 ^ Z.of_nat (S fuel) -> 0 <= n / 10 < 2 ^ Z.of_nat fuel.
Proof.
  intros [Hlo Hhi]. rewrite Nat2Z.inj_succ, Z.pow_succ_r in Hhi by lia.
  split; [apply Z.div_pos; lia |].
  apply Z.div_lt_upper_bound; lia.
Qed.

Lemma decimal_value (fuel : nat) (n : Z) :
  0 <= n < 2 ^ Z.of_nat fuel -> digits_value (decimal fuel n []) = n.
Proof.
  revert n. induction fuel as [| fuel IH]; intros n Hn.
  - simpl in *. unfold digits_value. simpl. lia.
  - destruct (Z.lt_ge_cases n 10) as [Hs | Hb].
    + rewrite decimal_small by exact Hs. unfold digits_value, digit. simpl. lia.
    + rewrite decimal_step by exact Hb. rewrite digits_value_snoc, IH by (apply pow2_fuel; lia).
      unfold digit. pose proof (Z.div_mod n 10). lia.
Qed.

Lemma decimal_digits (fuel : nat) (n : Z) :
  0 <= n -> Forall (fun c => is_digit c = true) (decimal fuel n []).
Proof.
  revert n. induction fuel as [| fuel IH]; intros n Hn; [constructor |].
  destruct (Z.lt_ge_cases n 10) as [Hs | Hb].
  - rewrite decimal_small by exact Hs. constructor; [| constructor].
    unfold is_digit, digit. lia.
  - rewrite decimal_step by exact Hb. apply Forall_app. split.
    + apply IH. apply Z.div_pos; lia.
    + constructor; [| constructor]. unfold is_digit, digit.
      pose proof (Z.mod_pos_bound n 10). lia.
Qed.

(** The first digit is zero only for zero itself. *)
Lemma decimal_head (fuel : nat) (n : Z) :
  0 <= n < 2 ^ Z.of_nat (S fuel) ->
  exists c r, decimal (S fuel) n [] = c :: r /\
    ((n = 0 /\ c = 48 /\ r = []) \/ (0 < n /\ 49 <= c <= 57)).
Proof.
  revert n. induction fuel as [| fuel IH]; intros n Hn.
  - assert (n < 10) as Hs by (change (2 ^ Z.of_nat 1) with 2 in Hn; lia).
    rewrite decimal_small by exact Hs. exists (digit n), []. split; [reflexivity |].
    unfold digit. destruct (Z.eq_dec n 0) as [-> | Hne]; [left; auto | right; lia].
  - destruct (Z.lt_ge_cases n 10) as [Hs | Hb].
    + rewrite decimal_small by exact Hs. exists (digit n), []. split; [reflexivity |].
      unfold digit. destruct (Z.eq_dec n 0) as [-> | Hne]; [left; auto | right; lia].
    + rewrite decimal_step by exact Hb.
      destruct (IH (n / 10)) as (c & r & -> & Hc); [apply pow2_fuel; lia |].
      exists c, (r ++ [digit (n mod 10)]). split; [reflexivity |]. right.
      assert (0 < n / 10) by (apply Z.div_str_pos; lia). lia.
Qed.

Lemma log2_fuel (n : Z) : 0 <= n -> 0 <= n < 2 ^ Z.of_nat (S (Z.to_nat (Z.log2 n))).
Proof.
  intros Hn. split; [exact Hn |].
  rewrite Nat2Z.inj_succ, Z2Nat.id by apply Z.log2_nonneg.
  destruct (Z.eq_dec n 0) as [-> | Hne]; [reflexivity |].
  apply Z.log2_spec. lia.
Qed.

(** What [str(n)] looks like: an optional minus, then digits that start
    with zero only for zero. *)
Lemma str_of_int_shape (n : Z) :
  exists sign c r, str_of_int n = sign ++ c :: r /\
    (sign = [] \/ sign = [45]) /\
    Forall (fun c => is_digit c = true) (c :: r) /\
    ((c = 48 /\ r = []) \/ 49 <= c <= 57) /\
    int_of_literal (str_of_int n) = n.
Proof.
  unfold str_of_int. destruct (n <? 0) eqn:E.
  - assert (0 <= - n) as Hn by lia.
    destruct (decimal_head _ _ (log2_fuel _ Hn)) as (c & r & Hd & Hc).
    exists [45], c, r. rewrite Hd. split; [reflexivity |]. split; [auto |].
    split; [rewrite <- Hd; apply decimal_digits; exact Hn |].
    split; [destruct Hc as [(_ & Hc1 & Hc2) | [_ Hc]]; [left; auto | right; exact Hc] |].
    unfold int_of_literal. simpl. rewrite <- Hd, decimal_value by (apply log2_fuel; exact Hn). lia.
  - assert (0 <= n) as Hn by lia.
    destruct (decimal_head _ _ (log2_fuel _ Hn)) as (c & r & Hd & Hc).
    exists [], c, r. rewrite Hd. split; [reflexivity |]. split; [auto |].
    assert (Forall (fun c => is_digit c = true) (c :: r)) as Hds
      by (rewrite <- Hd; apply decimal_digits; exact Hn).
    split; [exact Hds |].
    split; [destruct Hc as [(_ & Hc1 & Hc2) | [_ Hc]]; [left; auto | right; exact Hc] |].
    unfold int_of_literal. assert (is_digit c = true) as Hdc by (inversion Hds; assumption).
    unfold is_digit in Hdc. destruct (c =? 45) eqn:E45; [lia |].
    rewrite <- Hd. apply decimal_value. apply log2_fuel. exact Hn.
Qed.

Lemma span_digits_app (ds rest : str) :
  Forall (fun c => is_digit c = true) ds -> delimited rest = true ->
  span_digits (ds ++ rest) = (ds, rest).
Proof.
  intros Hds Hrest. induction Hds as [| d ds Hd _ IH]; simpl.
  - destruct rest as [| c rest]; [reflexivity |]. simpl in *.
    destruct (is_digit c); [discriminate | reflexivity].
  - rewrite Hd, IH. reflexivity.
Qed.

Lemma scan_number_int `{PythonRuntime} (n : Z) (rest : str) :
  too_long (str_of_int n) = false ->
  delimited rest = true -> scan_number (str_of_int n ++ rest) = Ok (JInt n, rest).
Proof.
  intros Hfits Hrest.
  destruct (str_of_int_shape n) as (sign & c & r & Hs & Hsign & Hds & Hc & Hv).
  assert (is_digit c = true) as Hdc by (inversion Hds; assumption).
  assert (Forall (fun c => is_digit c = true) r) as Hdr by (inversion Hds; assumption).
  assert (scan_integer (str_of_int n ++ rest) = Some (str_of_int n, rest)) as Hi.
  { rewrite Hs. pose proof Hdc as Hdc'. unfold is_digit in Hdc'. unfold scan_integer.
    destruct Hsign as [-> | ->]; simpl.
    - destruct (c =? 45) eqn:E45; [lia |].
      destruct Hc as [[-> ->] | Hc]; [reflexivity |].
      destruct (c =? 48) eqn:E48; [lia |]. rewrite ?Hdc, ?Hdc'.
      rewrite span_digits_app by assumption. reflexivity.
    - destruct Hc as [[-> ->] | Hc]; [reflexivity |].
      destruct (c =? 48) eqn:E48; [lia |]. rewrite ?Hdc, ?Hdc'.
      rewrite span_digits_app by assumption. reflexivity. }
  unfold scan_number. rewrite Hi.
  assert (scan_frac rest = ([], rest) /\ scan_exp rest = ([], rest)) as [-> ->].
  { destruct rest as [| x rest]; [split; reflexivity |]. simpl in *.
    destruct (x =? 46), (x =? 101), (x =? 69); simpl; auto;
      rewrite ?orb_true_r in Hrest; discriminate. }
  cbn [app]. rewrite Hfits, Hv. reflexivity.
Qed.

Lemma str_of_int_head (n : Z) :
  exists c r, str_of_int n = c :: r /\ (c = 45 \/ 48 <= c <= 57).
Proof.
  destruct (str_of_int_shape n) as (sign & c & r & Hs & Hsign & Hds & _).
  assert (is_digit c = true) as Hdc by (inversion Hds; assumption). unfold is_digit in Hdc.
  rewrite Hs. destruct Hsign as [-> | ->]; simpl; eexists _, _; (split; [reflexivity | lia]).
Qed.

Lemma str_of_int_last (n : Z) :
  exists r c, str_of_int n = r ++ [c] /\ 48 <= c <= 57.
Proof.
  destruct (str_of_int_shape n) as (sign & c & r & Hs & _ & Hds & _).
  rewrite Hs. destruct (@exists_last _ (c :: r)) as (r' & c' & Hr); [discriminate |].
  rewrite Hr in *. exists (sign ++ r'), c'. rewrite app_assoc. split; [reflexivity |].
  apply Forall_app in Hds as [_ Hl]. inversion Hl as [| ? ? Hd _]. unfold is_digit in Hd. lia.
Qed.

(** ** Hexadecimal escapes *)

Lemma hex_val_digit (d : Z) : 0 <= d < 16 -> hex_val (hex_digit d) = Some d.
Proof.
  intros Hd. unfold hex_val, hex_digit.
  destruct (d <? 10) eqn:E.
  - destruct ((48 <=? 48 + d) && (48 + d <=? 57)) eqn:E1; [f_equal; lia | lia].
  - destruct ((48 <=? 87 + d) && (87 + d <=? 57)) eqn:E1; [lia |].
    destruct ((97 <=? 87 + d) && (87 + d <=? 102)) eqn:E2; [f_equal; lia | lia].
Qed.

Lemma hex4_val_hex4 (n : Z) :
  0 <= n < 65536 ->
  exists a b c d, hex4 n = [a; b; c; d] /\ hex4_val a b c d = Some n.
Proof.
  intros Hn. unfold hex4, hex2. simpl. eexists _, _, _, _. split; [reflexivity |].
  unfold hex4_val.
  rewrite !hex_val_digit by (apply Z.mod_pos_bound; lia).
  f_equal. 
  pose proof (Z.div_mod n 16 ltac:(lia)). pose proof (Z.mod_pos_bound n 16 ltac:(lia)).
  pose proof (Z.div_mod (n / 16) 16 ltac:(lia)). pose proof (Z.mod_pos_bound (n / 16) 16 ltac:(lia)).
  pose proof (Z.div_mod (n / 256) 16 ltac:(lia)). pose proof (Z.mod_pos_bound (n / 256) 16 ltac:(lia)).
  assert (n / 256 = n / 16 / 16) as E1 by (rewrite Z.div_div by lia; reflexivity).
  assert (n / 256 / 16 < 16) by (apply Z.div_lt_upper_bound; [lia |]; apply Z.div_lt_upper_bound; lia).
  assert (0 <= n / 256 / 16) by (apply Z.div_pos; [apply Z.div_pos |]; lia).
  rewrite (Z.mod_small (n / 256 / 16)) by lia.
  lia.
Qed.

(** ** Surrogate pairs *)

Lemma lor_low (x b : Z) : 0 <= x -> 0 <= b < 1024 -> Z.lor (x * 1024) b = x * 1024 + b.
Proof.
  intros Hx Hb. symmetry. apply Z.add_nocarry_lor.
  apply Z.bits_inj'. intros i Hi. rewrite Z.land_spec, Z.bits_0.
  destruct (Z.lt_ge_cases i 10) as [Hlt | Hge].
  - change 1024 with (2 ^ 10). rewrite Z.mul_pow2_bits_low by lia. reflexivity.
  - rewrite (Z.bits_above_log2 b i); [apply andb_false_r | lia |].
    destruct (Z.eq_dec b 0) as [-> | Hne]; [simpl; lia |].
    apply Z.log2_lt_pow2; [lia |]. apply Z.lt_le_trans with (2 ^ 10); [lia |].
    apply Z.pow_le_mono_r; lia.
Qed.

Lemma surrogates (c : Z) :
  65536 <= c < 1114112 ->
  let v := c - 65536 in
  let hi := Z.lor 55296 (Z.land (Z.shiftr v 10) 1023) in
  let lo := Z.lor 56320 (Z.land v 1023) in
  55296 <= hi <= 56319 /\ 56320 <= lo <= 57343 /\ join_surrogates hi lo = c.
Proof.
  intros Hc v hi lo.
  assert (0 <= v < 1048576) as Hv by (unfold v; lia).
  assert (Z.land (Z.shiftr v 10) 1023 = v / 1024) as E1.
  { change 1023 with (Z.ones 10). rewrite Z.land_ones by lia.
    rewrite Z.shiftr_div_pow2 by lia. change (2 ^ 10) with 1024.
    apply Z.mod_small. split; [apply Z.div_pos; lia | apply Z.div_lt_upper_bound; lia]. }
  assert (Z.land v 1023 = v mod 1024) as E2.
  { change 1023 with (Z.ones 10). rewrite Z.land_ones by lia. reflexivity. }
  assert (0 <= v / 1024 < 1024) as H1
    by (split; [apply Z.div_pos; lia | apply Z.div_lt_upper_bound; lia]).
  pose proof (Z.mod_pos_bound v 1024 ltac:(lia)) as H2.
  assert (hi = 55296 + v / 1024) as Ehi.
  { unfold hi. rewrite E1. change 55296 with (54 * 1024). rewrite lor_low by lia. reflexivity. }
  assert (lo = 56320 + v mod 1024) as Elo.
  { unfold lo. rewrite E2. change 56320 with (55 * 1024). rewrite lor_low by lia. reflexivity. }
  split; [lia |]. split; [lia |].
  unfold join_surrogates. rewrite Ehi, Elo.
  replace (55296 + v / 1024 - 55296) with (v / 1024) by lia.
  replace (56320 + v mod 1024 - 56320) with (v mod 1024) by lia.
  rewrite Z.shiftl_mul_pow2 by lia. change (2 ^ 10) with 1024.
  rewrite lor_low by lia. pose proof (Z.div_mod v 1024 ltac:(lia)). unfold v in *. lia.
Qed.

(** ** Text inside a document *)

(** Text made of scalar values, which is all text that has a UTF-8
    encoding, survives the wire. *)
Lemma scalar_text_wf (s : str) : forallb is_scalar s = true -> wf_str s = true.
Proof.
  induction s as [| c s IH]; simpl; [reflexivity |].
  intros Hs. apply andb_true_iff in Hs as [Hc Hs]. rewrite IH by exact Hs.
  unfold is_scalar in Hc. unfold valid_char, is_high_surrogate.
  destruct ((55296 <=? c) && (c <=? 56319)) eqn:Eh; simpl; [lia |].
  rewrite !andb_true_r. lia.
Qed.

Lemma scanstring_plain (c : Z) (r : str) :
  c <> 34 -> c <> 92 -> 32 <= c -> scanstring (c :: r) = prepend c (scanstring r).
Proof.
  intros H1 H2 H3. simpl.
  destruct (c =? 34) eqn:E1; [lia |]. destruct (c =? 92) eqn:E2; [lia |].
  destruct (c <? 32) eqn:E3; [lia |]. reflexivity.
Qed.

Lemma scanstring_escape (e : Z) (r : str) :
  e <> 117 ->
  scanstring (92 :: e :: r) =
  match unescape e with
  | Some c => prepend c (scanstring r)
  | None => None
  end.
Proof. intros He. simpl. destruct (e =? 117) eqn:E; [lia | reflexivity]. Qed.

Lemma scanstring_u (h1 h2 h3 h4 : Z) (r2 : str) :
  scanstring (92 :: 117 :: h1 :: h2 :: h3 :: h4 :: r2) =
  match hex4_val h1 h2 h3 h4 with
  | None => None
  | Some hi =>
      match r2 with
      | b1 :: b2 :: l1 :: l2 :: l3 :: l4 :: r3 =>
          if is_high_surrogate hi && (b1 =? 92) && (b2 =? 117) then
            match hex4_val l1 l2 l3 l4 with
            | None => None
            | Some lo =>
                if is_low_surrogate lo
                then prepend (join_surrogates hi lo) (scanstring r3)
                else prepend hi (scanstring r2)
            end
          else prepend hi (scanstring r2)
      | _ => prepend hi (scanstring r2)
      end
  end.
Proof. reflexivity. Qed.

(** The text ahead does not start with the escape of a low surrogate. *)
Definition no_low_escape (tl : str) : Prop :=
  forall l1 l2 l3 l4 r3, tl = 92 :: 117 :: l1 :: l2 :: l3 :: l4 :: r3 ->
    exists lo, hex4_val l1 l2 l3 l4 = Some lo /\ is_low_surrogate lo = false.

Lemma scanstring_u_alone (h1 h2 h3 h4 hi : Z) (r2 : str) :
  hex4_val h1 h2 h3 h4 = Some hi ->
  (is_high_surrogate hi = true -> no_low_escape r2) ->
  scanstring (92 :: 117 :: h1 :: h2 :: h3 :: h4 :: r2) = prepend hi (scanstring r2).
Proof.
  intros Hh Hno. rewrite scanstring_u, Hh.
  destruct r2 as [| b1 [| b2 [| l1 [| l2 [| l3 [| l4 r3]]]]]]; try reflexivity.
  destruct (is_high_surrogate hi) eqn:Ehi; [| reflexivity].
  destruct (b1 =? 92) eqn:E1; [| reflexivity]. destruct (b2 =? 117) eqn:E2; [| reflexivity].
  apply Z.eqb_eq in E1, E2. subst b1 b2.
  destruct (Hno eq_refl l1 l2 l3 l4 r3 eq_refl) as (lo & -> & ->). reflexivity.
Qed.

Lemma escape_char_cases (c : Z) :
  valid_char c = true ->
  (exists e, escape_char c = [92; e] /\ e <> 117 /\ unescape e = Some c) \/
  (escape_char c = [c] /\ c <> 34 /\ c <> 92 /\ 32 <= c) \/
  (0 <= c < 65536 /\ escape_char c = [92; 117] ++ hex4 c) \/
  (65536 <= c < 1114112 /\
   escape_char c =
     [92; 117] ++ hex4 (Z.lor 55296 (Z.land (Z.shiftr (c - 65536) 10) 1023)) ++
     [92; 117] ++ hex4 (Z.lor 56320 (Z.land (c - 65536) 1023))).
Proof.
  intros Hv. unfold valid_char in Hv. unfold escape_char.
  destruct (c =? 34) eqn:E1; [left; exists 34; apply Z.eqb_eq in E1; subst; easy |].
  destruct (c =? 92) eqn:E2; [left; exists 92; apply Z.eqb_eq in E2; subst; easy |].
  destruct (c =? 10) eqn:E3; [left; exists 110; apply Z.eqb_eq in E3; subst; easy |].
  destruct (c =? 13) eqn:E4; [left; exists 114; apply Z.eqb_eq in E4; subst; easy |].
  destruct (c =? 9) eqn:E5; [left; exists 116; apply Z.eqb_eq in E5; subst; easy |].
  destruct (c =? 8) eqn:E6; [left; exists 98; apply Z.eqb_eq in E6; subst; easy |].
  destruct (c =? 12) eqn:E7; [left; exists 102; apply Z.eqb_eq in E7; subst; easy |].
  destruct ((32 <=? c) && (c <=? 126)) eqn:E8; [right; left; repeat split; lia |].
  destruct (c <? 65536) eqn:E9; [right; right; left; split; [lia | reflexivity] |].
  right; right; right. split; [lia | reflexivity].
Qed.

Lemma escaped_no_low (s : str) (rest : str) :
  wf_str s = true ->
  match s with c :: _ => is_low_surrogate c = false | [] => True end ->
  no_low_escape (flat_map escape_char s ++ 34 :: rest).
Proof.
  intros Hwf Hhead l1 l2 l3 l4 r3 Heq. destruct s as [| c s]; [discriminate |].
  simpl in Hwf. apply andb_true_iff in Hwf as [Hwf _]. apply andb_true_iff in Hwf as [Hv _].
  simpl in Heq.
  destruct (escape_char_cases c Hv)
    as [(e & He & Hne & _) | [(He & _ & Hne & _) | [(Hc & He) | (Hc & He)]]];
    rewrite He in Heq.
  - injection Heq as Heq _. congruence.
  - injection Heq as Heq _. congruence.
  - destruct (hex4_val_hex4 c Hc) as (a & b & c' & d & Hx & Hval). rewrite Hx in Heq.
    injection Heq as <- <- <- <- _. exists c. auto.
  - destruct (surrogates c Hc) as (Hhi & _ & _). cbv zeta in Hhi.
    set (hi := Z.lor 55296 (Z.land (Z.shiftr (c - 65536) 10) 1023)) in *.
    destruct (hex4_val_hex4 hi ltac:(lia)) as (a & b & c' & d & Hx & Hval).
    rewrite Hx in Heq. injection Heq as <- <- <- <- _. eexists. split; [exact Hval |].
    unfold is_low_surrogate. lia.
Qed.

Lemma scanstring_char (c : Z) (tl : str) :
  valid_char c = true ->
  (is_high_surrogate c = true -> no_low_escape tl) ->
  scanstring (escape_char c ++ tl) = prepend c (scanstring tl).
Proof.
  intros Hv Hno.
  destruct (escape_char_cases c Hv)
    as [(e & He & Hne & Hu) | [(He & H1 & H2 & H3) | [(Hc & He) | (Hc & He)]]]; rewrite He.
  - simpl app. rewrite scanstring_escape, Hu by exact Hne. reflexivity.
  - simpl app. apply scanstring_plain; assumption.
  - destruct (hex4_val_hex4 c Hc) as (a & b & c' & d & Hx & Hval). rewrite Hx. simpl app.
    apply scanstring_u_alone; assumption.
  - destruct (surrogates c Hc) as (Hhi & Hlo & Hj). cbv zeta in *.
    set (hi := Z.lor 55296 (Z.land (Z.shiftr (c - 65536) 10) 1023)) in *.
    set (lo := Z.lor 56320 (Z.land (c - 65536) 1023)) in *.
    destruct (hex4_val_hex4 hi ltac:(lia)) as (a & b & c' & d & Hx & Hval).
    destruct (hex4_val_hex4 lo ltac:(lia)) as (a' & b' & c'' & d' & Hx' & Hval').
    rewrite Hx, Hx'. simpl app. rewrite scanstring_u, Hval.
    assert (is_high_surrogate hi = true) as -> by (unfold is_high_surrogate; lia).
    simpl. rewrite Hval'.
    assert (is_low_surrogate lo = true) as -> by (unfold is_low_surrogate; lia).
    rewrite Hj. reflexivity.
Qed.

Lemma scanstring_escaped (s rest : str) :
  wf_str s = true ->
  scanstring (flat_map escape_char s ++ 34 :: rest) = Some (s, rest).
Proof.
  induction s as [| c s IH]; intros Hwf.
  - simpl. reflexivity.
  - simpl in Hwf. apply andb_true_iff in Hwf as [Hwf Hs].
    apply andb_true_iff in Hwf as [Hv Hpair]. apply negb_true_iff in Hpair.
    simpl flat_map. rewrite <- app_assoc. rewrite scanstring_char.
    + rewrite IH by exact Hs. reflexivity.
    + exact Hv.
    + intros Hhi. rewrite Hhi in Hpair. simpl in Hpair. apply escaped_no_low; [exact Hs |].
      destruct s; [exact I | exact Hpair].
Qed.

Lemma scan_dumps_str `{PythonRuntime} (s rest : str) (fuel : nat) :
  wf_str s = true -> scan_once (S fuel) (dumps_str s ++ rest) = Ok (JStr s, rest).
Proof.
  intros Hwf. unfold dumps_str. simpl. rewrite <- app_assoc. simpl.
  rewrite scanstring_escaped by exact Hwf. reflexivity.
Qed.

(** ** The scanner, one step at a time *)

Section Steps.
Context `{PythonRuntime}.

Lemma scan_once_step (fuel : nat) (c : Z) (s : str) :
  scan_once (S fuel) (c :: s) =
  if c =? 34 then
    match scanstring s with
    | Some (t, rest) => Ok (JStr t, rest)
    | None => Raise JSONDecodeError
    end
  else if c =? 123 then
    match skip_ws s with
    | c' :: r' =>
        if c' =? 125 then Ok (JDict [], r')
        else
          match scan_members fuel (c' :: r') with
          | Ok (kvs, rest) => Ok (JDict (dict_of_pairs kvs), rest)
          | Raise e => Raise e
          end
    | [] => Raise JSONDecodeError
    end
  else if c =? 91 then
    match skip_ws s with
    | c' :: r' =>
        if c' =? 93 then Ok (JList [], r')
        else
          match scan_items fuel (c' :: r') with
          | Ok (vs, rest) => Ok (JList vs, rest)
          | Raise e => Raise e
          end
    | [] => Raise JSONDecodeError
    end
  else scan_atom (c :: s).
Proof. reflexivity. Qed.

Lemma scan_items_step (fuel : nat) (s : str) :
  scan_items (S fuel) s =
  match scan_once fuel s with
  | Raise e => Raise e
  | Ok (v, r) =>
      match skip_ws r with
      | c :: r' =>
          if c =? 93 then Ok ([v], r')
          else if c =? 44 then
            match scan_items fuel (skip_ws r') with
            | Ok (vs, rest) => Ok (v :: vs, rest)
            | Raise e => Raise e
            end
          else Raise JSONDecodeError
      | [] => Raise JSONDecodeError
      end
  end.
Proof. reflexivity. Qed.

Lemma scan_members_step (fuel : nat) (c : Z) (s : str) :
  scan_members (S fuel) (c :: s) =
  if c =? 34 then
    match scanstring s with
    | None => Raise JSONDecodeError
    | Some (k, r1) =>
        match skip_ws r1 with
        | c1 :: r2 =>
            if c1 =? 58 then
              match scan_once fuel (skip_ws r2) with
              | Raise e => Raise e
              | Ok (v, r3) =>
                  match skip_ws r3 with
                  | c2 :: r4 =>
                      if c2 =? 125 then Ok ([(k, v)], r4)
                      else if c2 =? 44 then
                        match scan_members fuel (skip_ws r4) with
                        | Ok (kvs, rest) => Ok ((k, v) :: kvs, rest)
                        | Raise e => Raise e
                        end
                      else Raise JSONDecodeError
                  | [] => Raise JSONDecodeError
                  end
              end
            else Raise JSONDecodeError
        | [] => Raise JSONDecodeError
        end
    end
  else Raise JSONDecodeError.
Proof. reflexivity. Qed.

End Steps.

(** ** Fuel *)

Section Fuel.
Context `{PythonRuntime}.
#[local] Arguments Z.eqb : simpl never.
#[local] Arguments Z.leb : simpl never.
#[local] Arguments Z.ltb : simpl never.

Lemma length_skip_ws (s : str) : (length (skip_ws s) <= length s)%nat.
Proof.
  induction s as [| c s IH]; simpl; [lia |]. destruct (is_ws c); simpl; lia.
Qed.

Lemma prepend_Some (c : Z) (o : option (str * str)) (t r : str) :
  prepend c o = Some (t, r) -> exists t', o = Some (t', r).
Proof. destruct o as [[t' r'] |]; simpl; [intros [= _ <-]; eauto | discriminate]. Qed.

Lemma scanstring_shorter (n : nat) (s t r : str) :
  (length s <= n)%nat -> scanstring s = Some (t, r) -> (length r <= length s)%nat.
Proof.
  revert s t r. induction n as [| n IH]; intros s t r Hn Hs.
  - destruct s; [discriminate | simpl in Hn; lia].
  - destruct s as [| c s]; [discriminate |]. simpl in Hn. simpl in Hs.
    destruct (c =? 34); [injection Hs as _ <-; simpl; lia |].
    destruct (c =? 92).
    + destruct s as [| e r1]; [discriminate |].
      destruct (e =? 117).
      * destruct r1 as [| h1 [| h2 [| h3 [| h4 r2]]]]; try discriminate.
        destruct (hex4_val h1 h2 h3 h4) as [hi |]; [| discriminate].
        assert (forall t0, prepend hi (scanstring r2) = Some (t0, r) ->
                  (length r <= length (c :: e :: h1 :: h2 :: h3 :: h4 :: r2))%nat) as Hlone.
        { intros t0 Hp. apply prepend_Some in Hp as [t' Hp].
          apply IH in Hp; simpl in *; lia. }
        destruct r2 as [| b1 [| b2 [| l1 [| l2 [| l3 [| l4 r3]]]]]]; try (eapply Hlone; exact Hs).
        destruct (is_high_surrogate hi && (b1 =? 92) && (b2 =? 117));
          [| eapply Hlone; exact Hs].
        destruct (hex4_val l1 l2 l3 l4) as [lo |]; [| discriminate].
        destruct (is_low_surrogate lo); [| eapply Hlone; exact Hs].
        apply prepend_Some in Hs as [t' Hp]. apply IH in Hp; simpl in *; lia.
      * destruct (unescape e); [| discriminate].
        apply prepend_Some in Hs as [t' Hp]. apply IH in Hp; simpl in *; lia.
    + destruct (c <? 32); [discriminate |].
      apply prepend_Some in Hs as [t' Hp]. apply IH in Hp; simpl in *; lia.
Qed.

Lemma span_digits_shorter (s ds r : str) :
  span_digits s = (ds, r) -> (length r <= length s)%nat.
Proof.
  revert ds r. induction s as [| c s IH]; intros ds r; simpl.
  - intros [= _ <-]. simpl. lia.
  - destruct (is_digit c).
    + destruct (span_digits s) as [ds' r'] eqn:E. intros [= _ <-].
      specialize (IH _ _ eq_refl). lia.
    + intros [= _ <-]. simpl. lia.
Qed.

Lemma scan_number_shorter (s : str) (v : json) (r : str) :
  scan_number s = Ok (v, r) -> (length r <= length s)%nat.
Proof.
  unfold scan_number.
  destruct (scan_integer s) as [[i r0] |] eqn:Ei; [| discriminate].
  assert (length r0 <= length s)%nat as H0.
  { unfold scan_integer in Ei.
    assert (forall sign s1, (length s1 <= length s)%nat ->
              match s1 with
              | [] => None
              | d :: r =>
                  if d =? 48 then Some (sign ++ [48], r)
                  else if is_digit d
                       then let (ds, rest) := span_digits r in Some (sign ++ d :: ds, rest)
                       else None
              end = Some (i, r0) -> (length r0 <= length s)%nat) as Hbody.
    { intros sign s1 Hl Hm. destruct s1 as [| d r1]; [discriminate |]. simpl in Hl.
      destruct (d =? 48); [injection Hm as _ <-; lia |].
      destruct (is_digit d); [| discriminate].
      destruct (span_digits r1) as [ds rest] eqn:Es. injection Hm as _ <-.
      apply span_digits_shorter in Es. lia. }
    destruct s as [| c s']; [discriminate |].
    destruct (c =? 45); cbv beta iota in Ei.
    - apply (Hbody [45] s'); [simpl; lia | exact Ei].
    - apply (Hbody [] (c :: s')); [simpl; lia | exact Ei]. }
  destruct (scan_frac r0) as [f r1] eqn:Ef.
  assert (length r1 <= length r0)%nat as H1.
  { unfold scan_frac in Ef. destruct r0 as [| c r0']; [injection Ef as _ <-; lia |].
    destruct (c =? 46); [| injection Ef as _ <-; lia].
    destruct (span_digits r0') as [ds rest] eqn:Es. apply span_digits_shorter in Es.
    destruct ds; injection Ef as _ <-; simpl; lia. }
  destruct (scan_exp r1) as [e r2] eqn:Ee.
  assert (length r2 <= length r1)%nat as H2.
  { unfold scan_exp in Ee. destruct r1 as [| c r1']; [injection Ee as _ <-; lia |].
    destruct ((c =? 101) || (c =? 69)); [| injection Ee as _ <-; lia].
    destruct (match r1' with
              | [] => ([], r1')
              | c0 :: r' => if (c0 =? 43) || (c0 =? 45) then ([c0], r') else ([], r1')
              end) as [sg r3] eqn:Esg.
    assert (length r3 <= length r1')%nat as H3.
    { destruct r1' as [| c0 r']; [injection Esg as _ <-; lia |].
      destruct ((c0 =? 43) || (c0 =? 45)); injection Esg as _ <-; simpl; lia. }
    destruct (span_digits r3) as [ds rest] eqn:Es. apply span_digits_shorter in Es.
    destruct ds; injection Ee as _ <-; simpl; lia. }
  destruct (f ++ e); [destruct (too_long i); [discriminate |] |]; intros [= _ <-]; lia.
Qed.

Lemma scan_word_shorter (w : str) (v v' : json) (s r : str) :
  scan_word w v s = Some (v', r) -> (length r <= length s)%nat.
Proof.
  unfold scan_word. destruct (starts_with w s); [| discriminate].
  intros [= _ <-]. rewrite length_skipn. lia.
Qed.

Lemma scan_atom_shorter (s : str) (v : json) (r : str) :
  scan_atom s = Ok (v, r) -> (length r <= length s)%nat.
Proof.
  unfold scan_atom.
  destruct (scan_word (u "null") JNull s) as [[v1 r1] |] eqn:E1;
    [intros [= _ <-]; eapply scan_word_shorter; exact E1 |].
  destruct (scan_word (u "true") (JBool true) s) as [[v2 r2] |] eqn:E2;
    [intros [= _ <-]; eapply scan_word_shorter; exact E2 |].
  destruct (scan_word (u "false") (JBool false) s) as [[v3 r3] |] eqn:E3;
    [intros [= _ <-]; eapply scan_word_shorter; exact E3 |].
  destruct (scan_number s) as [[v4 r4] | ex] eqn:E4;
    [intros [= _ <-]; eapply scan_number_shorter; exact E4 |].
  intros Hs.
  assert (match scan_word (u "NaN") (JFloat (u "NaN")) s with
          | Some a => Ok a
          | None =>
              match scan_word (u "Infinity") (JFloat (u "Infinity")) s with
              | Some a => Ok a
              | None =>
                  match scan_word (u "-Infinity") (JFloat (u "-Infinity")) s with
                  | Some a => Ok a
                  | None => Raise JSONDecodeError
                  end
              end
          end = Ok (v, r)) as Hw by (destruct ex; try exact Hs; discriminate).
  clear Hs. revert Hw.
  destruct (scan_word (u "NaN") (JFloat (u "NaN")) s) as [[v5 r5] |] eqn:E5;
    [intros [= _ <-]; eapply scan_word_shorter; exact E5 |].
  destruct (scan_word (u "Infinity") (JFloat (u "Infinity")) s) as [[v6 r6] |] eqn:E6;
    [intros [= _ <-]; eapply scan_word_shorter; exact E6 |].
  destruct (scan_word (u "-Infinity") (JFloat (u "-Infinity")) s) as [[v7 r7] |] eqn:E7;
    [intros [= _ <-]; eapply scan_word_shorter; exact E7 | discriminate].
Qed.

Lemma skip_ws_cons (s : str) (c : Z) (r : str) :
  skip_ws s = c :: r -> (S (length r) <= length s)%nat.
Proof. intros Hs. pose proof (length_skip_ws s) as Hl. rewrite Hs in Hl. simpl in Hl. lia. Qed.

(** What is left after a value is no longer than what was there. *)
Lemma scan_shorter (fuel : nat) :
  (forall s v r, scan_once fuel s = Ok (v, r) -> (length r <= length s)%nat) /\
  (forall s vs r, scan_items fuel s = Ok (vs, r) -> (length r <= length s)%nat) /\
  (forall s kvs r, scan_members fuel s = Ok (kvs, r) -> (length r <= length s)%nat).
Proof.
  induction fuel as [| fuel (IHo & IHi & IHm)]; [repeat split; discriminate |].
  split; [| split].
  - intros s v r. destruct s as [| c s]; [discriminate |]. rewrite scan_once_step.
    destruct (c =? 34).
    { destruct (scanstring s) as [[t rest] |] eqn:Es; [| discriminate].
      intros [= _ <-]. apply (scanstring_shorter (length s)) in Es; simpl; lia. }
    destruct (c =? 123).
    { destruct (skip_ws s) as [| c' r'] eqn:Ew; [discriminate |]. apply skip_ws_cons in Ew.
      destruct (c' =? 125); [intros [= _ <-]; simpl; lia |].
      destruct (scan_members fuel (c' :: r')) as [[kvs rest] |] eqn:Em; [| discriminate].
      intros [= _ <-]. apply IHm in Em. simpl in *. lia. }
    destruct (c =? 91).
    { destruct (skip_ws s) as [| c' r'] eqn:Ew; [discriminate |]. apply skip_ws_cons in Ew.
      destruct (c' =? 93); [intros [= _ <-]; simpl; lia |].
      destruct (scan_items fuel (c' :: r')) as [[vs rest] |] eqn:Em; [| discriminate].
      intros [= _ <-]. apply IHi in Em. simpl in *. lia. }
    apply scan_atom_shorter.
  - intros s vs r. rewrite scan_items_step.
    destruct (scan_once fuel s) as [[v r0] |] eqn:Eo; [| discriminate]. apply IHo in Eo.
    destruct (skip_ws r0) as [| c r'] eqn:Ew; [discriminate |]. apply skip_ws_cons in Ew.
    destruct (c =? 93); [intros [= _ <-]; lia |].
    destruct (c =? 44); [| discriminate].
    destruct (scan_items fuel (skip_ws r')) as [[vs' rest] |] eqn:Ei; [| discriminate].
    intros [= _ <-]. apply IHi in Ei. pose proof (length_skip_ws r'). lia.
  - intros s kvs r. destruct s as [| c s]; [discriminate |]. rewrite scan_members_step.
    destruct (c =? 34); [| discriminate].
    destruct (scanstring s) as [[k r1] |] eqn:Es; [| discriminate].
    apply (scanstring_shorter (length s)) in Es; [| lia].
    destruct (skip_ws r1) as [| c1 r2] eqn:Ew1; [discriminate |]. apply skip_ws_cons in Ew1.
    destruct (c1 =? 58); [| discriminate].
    destruct (scan_once fuel (skip_ws r2)) as [[v r3] |] eqn:Eo; [| discriminate].
    apply IHo in Eo. pose proof (length_skip_ws r2).
    destruct (skip_ws r3) as [| c2 r4] eqn:Ew3; [discriminate |]. apply skip_ws_cons in Ew3.
    destruct (c2 =? 125); [intros [= _ <-]; simpl; lia |].
    destruct (c2 =? 44); [| discriminate].
    destruct (scan_members fuel (skip_ws r4)) as [[kvs' rest] |] eqn:Em; [| discriminate].
    intros [= _ <-]. apply IHm in Em. pose proof (length_skip_ws r4). simpl. lia.
Qed.

(** Above twice the length of the text, one more unit of fuel changes
    nothing. *)
Lemma scan_fuel_step (fuel : nat) :
  (forall s, (2 * length s + 1 <= fuel)%nat -> scan_once (S fuel) s = scan_once fuel s) /\
  (forall s, (2 * length s + 2 <= fuel)%nat -> scan_items (S fuel) s = scan_items fuel s) /\
  (forall s, (2 * length s + 2 <= fuel)%nat -> scan_members (S fuel) s = scan_members fuel s).
Proof.
  induction fuel as [| fuel (IHo & IHi & IHm)]; [repeat split; intros s Hs; lia |].
  destruct (scan_shorter fuel) as (Sho & Shi & Shm).
  split; [| split].
  - intros s Hs. destruct s as [| c s]; [reflexivity |]. simpl length in Hs.
    rewrite !scan_once_step.
    destruct (c =? 34); [reflexivity |].
    destruct (c =? 123).
    { destruct (skip_ws s) as [| c' r'] eqn:Ew; [reflexivity |]. apply skip_ws_cons in Ew.
      destruct (c' =? 125); [reflexivity |]. rewrite IHm by (simpl; lia). reflexivity. }
    destruct (c =? 91); [| reflexivity].
    destruct (skip_ws s) as [| c' r'] eqn:Ew; [reflexivity |]. apply skip_ws_cons in Ew.
    destruct (c' =? 93); [reflexivity |]. rewrite IHi by (simpl; lia). reflexivity.
  - intros s Hs. rewrite !scan_items_step. rewrite IHo by lia.
    destruct (scan_once fuel s) as [[v r] |] eqn:Eo; [| reflexivity]. apply Sho in Eo.
    destruct (skip_ws r) as [| c r'] eqn:Ew; [reflexivity |]. apply skip_ws_cons in Ew.
    destruct (c =? 93); [reflexivity |]. destruct (c =? 44); [| reflexivity].
    pose proof (length_skip_ws r'). rewrite IHi by lia. reflexivity.
  - intros s Hs. destruct s as [| c s]; [reflexivity |]. simpl length in Hs.
    rewrite !scan_members_step.
    destruct (c =? 34); [| reflexivity].
    destruct (scanstring s) as [[k r1] |] eqn:Es; [| reflexivity].
    apply (scanstring_shorter (length s)) in Es; [| lia].
    destruct (skip_ws r1) as [| c1 r2] eqn:Ew1; [reflexivity |]. apply skip_ws_cons in Ew1.
    destruct (c1 =? 58); [| reflexivity].
    pose proof (length_skip_ws r2). rewrite IHo by lia.
    destruct (scan_once fuel (skip_ws r2)) as [[v r3] |] eqn:Eo; [| reflexivity].
    apply Sho in Eo.
    destruct (skip_ws r3) as [| c2 r4] eqn:Ew3; [reflexivity |]. apply skip_ws_cons in Ew3.
    destruct (c2 =? 125); [reflexivity |]. destruct (c2 =? 44); [| reflexivity].
    pose proof (length_skip_ws r4). rewrite IHm by lia. reflexivity.
Qed.

(** The fuel [loads] gives is never what makes it fail: with any more, the
    outcome is the same. *)
Lemma loads_fuel (s : str) (more : nat) :
  scan_once (2 * length s + 2 + more) (skip_ws s) = scan_once (2 * length s + 2) (skip_ws s).
Proof.
  induction more as [| more IH]; [f_equal; lia |].
  rewrite <- IH. replace (2 * length s + 2 + S more)%nat with (S (2 * length s + 2 + more)) by lia.
  apply (scan_fuel_step (2 * length s + 2 + more)). pose proof (length_skip_ws s). lia.
Qed.

Lemma scan_number_raises (s : str) (e : exn) : scan_number s = Raise e -> scan_error e.
Proof.
  unfold scan_number, scan_error.
  destruct (scan_integer s) as [[i r] |]; [| intros [= <-]; auto].
  destruct (scan_frac r) as [f r1]. destruct (scan_exp r1) as [x r2].
  destruct (f ++ x); [| discriminate].
  destruct (too_long i); [intros [= <-]; auto | discriminate].
Qed.

Lemma scan_atom_raises (s : str) (e : exn) : scan_atom s = Raise e -> scan_error e.
Proof.
  unfold scan_atom, scan_error.
  destruct (scan_word (u "null") JNull s); [discriminate |].
  destruct (scan_word (u "true") (JBool true) s); [discriminate |].
  destruct (scan_word (u "false") (JBool false) s); [discriminate |].
  destruct (scan_number s) as [a | ex]; [discriminate |].
  destruct ex; try (intros [= <-]; auto; fail);
    destruct (scan_word (u "NaN") (JFloat (u "NaN")) s); try discriminate;
    destruct (scan_word (u "Infinity") (JFloat (u "Infinity")) s); try discriminate;
    destruct (scan_word (u "-Infinity") (JFloat (u "-Infinity")) s); try discriminate;
    intros [= <-]; auto.
Qed.

Lemma scan_raises (fuel : nat) :
  (forall s e, scan_once fuel s = Raise e -> scan_error e) /\
  (forall s e, scan_items fuel s = Raise e -> scan_error e) /\
  (forall s e, scan_members fuel s = Raise e -> scan_error e).
Proof.
  assert (forall e, Raise (A := json * str) JSONDecodeError = Raise e -> scan_error e) as Hj1
    by (intros e [= <-]; left; reflexivity).
  assert (forall e, Raise (A := list json * str) JSONDecodeError = Raise e -> scan_error e) as Hj2
    by (intros e [= <-]; left; reflexivity).
  assert (forall e, Raise (A := list (str * json) * str) JSONDecodeError = Raise e ->
            scan_error e) as Hj3
    by (intros e [= <-]; left; reflexivity).
  induction fuel as [| fuel (IHo & IHi & IHm)]; [repeat split; intros s e; auto |].
  split; [| split].
  - intros s e. destruct s as [| c s]; [apply Hj1 |]. rewrite scan_once_step.
    destruct (c =? 34).
    { destruct (scanstring s) as [[t rest] |]; [discriminate | apply Hj1]. }
    destruct (c =? 123).
    { destruct (skip_ws s) as [| c' r']; [apply Hj1 |].
      destruct (c' =? 125); [discriminate |].
      destruct (scan_members fuel (c' :: r')) as [[kvs rest] | ex] eqn:Em; [discriminate |].
      intros [= <-]. eapply IHm. exact Em. }
    destruct (c =? 91).
    { destruct (skip_ws s) as [| c' r']; [apply Hj1 |].
      destruct (c' =? 93); [discriminate |].
      destruct (scan_items fuel (c' :: r')) as [[vs rest] | ex] eqn:Em; [discriminate |].
      intros [= <-]. eapply IHi. exact Em. }
    apply scan_atom_raises.
  - intros s e. rewrite scan_items_step.
    destruct (scan_once fuel s) as [[v r0] | ex] eqn:Eo;
      [| intros [= <-]; eapply IHo; exact Eo].
    destruct (skip_ws r0) as [| c r']; [apply Hj2 |].
    destruct (c =? 93); [discriminate |].
    destruct (c =? 44); [| apply Hj2].
    destruct (scan_items fuel (skip_ws r')) as [[vs' rest] | ex] eqn:Ei; [discriminate |].
    intros [= <-]. eapply IHi. exact Ei.
  - intros s e. destruct s as [| c s]; [apply Hj3 |]. rewrite scan_members_step.
    destruct (c =? 34); [| apply Hj3].
    destruct (scanstring s) as [[k r1] |]; [| apply Hj3].
    destruct (skip_ws r1) as [| c1 r2]; [apply Hj3 |].
    destruct (c1 =? 58); [| apply Hj3].
    destruct (scan_once fuel (skip_ws r2)) as [[v r3] | ex] eqn:Eo;
      [| intros [= <-]; eapply IHo; exact Eo].
    destruct (skip_ws r3) as [| c2 r4]; [apply Hj3 |].
    destruct (c2 =? 125); [discriminate |].
    destruct (c2 =? 44); [| apply Hj3].
    destruct (scan_members fuel (skip_ws r4)) as [[kvs' rest] | ex] eqn:Em; [discriminate |].
    intros [= <-]. eapply IHm. exact Em.
Qed.

Lemma loads_raises (s : str) (e : exn) :
  loads s = Raise e -> e = JSONDecodeError \/ e = ValueError.
Proof.
  unfold loads.
  destruct (scan_once (2 * length s + 2) (skip_ws s)) as [[v rest] | ex] eqn:Es.
  - destruct (skip_ws rest); [discriminate | intros [= <-]; auto].
  - intros [= <-]. exact (proj1 (scan_raises _) _ _ Es).
Qed.

End Fuel.

(** ** Documents *)

Fixpoint json_ind' (P : json -> Prop)
    (HNull : P JNull) (HBool : forall b, P (JBool b)) (HInt : forall n, P (JInt n))
    (HFloat : forall lit, P (JFloat lit)) (HStr : forall s, P (JStr s))
    (HList : forall items, Forall P items -> P (JList items))
    (HDict : forall pairs, Forall (fun kv => P (snd kv)) pairs -> P (JDict pairs))
    (v : json) : P v :=
  match v with
  | JNull => HNull
  | JBool b => HBool b
  | JInt n => HInt n
  | JFloat lit => HFloat lit
  | JStr s => HStr s
  | JList items =>
      HList items
        ((fix all (l : list json) : Forall P l :=
            match l with
            | [] => @List.Forall_nil _ P
            | x :: r =>
                @List.Forall_cons _ P x r
                  (json_ind' P HNull HBool HInt HFloat HStr HList HDict x) (all r)
            end) items)
  | JDict pairs =>
      HDict pairs
        ((fix all (l : list (str * json)) : Forall (fun kv => P (snd kv)) l :=
            match l with
            | [] => @List.Forall_nil _ _
            | kv :: r =>
                @List.Forall_cons _ (fun kv => P (snd kv)) kv r
                  (json_ind' P HNull HBool HInt HFloat HStr HList HDict (snd kv)) (all r)
            end) pairs)
  end.

Lemma dict_set_fresh {A : Type} (k : str) (v : A) (d : list (str * A)) :
  existsb (str_eqb k) (map fst d) = false -> dict_set k v d = d ++ [(k, v)].
Proof.
  induction d as [| [k' v'] d IH]; simpl; [reflexivity |].
  intros Hk. apply orb_false_iff in Hk as [Hk Hd]. rewrite Hk, IH by exact Hd. reflexivity.
Qed.

Lemma existsb_app_false {A : Type} (f : A -> bool) (a b : list A) :
  existsb f (a ++ b) = false <-> existsb f a = false /\ existsb f b = false.
Proof. rewrite existsb_app. apply orb_false_iff. Qed.

Lemma str_eqb_sym (a b : str) : str_eqb a b = str_eqb b a.
Proof.
  revert b. induction a as [| x a IH]; intros [| y b]; simpl; try reflexivity.
  rewrite Z.eqb_sym, IH. reflexivity.
Qed.

Lemma dict_of_pairs_distinct {A : Type} (l acc : list (str * A)) :
  distinct (map fst l) = true ->
  forallb (fun k => negb (existsb (str_eqb k) (map fst acc))) (map fst l) = true ->
  fold_left (fun d kv => dict_set (fst kv) (snd kv) d) l acc = acc ++ l.
Proof.
  revert acc. induction l as [| [k v] l IH]; intros acc Hd Hf; simpl in *.
  - symmetry. apply app_nil_r.
  - apply andb_true_iff in Hd as [Hk Hd]. apply andb_true_iff in Hf as [Hka Hf].
    apply negb_true_iff in Hk, Hka.
    rewrite dict_set_fresh by exact Hka. rewrite IH.
    + rewrite <- app_assoc. reflexivity.
    + exact Hd.
    + apply forallb_forall. intros k' Hin. rewrite map_app. simpl.
      apply negb_true_iff. apply existsb_app_false. split.
      * rewrite forallb_forall in Hf. apply negb_true_iff. apply Hf. exact Hin.
      * simpl. rewrite orb_false_r.
        destruct (str_eqb k' k) eqn:E; [| reflexivity].
        rewrite str_eqb_sym in E.
        assert (existsb (str_eqb k) (map fst l) = true) as Hex
          by (apply existsb_exists; exists k'; split; [exact Hin | exact E]).
        congruence.
Qed.

Lemma dict_of_pairs_id {A : Type} (l : list (str * A)) :
  distinct (map fst l) = true -> dict_of_pairs l = l.
Proof.
  intros Hd. unfold dict_of_pairs. rewrite dict_of_pairs_distinct; [reflexivity | exact Hd |].
  apply forallb_forall. intros k _. reflexivity.
Qed.

(** Spell out the text literals of the goal. *)
Ltac spell :=
  repeat match goal with
         | |- context [u ?s] => let x := eval vm_compute in (u s) in change (u s) with x
         end.

Section RoundTrip.
Context `{PythonRuntime}.
#[local] Arguments Z.eqb : simpl never.
#[local] Arguments Z.leb : simpl never.
#[local] Arguments Z.ltb : simpl never.

Lemma dumps_head (v : json) :
  wf v = true -> exists c r, dumps v = c :: r /\ opener c.
Proof.
  unfold opener. destruct v as [| b | n | lit | s | l | d]; simpl; intros Hwf.
  - exists 110, [117; 108; 108]. split; [reflexivity | lia].
  - destruct b; [exists 116, [114; 117; 101] | exists 102, [97; 108; 115; 101]];
      (split; [reflexivity | lia]).
  - destruct (str_of_int_head n) as (c & r & -> & Hc). exists c, r. split; [reflexivity | lia].
  - discriminate.
  - exists 34. eexists. split; [reflexivity | lia].
  - exists 91. eexists. split; [reflexivity | lia].
  - exists 123. eexists. split; [reflexivity | lia].
Qed.

Lemma opener_not_space (c : Z) : opener c -> is_ws c = false /\ isspace c = false.
Proof. unfold opener, is_ws, isspace. intros Hc. split; lia. Qed.

Lemma dumps_last (v : json) :
  wf v = true -> exists r c, dumps v = r ++ [c] /\ isspace c = false.
Proof.
  destruct v as [| b | n | lit | s | l | d]; simpl; intros Hwf; try discriminate.
  - exists [110; 117; 108], 108. auto.
  - destruct b; [exists [116; 114; 117], 101 | exists [102; 97; 108; 115], 101]; auto.
  - destruct (str_of_int_last n) as (r & c & -> & Hc). exists r, c. split; [reflexivity |].
    unfold isspace. lia.
  - unfold dumps_str. eexists (34 :: _), 34. split; [reflexivity | reflexivity].
  - eexists (91 :: _), 93. split; [reflexivity | reflexivity].
  - eexists (123 :: _), 125. split; [reflexivity | reflexivity].
Qed.

Lemma skip_ws_opener (c : Z) (r : str) : is_ws c = false -> skip_ws (c :: r) = c :: r.
Proof. intros Hc. simpl. rewrite Hc. reflexivity. Qed.

Lemma scan_once_atom (fuel : nat) (c : Z) (r : str) :
  c <> 34 -> c <> 123 -> c <> 91 -> scan_once (S fuel) (c :: r) = scan_atom (c :: r).
Proof.
  intros H1 H2 H3. simpl.
  destruct (c =? 34) eqn:E1; [lia |]. destruct (c =? 123) eqn:E2; [lia |].
  destruct (c =? 91) eqn:E3; [lia |]. reflexivity.
Qed.

Lemma scan_atom_number (c : Z) (r : str) (a : json * str) :
  c <> 110 -> c <> 116 -> c <> 102 ->
  scan_number (c :: r) = Ok a -> scan_atom (c :: r) = Ok a.
Proof.
  intros H1 H2 H3 Hn. unfold scan_atom, scan_word. spell. simpl.
  destruct (110 =? c) eqn:E1; [lia |]. destruct (116 =? c) eqn:E2; [lia |].
  destruct (102 =? c) eqn:E3; [lia |]. simpl. rewrite Hn. reflexivity.
Qed.

Lemma skip_ws_space (r : str) : skip_ws (32 :: r) = skip_ws r.
Proof. reflexivity. Qed.

Lemma scan_members_key (fuel : nat) (r : str) :
  scan_members (S fuel) (34 :: r) =
  match scanstring r with
  | None => Raise JSONDecodeError
  | Some (k, r1) =>
      match skip_ws r1 with
      | c1 :: r2 =>
          if c1 =? 58 then
            match scan_once fuel (skip_ws r2) with
            | Raise e => Raise e
            | Ok (v, r3) =>
                match skip_ws r3 with
                | c2 :: r4 =>
                    if c2 =? 125 then Ok ([(k, v)], r4)
                    else if c2 =? 44 then
                      match scan_members fuel (skip_ws r4) with
                      | Ok (kvs, rest) => Ok ((k, v) :: kvs, rest)
                      | Raise e => Raise e
                      end
                    else Raise JSONDecodeError
                | [] => Raise JSONDecodeError
                end
            end
          else Raise JSONDecodeError
      | [] => Raise JSONDecodeError
      end
  end.
Proof. reflexivity. Qed.

Lemma scan_once_list (fuel : nat) (r : str) :
  scan_once (S fuel) (91 :: r) =
  match skip_ws r with
  | c' :: r' =>
      if c' =? 93 then Ok (JList [], r')
      else
        match scan_items fuel (c' :: r') with
        | Ok (vs, rest) => Ok (JList vs, rest)
        | Raise e => Raise e
        end
  | [] => Raise JSONDecodeError
  end.
Proof. reflexivity. Qed.

Lemma scan_once_dict (fuel : nat) (r : str) :
  scan_once (S fuel) (123 :: r) =
  match skip_ws r with
  | c' :: r' =>
      if c' =? 125 then Ok (JDict [], r')
      else
        match scan_members fuel (c' :: r') with
        | Ok (kvs, rest) => Ok (JDict (dict_of_pairs kvs), rest)
        | Raise e => Raise e
        end
  | [] => Raise JSONDecodeError
  end.
Proof. reflexivity. Qed.

Lemma join_two (sep x : str) (y : str) (ys : list str) :
  join sep (x :: y :: ys) = x ++ sep ++ join sep (y :: ys).
Proof. reflexivity. Qed.

Lemma join_one (sep x : str) : join sep [x] = x.
Proof. reflexivity. Qed.

Lemma join_head (sep : str) (c : Z) (r : str) (xs : list str) :
  exists t, join sep ((c :: r) :: xs) = c :: t.
Proof. destruct xs; simpl; eauto. Qed.

Lemma length_join_two (sep x y : str) (ys : list str) :
  length (join sep (x :: y :: ys)) = (length x + length sep + length (join sep (y :: ys)))%nat.
Proof. rewrite join_two, !length_app. lia. Qed.

Lemma scan_items_dumps (l : list json) :
  l <> [] -> Forall (fun x => wf x = true) l -> Forall scans l ->
  forall fuel rest, (length (join (u ", ") (map dumps l)) + 1 <= fuel)%nat ->
    scan_items fuel (join (u ", ") (map dumps l) ++ 93 :: rest) = Ok (l, rest).
Proof.
  intros Hne Hwf Hsc. induction Hsc as [| x l Hx Hl IH]; [congruence |].
  intros fuel rest Hfuel. inversion Hwf as [| ? ? Hwx Hwl]; subst.
  destruct fuel as [| fuel]; [lia |]. rewrite scan_items_step.
  destruct l as [| y l].
  - change (map dumps [x]) with [dumps x] in *. rewrite join_one in *.
    rewrite Hx by (lia || reflexivity).
    rewrite skip_ws_opener by reflexivity. reflexivity.
  - change (map dumps (x :: y :: l)) with (dumps x :: dumps y :: map dumps l) in *.
    rewrite length_join_two in Hfuel. change (length (u ", ")) with 2%nat in Hfuel.
    rewrite join_two, <- !app_assoc. change (u ", " ++ ?a) with (44 :: 32 :: a).
    rewrite Hx by (lia || reflexivity).
    rewrite skip_ws_opener by reflexivity.
    change (44 =? 93) with false. change (44 =? 44) with true. cbv iota.
    inversion Hwl as [| ? ? Hwy _]; subst.
    destruct (dumps_head y Hwy) as (c & r & Hy & Hc).
    destruct (opener_not_space c Hc) as [Hws _].
    change (dumps y :: map dumps l) with (map dumps (y :: l)) in *.
    assert (exists t, join (u ", ") (map dumps (y :: l)) = c :: t) as [t Ht]
      by (simpl map; rewrite Hy; apply join_head).
    rewrite skip_ws_space.
    replace (skip_ws (join (u ", ") (map dumps (y :: l)) ++ 93 :: rest))
      with (join (u ", ") (map dumps (y :: l)) ++ 93 :: rest)
      by (rewrite Ht; simpl app; rewrite skip_ws_opener by exact Hws; reflexivity).
    rewrite IH; [reflexivity | discriminate | exact Hwl | lia].
Qed.

Lemma member_head (kv : str * json) : exists t, member kv = 34 :: t.
Proof. unfold member, dumps_str. simpl. eauto. Qed.

Lemma scan_member (k : str) (v : json) (fuel : nat) (more : str) :
  wf_str k = true -> wf v = true ->
  scan_members (S fuel) (member (k, v) ++ more) =
  match scan_once fuel (dumps v ++ more) with
  | Raise e => Raise e
  | Ok (v', r3) =>
      match skip_ws r3 with
      | c2 :: r4 =>
          if c2 =? 125 then Ok ([(k, v')], r4)
          else if c2 =? 44 then
            match scan_members fuel (skip_ws r4) with
            | Ok (kvs, rest') => Ok ((k, v') :: kvs, rest')
            | Raise e => Raise e
            end
          else Raise JSONDecodeError
      | [] => Raise JSONDecodeError
      end
  end.
Proof.
  intros Hwk Hwv. unfold member, dumps_str. cbn [fst snd]. spell.
  rewrite <- !app_assoc. cbn [app]. rewrite <- !app_assoc. cbn [app].
  destruct (dumps_head v Hwv) as (c & r & Hy & Hc).
  destruct (opener_not_space c Hc) as [Hws _].
  rewrite scan_members_key, scanstring_escaped by exact Hwk.
  rewrite skip_ws_opener by reflexivity. change (58 =? 58) with true. cbv iota.
  rewrite skip_ws_space.
  replace (skip_ws (dumps v ++ more)) with (dumps v ++ more)
    by (rewrite Hy; cbn [app]; rewrite skip_ws_opener by exact Hws; reflexivity).
  reflexivity.
Qed.

Lemma length_member (k : str) (v : json) : (length (dumps v) <= length (member (k, v)))%nat.
Proof. unfold member. rewrite !length_app. cbn [snd]. lia. Qed.

Lemma scan_members_dumps (d : list (str * json)) :
  d <> [] -> Forall (fun kv => wf_str (fst kv) = true /\ wf (snd kv) = true) d ->
  Forall (fun kv => scans (snd kv)) d ->
  forall fuel rest, (length (join (u ", ") (map member d)) + 1 <= fuel)%nat ->
    scan_members fuel (join (u ", ") (map member d) ++ 125 :: rest) = Ok (d, rest).
Proof.
  intros Hne Hwf Hsc. induction Hsc as [| [k v] d Hv Hd IH]; [congruence |].
  intros fuel rest Hfuel. inversion Hwf as [| ? ? [Hwk Hwv] Hwd]; subst.
  cbn [fst snd] in Hwk, Hwv, Hv.
  destruct fuel as [| fuel]; [lia |].
  pose proof (length_member k v) as Hlv.
  destruct d as [| kv' d].
  - change (map member [(k, v)]) with [member (k, v)] in *. rewrite join_one in *.
    rewrite scan_member by assumption.
    rewrite Hv by (lia || reflexivity).
    rewrite skip_ws_opener by reflexivity. reflexivity.
  - change (map member ((k, v) :: kv' :: d))
      with (member (k, v) :: member kv' :: map member d) in *.
    rewrite length_join_two in Hfuel. change (length (u ", ")) with 2%nat in Hfuel.
    rewrite join_two, <- !app_assoc. rewrite scan_member by assumption.
    change (u ", " ++ ?a) with (44 :: 32 :: a).
    rewrite Hv by (lia || reflexivity).
    rewrite skip_ws_opener by reflexivity.
    change (44 =? 125) with false. change (44 =? 44) with true. cbv iota.
    destruct (member_head kv') as [t0 Ht0].
    assert (exists t, join (u ", ") (member kv' :: map member d) = 34 :: t) as [t Ht]
      by (rewrite Ht0; apply join_head).
    change (member kv' :: map member d) with (map member (kv' :: d)) in *.
    rewrite skip_ws_space.
    replace (skip_ws (join (u ", ") (map member (kv' :: d)) ++ 125 :: rest))
      with (join (u ", ") (map member (kv' :: d)) ++ 125 :: rest)
      by (rewrite Ht; cbn [app]; rewrite skip_ws_opener by reflexivity; reflexivity).
    rewrite IH; [reflexivity | discriminate | exact Hwd | lia].
Qed.

Lemma dumps_list (l : list json) : dumps (JList l) = 91 :: join (u ", ") (map dumps l) ++ [93].
Proof. reflexivity. Qed.

Lemma dumps_dict (d : list (str * json)) :
  dumps (JDict d) = 123 :: join (u ", ") (map member d) ++ [125].
Proof. reflexivity. Qed.

Lemma scans_all (v : json) : wf v = true -> scans v.
Proof.
  induction v as [| b | n | lit | s | l IH | d IH] using json_ind'; intros Hwf fuel rest Hfuel Hrest.
  - change (length (dumps JNull)) with 4%nat in Hfuel.
    destruct fuel as [| fuel]; [lia | reflexivity].
  - destruct b.
    + change (length (dumps (JBool true))) with 4%nat in Hfuel.
      destruct fuel as [| fuel]; [lia | reflexivity].
    + change (length (dumps (JBool false))) with 5%nat in Hfuel.
      destruct fuel as [| fuel]; [lia | reflexivity].
  - change (dumps (JInt n)) with (str_of_int n) in *.
    change (wf (JInt n)) with (negb (too_long (str_of_int n))) in Hwf.
    apply negb_true_iff in Hwf.
    destruct (str_of_int_head n) as (c & r & Hn & Hc).
    destruct fuel as [| fuel]; [rewrite Hn in Hfuel; simpl in Hfuel; lia |].
    pose proof (scan_number_int n rest Hwf Hrest) as Hnum. clear Hwf.
    rewrite Hn in *. cbn [app] in *.
    rewrite scan_once_atom by lia. apply scan_atom_number; [lia | lia | lia | exact Hnum].
  - discriminate.
  - change (wf (JStr s)) with (wf_str s) in Hwf.
    destruct fuel as [| fuel]; [simpl in Hfuel; lia |].
    apply scan_dumps_str. exact Hwf.
  - change (wf (JList l)) with (forallb wf l) in Hwf. rewrite forallb_forall in Hwf.
    assert (Forall (fun x => wf x = true) l) as Hwl by (apply List.Forall_forall; exact Hwf).
    assert (Forall scans l) as Hsl.
    { clear Hfuel. induction IH as [| x l Hx _ IHl]; constructor.
      - apply Hx. apply Hwf. left. reflexivity.
      - apply IHl; [intros y Hy; apply Hwf; right; exact Hy |].
        inversion Hwl; assumption. }
    rewrite dumps_list in *. destruct fuel as [| fuel]; [simpl in Hfuel; lia |].
    cbn [app]. rewrite <- app_assoc. cbn [app]. rewrite scan_once_list.
    cbn [length] in Hfuel. rewrite length_app in Hfuel. cbn [length] in Hfuel.
    destruct l as [| x l].
    + cbn [map join app]. rewrite skip_ws_opener by reflexivity. reflexivity.
    + inversion Hwl as [| ? ? Hwx _]; subst.
      destruct (dumps_head x Hwx) as (c & r & Hx & Hc).
      destruct (opener_not_space c Hc) as [Hws _].
      assert (exists t, join (u ", ") (map dumps (x :: l)) = c :: t) as [t Ht]
        by (simpl map; rewrite Hx; apply join_head).
      pose proof (scan_items_dumps (x :: l) ltac:(discriminate) Hwl Hsl fuel rest) as Hit.
      rewrite Ht in *. cbn [app] in *. rewrite skip_ws_opener by exact Hws.
      unfold opener in Hc. destruct (c =? 93) eqn:E; [lia |].
      rewrite Hit; [reflexivity | lia].
  - change (wf (JDict d))
      with (forallb (fun kv => wf_str (fst kv) && wf (snd kv)) d && distinct (map fst d)) in Hwf.
    apply andb_true_iff in Hwf as [Hwf Hdis]. rewrite forallb_forall in Hwf.
    assert (Forall (fun kv => wf_str (fst kv) = true /\ wf (snd kv) = true) d) as Hwd.
    { apply List.Forall_forall. intros kv Hin. apply andb_true_iff. apply Hwf. exact Hin. }
    assert (Forall (fun kv => scans (snd kv)) d) as Hsd.
    { clear Hfuel Hdis. induction IH as [| x l Hx _ IHl]; constructor.
      - apply Hx. inversion Hwd as [| ? ? [_ Hw] _]. exact Hw.
      - apply IHl; [intros y Hy; apply Hwf; right; exact Hy |].
        inversion Hwd; assumption. }
    rewrite dumps_dict in *. destruct fuel as [| fuel]; [simpl in Hfuel; lia |].
    cbn [app]. rewrite <- app_assoc. cbn [app]. rewrite scan_once_dict.
    cbn [length] in Hfuel. rewrite length_app in Hfuel. cbn [length] in Hfuel.
    destruct d as [| kv d].
    + cbn [map join app]. rewrite skip_ws_opener by reflexivity. reflexivity.
    + destruct (member_head kv) as [t0 Ht0].
      assert (exists t, join (u ", ") (map member (kv :: d)) = 34 :: t) as [t Ht]
        by (simpl map; rewrite Ht0; apply join_head).
      pose proof (scan_members_dumps (kv :: d) ltac:(discriminate) Hwd Hsd fuel rest) as Hit.
      rewrite Ht in *. cbn [app] in *. rewrite skip_ws_opener by reflexivity.
      change (34 =? 125) with false. cbv iota.
      rewrite Hit; [rewrite dict_of_pairs_id by exact Hdis; reflexivity | lia].
Qed.

Lemma loads_line (v : json) (tail : str) :
  wf v = true -> delimited tail = true -> skip_ws tail = [] ->
  loads (dumps v ++ tail) = Ok v.
Proof.
  intros Hwf Hd Ht. unfold loads.
  destruct (dumps_head v Hwf) as (c & r & Hv & Hc).
  destruct (opener_not_space c Hc) as [Hws _].
  replace (skip_ws (dumps v ++ tail)) with (dumps v ++ tail)
    by (rewrite Hv; simpl; rewrite Hws; reflexivity).
  rewrite (scans_all v Hwf) by (rewrite ?length_app; lia || exact Hd).
  rewrite Ht. reflexivity.
Qed.

Lemma lstrip_keep (c : Z) (r : str) : isspace c = false -> lstrip (c :: r) = c :: r.
Proof. intros Hc. simpl. rewrite Hc. reflexivity. Qed.

Lemma strip_line (v : json) : wf v = true -> strip (dumps v ++ [10]) = dumps v.
Proof.
  intros Hwf. unfold strip.
  destruct (dumps_head v Hwf) as (c & r & Hv & Hc).
  destruct (opener_not_space c Hc) as [_ Hsp].
  destruct (dumps_last v Hwf) as (r' & c' & Hv' & Hsp').
  assert (lstrip (dumps v ++ [10]) = dumps v ++ [10]) as ->
    by (rewrite Hv; cbn [app]; apply lstrip_keep; exact Hsp).
  rewrite Hv'. rewrite !rev_app_distr. cbn [rev app].
  change (lstrip (10 :: c' :: rev r')) with (lstrip (c' :: rev r')).
  rewrite lstrip_keep by exact Hsp'. cbn [rev]. rewrite rev_involutive. reflexivity.
Qed.

End RoundTrip.

(** ** What the framework renders *)

Lemma flat_map_keep {A : Type} (keep : A -> bool) (f : A -> A) (l : list A) :
  Forall (fun x => keep x = true /\ f x = x) l ->
  flat_map (fun x => if keep x then [f x] else []) l = l.
Proof.
  induction 1 as [| x l [Hk Hf] _ IH]; simpl; [reflexivity |].
  rewrite Hk, Hf. simpl. f_equal. exact IH.
Qed.

Lemma jsonable_encoder_dict (pairs : list (str * json)) :
  jsonable_encoder (JDict pairs) =
  JDict (flat_map (fun kv => if negb (starts_with (u "_sa") (fst kv))
                             then [(fst kv, jsonable_encoder (snd kv))] else []) pairs).
Proof.
  cbn [jsonable_encoder]. f_equal. induction pairs as [| kv pairs IH]; [reflexivity |].
  cbn [flat_map]. rewrite IH. destruct (starts_with (u "_sa") (fst kv)); reflexivity.
Qed.

(** Without a key that starts with "_sa", [jsonable_encoder] gives the
    document back as it is. *)
Lemma jsonable_encoder_id (v : json) : sa_free v = true -> jsonable_encoder v = v.
Proof.
  induction v as [| b | n | lit | s | l IH | d IH] using json_ind'; intros Hs;
    try reflexivity.
  - cbn [jsonable_encoder]. f_equal.
    change (sa_free (JList l)) with (forallb sa_free l) in Hs.
    induction IH as [| x l Hx _ IHl]; [reflexivity |].
    cbn [forallb] in Hs. apply andb_true_iff in Hs as [Hsx Hsl].
    cbn [map]. rewrite Hx by exact Hsx. f_equal. apply IHl. exact Hsl.
  - rewrite jsonable_encoder_dict. f_equal.
    change (sa_free (JDict d))
      with (forallb (fun kv => negb (starts_with (u "_sa") (fst kv)) && sa_free (snd kv)) d) in Hs.
    apply (flat_map_keep (fun kv => negb (starts_with (u "_sa") (fst kv)))
                         (fun kv => (fst kv, jsonable_encoder (snd kv)))).
    induction IH as [| [k x] d Hx _ IHd]; constructor.
    + cbn [forallb fst snd] in Hs. apply andb_true_iff in Hs as [Hsx _].
      apply andb_true_iff in Hsx as [Hk Hsx]. cbn [fst snd] in *.
      split; [exact Hk |]. rewrite Hx by exact Hsx. reflexivity.
    + apply IHd. cbn [forallb] in Hs. apply andb_true_iff in Hs as [_ Hs]. exact Hs.
Qed.

(** ** Calls and their subprocesses *)

Section Owning.
Context `{PythonRuntime}.

Lemma call_ok_handle (ps : list process) (c : call) (h : nat) :
  call_ok ps c -> server_proc c = Some h -> (h < length ps)%nat.
Proof.
  destruct c; simpl; intros Hok [= <-].
  - destruct Hok as (p & Hp & _). eapply lookup_lt_Some; eassumption.
  - destruct Hok as (p & l & Hp & _). eapply lookup_lt_Some; eassumption.
  - destruct Hok as (p & l1 & l2 & r' & Hp & _). eapply lookup_lt_Some; eassumption.
Qed.

Lemma call_ok_frame (ps ps' : list process) (c : call) :
  (forall h, server_proc c = Some h -> ps' !! h = ps !! h) ->
  call_ok ps c -> call_ok ps' c.
Proof.
  destruct c; simpl; intros Hf; try easy; rewrite Hf by reflexivity; easy.
Qed.

Lemma call_ok_read (ps : list process) (c : call) (h : nat) (raw : str) :
  call_ok ps c -> call_ok (alter (read_lines raw) h ps) c.
Proof.
  assert (forall h' p, ps !! h' = Some p ->
            exists p', alter (read_lines raw) h ps !! h' = Some p' /\
              ((stdout_seen p' = stdout_seen p /\ stdout_buffer p' = stdout_buffer p) \/
               exists x, stdout_seen p' = stdout_seen p ++ [x] /\
                         stdout_buffer p' = stdout_buffer p ++ [x])) as Hrd.
  { intros h' p Hp. destruct (decide (h = h')) as [-> | Hne].
    - rewrite list_lookup_alter_eq, Hp. simpl. eexists. split; [reflexivity |].
      unfold read_lines. destruct (reader_exited p); [left; easy |].
      destruct raw; [left; easy | right; eexists; easy].
    - rewrite list_lookup_alter_ne by exact Hne. eauto. }
  destruct c; simpl; try easy.
  - intros (p & Hp & Hs). destruct (Hrd _ _ Hp) as (p' & Hp' & [[Hs' Hb'] | (x & Hs' & Hb')]);
      exists p'; (split; [exact Hp' | congruence]).
  - intros (p & l1 & Hp & Hs). destruct (Hrd _ _ Hp) as (p' & Hp' & [[Hs' Hb'] | (x & Hs' & Hb')]);
      exists p', l1; (split; [exact Hp' |]); rewrite Hs', Hb', Hs; reflexivity.
  - intros (p & l1 & l2 & rest & Hp & Hs & Hr).
    destruct (Hrd _ _ Hp) as (p' & Hp' & [[Hs' Hb'] | (x & Hs' & Hb')]).
    + exists p', l1, l2, rest. rewrite Hs'. auto.
    + exists p', l1, l2, (rest ++ [x]). rewrite Hs', Hs. auto.
Qed.

Lemma tool_endpoint_ok (ps : list process) (c : call) :
  call_ok ps c -> call_ok (tool_endpoint ps c).1 (tool_endpoint ps c).2.
Proof.
  destruct c as [r | t i | h t i | h | h r]; simpl; try easy.
  - intros _. exists Popen. split; [| reflexivity].
    rewrite lookup_app_r by lia. rewrite Nat.sub_diag. reflexivity.
  - intros (p & Hp & Hs). rewrite Hp.
    destruct (stdout_buffer p) as [| l b] eqn:Hb; simpl.
    + exists p. rewrite Hb. auto.
    + eexists _, l. rewrite list_lookup_alter_eq, Hp. simpl. split; [reflexivity |].
      simpl. rewrite Hb. exact Hs.
  - intros (p & l1 & Hp & Hs). rewrite Hp.
    destruct (stdout_buffer p) as [| l b] eqn:Hb; simpl.
    + exists p, l1. rewrite Hb. auto.
    + destruct (finish l) as [k o] eqn:Hf. simpl.
      eexists _, l1, l, b. rewrite list_lookup_alter_eq, Hp. simpl. split; [reflexivity |].
      rewrite Hf. simpl. split; [| reflexivity]. destruct k; exact Hs.
Qed.

Lemma tool_endpoint_frame (ps : list process) (c : call) (h' : nat) :
  call_ok ps c -> (h' < length ps)%nat -> server_proc c <> Some h' ->
  (tool_endpoint ps c).1 !! h' = ps !! h'.
Proof.
  intros Hok Hlt Hne. destruct c as [r | t i | h t i | h | h r]; simpl in *; try reflexivity.
  - apply lookup_app_l. exact Hlt.
  - destruct (ps !! h) as [p |]; [| reflexivity].
    destruct (stdout_buffer p); [reflexivity |]. simpl.
    apply list_lookup_alter_ne. congruence.
  - destruct (ps !! h) as [p |]; [| reflexivity].
    destruct (stdout_buffer p); [reflexivity |]. destruct (finish s). simpl.
    apply list_lookup_alter_ne. congruence.
Qed.

Lemma tool_endpoint_handle (ps : list process) (c : call) (h : nat) :
  server_proc (tool_endpoint ps c).2 = Some h ->
  server_proc c = Some h \/ (server_proc c = None /\ h = length ps).
Proof.
  destruct c as [r | t i | h0 t i | h0 | h0 r]; simpl; try (intros [= <-]; auto; fail); try easy.
  - destruct (ps !! h0) as [p |]; [| auto].
    destruct (stdout_buffer p); simpl; auto.
  - destruct (ps !! h0) as [p |]; [| auto].
    destruct (stdout_buffer p); [auto |]. destruct (finish s). simpl. auto.
Qed.

Lemma invariant_initial : invariant initial.
Proof.
  split; simpl.
  - intros i c Hc. rewrite lookup_nil in Hc. discriminate.
  - intros i j c c' h _ Hc. rewrite lookup_nil in Hc. discriminate.
  - left. reflexivity.
Qed.

Lemma invariant_step (s : bridge) (e : event) : invariant s -> invariant (step s e).
Proof.
  intros Hinv. destruct Hinv as [Hcalls Hown Hmain] eqn:Hrec. clear Hrec.
  destruct e as [| r | j | h raw]; simpl.
  - (* Main *)
    unfold create_app. destruct (main s) as [| h | app | ex] eqn:Hm.
    + destruct Hmain as [Hnil | [app Happ]]; [| congruence].
      split; simpl; rewrite ?Hnil; [| | left; reflexivity];
        intros i; intros; rewrite lookup_nil in *; discriminate.
    + destruct (buffer s h); [exact Hinv |]. destruct (describe s0) as [k o].
      destruct Hmain as [Hnil | [app Happ]]; [| congruence].
      split; simpl; rewrite ?Hnil; [| | left; reflexivity];
        intros i; intros; rewrite lookup_nil in *; discriminate.
    + exact Hinv.
    + exact Hinv.
  - (* Http *)
    destruct (main s) as [| h | app | ex] eqn:Hm; try exact Hinv.
    assert (server_proc (dispatch app r) = None) as Hnone.
    { apply dispatch_not_spawned. }
    assert (forall i c, (calls s ++ [dispatch app r]) !! i = Some c ->
              calls s !! i = Some c \/ c = dispatch app r) as Hsnoc.
    { intros i c Hc. apply lookup_app_Some in Hc as [Hc | [_ Hc]]; [auto |].
      right. apply list_lookup_singleton_Some in Hc as [_ <-]. reflexivity. }
    split; simpl.
    + intros i c Hc. apply Hsnoc in Hc as [Hc | ->]; [eapply Hcalls; eassumption |].
      destruct (dispatch app r); simpl in *; try easy.
    + intros i j c c' h Hne Hi Hj Hs Hs'.
      apply lookup_app_Some in Hi as [Hi | [Hli Hi]];
        apply lookup_app_Some in Hj as [Hj | [Hlj Hj]].
      * eapply (Hown i j); eassumption.
      * apply list_lookup_singleton_Some in Hj as [_ <-]. congruence.
      * apply list_lookup_singleton_Some in Hi as [_ <-]. congruence.
      * apply list_lookup_singleton_Some in Hi as [_ <-]. congruence.
    + right. eauto.
  - (* Tick *)
    destruct (calls s !! j) as [c |] eqn:Hc; [| exact Hinv].
    pose proof (Hcalls j c Hc) as Hok.
    pose proof (tool_endpoint_ok _ _ Hok) as Hok'.
    pose proof (tool_endpoint_handle (procs s) c) as Hh.
    pose proof (tool_endpoint_frame (procs s) c) as Hfr.
    destruct (tool_endpoint (procs s) c) as [ps c'] eqn:Hte. simpl in *.
    assert (j < length (calls s))%nat as Hj by (eapply lookup_lt_Some; eassumption).
    split; simpl.
    + intros i ci Hi. destruct (decide (i = j)) as [-> | Hne].
      * rewrite list_lookup_insert_eq in Hi by exact Hj. injection Hi as <-. exact Hok'.
      * rewrite list_lookup_insert_ne in Hi by congruence.
        pose proof (Hcalls i ci Hi) as Hoki.
        eapply call_ok_frame; [| exact Hoki]. intros h Hs. apply Hfr.
        -- exact Hok.
        -- eapply call_ok_handle; eassumption.
        -- eapply (Hown i j); eassumption.
    + intros i1 i2 c1 c2 h Hne H1 H2 Hs1 Hs2.
      destruct (decide (i1 = j)) as [-> | Hne1]; destruct (decide (i2 = j)) as [-> | Hne2];
        try congruence.
      * rewrite list_lookup_insert_eq in H1 by exact Hj. injection H1 as <-.
        rewrite list_lookup_insert_ne in H2 by congruence.
        destruct (Hh h Hs1) as [Hc1 | [_ ->]].
        -- eapply (Hown j i2); eassumption.
        -- pose proof (call_ok_handle _ _ _ (Hcalls i2 c2 H2) Hs2). lia.
      * rewrite list_lookup_insert_eq in H2 by exact Hj. injection H2 as <-.
        rewrite list_lookup_insert_ne in H1 by congruence.
        destruct (Hh h Hs2) as [Hc2 | [_ ->]].
        -- eapply (Hown i1 j); eassumption.
        -- pose proof (call_ok_handle _ _ _ (Hcalls i1 c1 H1) Hs1). lia.
      * rewrite list_lookup_insert_ne in H1 by congruence.
        rewrite list_lookup_insert_ne in H2 by congruence.
        eapply (Hown i1 i2); eassumption.
    + destruct Hmain as [Hnil | Happ]; [| right; exact Happ].
      rewrite Hnil in Hc. rewrite lookup_nil in Hc. discriminate.
  - (* Line *)
    split; simpl; [| exact Hown | exact Hmain].
    intros i c Hc. apply call_ok_read. eapply Hcalls. exact Hc.
Qed.

Lemma invariant_run (evs : list event) (s : bridge) : invariant s -> invariant (run evs s).
Proof.
  revert s. induction evs as [| e evs IH]; intros s Hs; [exact Hs |].
  rewrite run_cons. apply IH. apply invariant_step. exact Hs.
Qed.

(** Only the reader thread of a process adds to what has been seen of it. *)
Lemma seen_changes_by_own_lines (s : bridge) (e : event) (h : nat) (p : process) :
  procs s !! h = Some p -> line_of h e = false ->
  exists p', procs (step s e) !! h = Some p' /\ stdout_seen p' = stdout_seen p.
Proof.
  intros Hp He. destruct e as [| r | j | h' raw]; simpl.
  - unfold create_app. destruct (main s).
    + simpl. rewrite lookup_app_l by (eapply lookup_lt_Some; eassumption). eauto.
    + destruct (buffer s h0); [eauto |]. destruct (describe s0) as [k o]. simpl.
      destruct (decide (h0 = h)) as [-> | Hne].
      * rewrite list_lookup_alter_eq, Hp. simpl. eexists. split; [reflexivity |].
        destruct k; reflexivity.
      * rewrite list_lookup_alter_ne by exact Hne. eauto.
    + eauto.
    + eauto.
  - destruct (main s); simpl; eauto.
  - destruct (calls s !! j) as [c |]; [| eauto].
    destruct (tool_endpoint (procs s) c) as [ps c'] eqn:Hte. simpl.
    destruct c as [r | t i | h0 t i | h0 | h0 r]; simpl in Hte.
    + injection Hte as <- _. eauto.
    + injection Hte as <- _. rewrite lookup_app_l by (eapply lookup_lt_Some; eassumption). eauto.
    + destruct (procs s !! h0) as [p0 |] eqn:Hp0; [| injection Hte as <- _; eauto].
      destruct (stdout_buffer p0); injection Hte as <- _; [eauto |].
      destruct (decide (h0 = h)) as [-> | Hne].
      * rewrite list_lookup_alter_eq, Hp. simpl. eauto.
      * rewrite list_lookup_alter_ne by exact Hne. eauto.
    + destruct (procs s !! h0) as [p0 |] eqn:Hp0; [| injection Hte as <- _; eauto].
      destruct (stdout_buffer p0); [injection Hte as <- _; eauto |].
      destruct (finish s0) as [k o]. injection Hte as <- _.
      destruct (decide (h0 = h)) as [-> | Hne].
      * rewrite list_lookup_alter_eq, Hp. simpl. eexists. split; [reflexivity |].
        destruct k; reflexivity.
      * rewrite list_lookup_alter_ne by exact Hne. eauto.
    + injection Hte as <- _. eauto.
  - simpl in He. apply Nat.eqb_neq in He.
    rewrite list_lookup_alter_ne by congruence. eauto.
Qed.

Lemma killed_after_alter (ps : list process) (h : nat) (p : process) :
  ps !! h = Some p ->
  killed <$> alter (fun p => kill (pop0 p)) h ps !! h = Some true.
Proof. intros Hp. rewrite list_lookup_alter_eq, Hp. reflexivity. Qed.

Lemma tick_result (s : bridge) (i h : nat) (p : process) (result_line : str) (rest : list str) :
  calls s !! i = Some (AwaitingResult h) ->
  procs s !! h = Some p ->
  stdout_buffer p = result_line :: rest ->
  calls (step s (Tick i)) !! i = Some (Answered h (respond (finish result_line).2)) /\
  procs (step s (Tick i)) =
    alter (fun p => if (finish result_line).1 then kill (pop0 p) else pop0 p) h (procs s).
Proof.
  intros Hc Hp Hb. simpl. rewrite Hc. simpl. rewrite Hp, Hb.
  destruct (finish result_line) as [k o]. simpl.
  rewrite list_lookup_insert_eq by (eapply lookup_lt_Some; eassumption). auto.
Qed.

(** What an endpoint writes is a [ToolCall] message. *)
Lemma tool_call_is_a_message (tool : str) (input_data : list (str * str)) :
  tool_call tool input_data =
  to_json (ToolCall tool (JDict (map (fun kv => (kv.1, JStr kv.2)) input_data))).
Proof. reflexivity. Qed.

(** Left at its default, the [tool] parameter is the name of the tool the
    endpoint was registered for. *)
Lemma default_tool_is_sent (tool : json) (e : endpoint) (app : list endpoint) (r : request)
    (tool' : str) (input_data : list (str * str)) :
  register tool = Ok e ->
  find (fun e => str_eqb (target r) (path e)) app = Some e ->
  query_get (u "tool") (query r) = None ->
  dispatch app r = Starting tool' input_data ->
  subscript tool (u "name") = Ok (JStr tool').
Proof.
  intros He Hf Hq Hs. destruct (register_path tool e He) as (name & Hn & _ & Hdef).
  unfold dispatch in Hs. rewrite Hf, Hq in Hs. destruct (verb r); [discriminate |].
  destruct (body r); try discriminate.
  destruct (validate (request_model e) pairs); [discriminate |].
  injection Hs as <- _. congruence.
Qed.

End Owning.

(** * The claims *)

Section Claims.
Context `{PythonRuntime}.

(** C1, as the code has it. A wait of the bridge has no bound: a thread
    that spins on the empty buffer of subprocess [h], be it [create_app]
    waiting for the description or a call of an endpoint in either of its
    two waits, stands where it stood after any further events among which
    no line of [h] arrives, and the buffer is still empty. It has neither
    returned nor raised: no [TimeoutError], nor anything else. *)
Theorem wait_without_a_line_never_ends
    (evs : list event) (s : bridge) (t : thread) (h : nat) :
  polling s t = Some h ->
  buffer s h = [] ->
  Forall (fun e => line_of h e = false) evs ->
  standing (run evs s) t = standing s t /\ buffer (run evs s) h = [].
Proof. apply keeps_spinning. Qed.

(** C2, as the code has it. When [create_app] takes the first line off its
    buffer: a line that is not JSON kills the subprocess and raises the
    [RuntimeError]; a line that is any JSON object is accepted, whatever
    its [type]: the subprocess is killed and the endpoints are registered
    from its [tools] entry, which is empty when the object has none, so
    that startup then succeeds with no endpoint. *)
Theorem first_line_decides_startup
    (s : bridge) (h : nat) (p : process) (first_line : str) (rest : list str) :
  main s = Describing h ->
  procs s !! h = Some p ->
  stdout_buffer p = first_line :: rest ->
  (loads first_line = Raise JSONDecodeError ->
     main (step s Main) = Failed RuntimeError /\
     killed <$> procs (step s Main) !! h = Some true) /\
  (forall d, loads first_line = Ok (JDict d) ->
     killed <$> procs (step s Main) !! h = Some true /\
     main (step s Main) =
       match iterate (tools_of d) ≫= register_all with
       | Ok app => Up app
       | Raise e => Failed e
       end /\
     (dict_get (u "tools") d = None -> main (step s Main) = Up [])).
Proof.
  intros Hm Hp Hb. simpl. unfold create_app, buffer. rewrite Hm, Hp, Hb.
  unfold describe. split.
  - intros ->. simpl. split; [reflexivity | exact (killed_after_alter _ _ _ Hp)].
  - intros d ->. simpl. split; [exact (killed_after_alter _ _ _ Hp) |].
    split; [reflexivity |].
    unfold tools_of. intros ->. reflexivity.
Qed.

(** C3, as the code has it. For a tool described with a name, an input
    schema and an output schema, registration succeeds and gives the
    endpoint [/name]; its request model holds exactly the properties typed
    "string" that pydantic takes for fields, which are those whose name
    does not start with an underscore. A property of another type is left
    out of the model and raises nothing. The name of the tool is one the
    frameworks take as it is ([plain_name]), and no property typed
    "string" has a name that pydantic has a use of its own for. *)
Theorem non_string_properties_are_skipped
    (tool : json) (name : str) (props : list (str * json)) :
  described tool name props ->
  plain_name name = true ->
  Forall (fun kv => string_typed kv.2 = true -> reserved kv.1 = false) props ->
  exists e, register tool = Ok e /\ path e = 47 :: name /\
    forall k, In k (map fst (request_model e)) <->
      is_valid_field_name k = true /\
      exists schema, In (k, schema) props /\ string_typed schema = true.
Proof.
  intros Hd Hn Hr.
  destruct (register_described tool name props Hd Hn Hr) as (e & He & Hp & _ & Hk).
  exists e. auto.
Qed.


(** C5. A call that takes the line of the error message "boom" off its
    buffer as its result is answered with status 500, and the detail of
    the response contains "boom"; the answer is not a 200. *)
Theorem error_reply_is_a_failure_naming_boom
    (s : bridge) (i h : nat) (p : process) (result_line : str) (rest : list str) :
  calls s !! i = Some (AwaitingResult h) ->
  procs s !! h = Some p ->
  stdout_buffer p = result_line :: rest ->
  loads result_line = Ok error_boom ->
  exists detail,
    calls (step s (Tick i)) !! i =
      Some (Answered h {| status := 500; payload := Detail detail |}) /\
    contains (u "boom") detail = true.
Proof.
  intros Hc Hp Hb Hl. destruct (tick_result s i h p result_line rest Hc Hp Hb) as [Ha _].
  rewrite Ha. unfold finish. rewrite Hl.
  eexists. split; [reflexivity |]. vm_compute. reflexivity.
Qed.


(** C7, as the code has it. Registration gives one endpoint per tool of
    the description, in order, at the path [/name] of that tool; the
    endpoints are POST routes (a GET is turned away without a call). A
    call that takes a [tool-result] line off its buffer returns the
    [output] of that message; the framework answers 200 with that output
    when it can render it, and 500 when it cannot (a [float] that is not
    finite, a surrogate in a text or in a key). The output it renders is
    the one [jsonable_encoder] gives, which is the output as it is when no
    key in it starts with "_sa". *)
Theorem one_endpoint_per_tool_and_output_verbatim :
  (forall tools app, register_all tools = Ok app ->
     Forall2 (fun tool e => exists name,
                subscript tool (u "name") = Ok (JStr name) /\ path e = 47 :: name) tools app) /\
  (forall app r, verb r = GET -> exists resp, dispatch app r = Rejected resp) /\
  (forall s i h p result_line rest d output,
     calls s !! i = Some (AwaitingResult h) ->
     procs s !! h = Some p ->
     stdout_buffer p = result_line :: rest ->
     loads result_line = Ok (JDict d) ->
     dict_get (u "type") d = Some (JStr (u "tool-result")) ->
     dict_get (u "output") d = Some output ->
     (renders (jsonable_encoder output) = true ->
      calls (step s (Tick i)) !! i =
        Some (Answered h {| status := 200; payload := Output (jsonable_encoder output) |})) /\
     (renders (jsonable_encoder output) = false ->
      calls (step s (Tick i)) !! i =
        Some (Answered h {| status := 500; payload := ServerError |})) /\
     (sa_free output = true -> jsonable_encoder output = output)).
Proof.
  split; [| split].
  - intros tools app Hr. apply register_all_each in Hr.
    induction Hr as [| tool e tools app He _ IH]; constructor; [| exact IH].
    destruct (register_path tool e He) as (name & Hn & Hp & _). eauto.
  - intros app r Hv.
    destruct (find (fun e => str_eqb (target r) (path e)) app) eqn:Ef;
      [| exact (dispatch_no_route app r Ef)].
    unfold dispatch. rewrite Ef, Hv. eauto.
  - intros s i h p result_line rest d output Hc Hp Hb Hl Ht Ho.
    destruct (tick_result s i h p result_line rest Hc Hp Hb) as [Ha _].
    rewrite Ha. unfold finish. rewrite Hl, Ht. unfold dict_has. simpl. rewrite Ho.
    cbn [negb orb snd respond].
    split; [| split].
    + intros ->. reflexivity.
    + intros ->. reflexivity.
    + apply jsonable_encoder_id.
Qed.

(** C8. Under every schedule, so however calls and reader threads
    interleave: a call that has been answered was answered from the second
    line its own subprocess printed, and no other call holds that
    subprocess. What has been seen of a subprocess grows by the lines of
    its own reader thread only ([seen_changes_by_own_lines]). *)
Theorem calls_never_share_a_subprocess (evs : list event) (i h : nat) (r : response) :
  calls (run evs initial) !! i = Some (Answered h r) ->
  (exists p l1 l2 rest,
     procs (run evs initial) !! h = Some p /\
     stdout_seen p = l1 :: l2 :: rest /\
     r = respond (finish l2).2) /\
  (forall j c, j <> i -> calls (run evs initial) !! j = Some c -> server_proc c <> Some h).
Proof.
  intros Hc. destruct (invariant_run evs initial invariant_initial) as [Hcalls Hown _].
  split.
  - exact (Hcalls i _ Hc).
  - intros j c Hne Hj. eapply (Hown i j); [congruence | exact Hc | exact Hj | reflexivity].
Qed.


End Claims.

(** * The claims on concrete runs *)

Section Runs.
#[local] Existing Instance plain_runtime.

Example weather_bridge_is_up : main weather_bridge = Up [forecast_endpoint].
Proof. vm_compute. reflexivity. Qed.

Example time_bridge_is_up :
  main (run [Main; Line 0 (printed TimeTool.describe_tools); Main] initial) =
  Up [{| path := u "/get-time";
         request_model := [(u "location", RequiredStr)];
         default_tool := u "get-time" |}].
Proof. vm_compute. reflexivity. Qed.

(** ** C1 *)

Lemma wait_without_a_line_never_ends_witness :
  standing (run [Main; Line 1 (u "late"); Tick 0; Main] (step initial Main)) MainThread =
    standing (step initial Main) MainThread /\
  buffer (run [Main; Line 1 (u "late"); Tick 0; Main] (step initial Main)) 0 = [].
Proof.
  apply (wait_without_a_line_never_ends [Main; Line 1 (u "late"); Tick 0; Main]
           (step initial Main) MainThread 0).
  - reflexivity.
  - reflexivity.
  - repeat constructor.
Defined.

(** Were every wait bounded, [create_app] would end, by raising, under the
    schedule that only ever runs the main thread and delivers no line. It
    does not. *)
Lemma describe_wait_has_no_bound :
  ~ (forall sched : nat -> event,
       (forall n, is_line (sched n) = false) ->
       exists n e, main (run (prefix sched n) initial) = Failed e).
Proof.
  intros Hclaim. destruct (Hclaim (fun _ => Main)) as (n & e & Hn); [reflexivity |].
  destruct n as [| n]; [discriminate |].
  unfold prefix in Hn. simpl in Hn.
  destruct (keeps_spinning (map (fun _ => Main) (seq 1 n)) (create_app initial) MainThread 0)
    as [Hs _].
  - reflexivity.
  - reflexivity.
  - apply List.Forall_forall. intros ev Hin. apply in_map_iff in Hin as (k & <- & _). reflexivity.
  - simpl in Hs. injection Hs as Hs. unfold run in *. simpl in *. congruence.
Qed.

(** ** C2 *)

Lemma first_line_decides_startup_witness :
  main (step (run [Main; Line 0 (garbage ++ [10])] initial) Main) = Failed RuntimeError /\
  killed <$> procs (step (run [Main; Line 0 (garbage ++ [10])] initial) Main) !! 0%nat
    = Some true.
Proof.
  eapply (proj1 (first_line_decides_startup
                   (run [Main; Line 0 (garbage ++ [10])] initial) 0%nat _ garbage []
                   eq_refl eq_refl eq_refl)).
  vm_compute. reflexivity.
Defined.

(** The error message as a first line is not a description, and startup
    goes through: the bridge is up, with no endpoint. *)
Lemma error_line_passes_for_a_description :
  is_description (dumps error_boom) = false /\
  main (run [Main; Line 0 (printed error_boom); Main] initial) = Up [].
Proof. split; vm_compute; reflexivity. Qed.

(** ** C3 *)

Lemma repeat_tool_described : described repeat_tool (u "repeat") repeat_props.
Proof.
  split.
  - reflexivity.
  - eexists. split; reflexivity.
  - eexists. reflexivity.
  - repeat constructor; eexists; reflexivity.
Defined.

Lemma non_string_properties_are_skipped_witness :
  exists e, register repeat_tool = Ok e /\ path e = 47 :: u "repeat" /\
    forall k, In k (map fst (request_model e)) <->
      is_valid_field_name k = true /\
      exists schema, In (k, schema) repeat_props /\ string_typed schema = true.
Proof.
  apply (non_string_properties_are_skipped repeat_tool (u "repeat") repeat_props
           repeat_tool_described).
  - reflexivity.
  - repeat constructor.
Defined.

(** A description whose tool declares an integer property: startup raises
    nothing, and the endpoint of the tool is there, the integer property
    dropped from its model. *)
Lemma integer_property_is_silently_dropped :
  main (run [Main; Line 0 (printed (to_json (ToolDescription [repeat_tool]))); Main] initial) =
  Up [{| path := u "/repeat";
         request_model := [(u "msg", RequiredStr)];
         default_tool := u "repeat" |}].
Proof. vm_compute. reflexivity. Qed.

(** ** C4 *)


(** ** C5 *)

Lemma error_reply_is_a_failure_naming_boom_witness :
  exists detail,
    calls (step failing_call (Tick 0)) !! 0%nat =
      Some (Answered 1 {| status := 500; payload := Detail detail |}) /\
    contains (u "boom") detail = true.
Proof.
  eapply (error_reply_is_a_failure_naming_boom failing_call 0 1).
  - vm_compute. reflexivity.
  - vm_compute. reflexivity.
  - vm_compute. reflexivity.
  - vm_compute. reflexivity.
Defined.

(** ** C6 *)


(** ** C7 *)

Lemma one_endpoint_per_tool_and_output_verbatim_witness :
  calls (step answered_call (Tick 0)) !! 0%nat =
    Some (Answered 1 {| status := 200; payload := Output sunny |}).
Proof.
  refine (proj1 ((proj2 (proj2 one_endpoint_per_tool_and_output_verbatim)) answered_call
                   0%nat 1%nat _ (dumps (to_json (ToolResult sunny))) [] _ sunny
                   _ _ _ _ _ _) _).
  all: vm_compute; reflexivity.
Defined.

(** A tool that answers with a result whose output holds a surrogate on
    its own: the line is read as the result it is, the endpoint returns
    the output, and the answer is the 500 of an exception nobody handled,
    not a 200 with the output. *)
Lemma lone_surrogate_output_is_answered_500 :
  decode (printed (to_json (ToolResult lone_surrogate))) =
    Some (to_json (ToolResult lone_surrogate)) /\
  calls (run [Http paris; Tick 0; Line 1 (printed WeatherServer.describe_tools); Tick 0;
              Line 1 (printed (to_json (ToolResult lone_surrogate))); Tick 0]
             weather_bridge) !! 0%nat =
    Some (Answered 1 {| status := 500; payload := ServerError |}).
Proof. split; vm_compute; reflexivity. Qed.

(** ** C8 *)

Lemma calls_never_share_a_subprocess_witness :
  (exists p l1 l2 rest,
     procs (run interleaved initial) !! 2%nat = Some p /\
     stdout_seen p = l1 :: l2 :: rest /\
     {| status := 200; payload := Output sunny |} = respond (finish l2).2) /\
  (forall j c, j <> 0%nat -> calls (run interleaved initial) !! j = Some c ->
     server_proc c <> Some 2%nat).
Proof.
  apply (calls_never_share_a_subprocess interleaved 0 2 {| status := 200; payload := Output sunny |}).
  vm_compute. reflexivity.
Defined.

(** ** C9 *)

(** Left at its default, [tool] is the name of the endpoint's own tool. *)
Example default_tool_is_sent_example :
  dispatch [forecast_endpoint] paris = Starting (u "get-forecast") [(u "location", u "Paris")].
Proof. vm_compute. reflexivity. Qed.

(** C9, on the code. [tool] is a parameter of the endpoint with a default,
    so the framework fills it from the query string: asked for
    [/get-forecast?tool=get-time], the endpoint of [get-forecast] writes a
    message whose [tool] is "get-time" to its subprocess. *)
Theorem query_string_overrides_the_tool_name :
  stdin <$> procs (run [Http overriding; Tick 0;
                        Line 1 (printed WeatherServer.describe_tools); Tick 0]
                       weather_bridge) !! 1%nat =
  Some [encode (ToolCall (u "get-time") (JDict [(u "location", JStr (u "Paris"))]))].
Proof. vm_compute. reflexivity. Qed.

(** ** C10 *)



End Runs.

(** * More facts *)

(** ** What the bridge does to its subprocesses *)

Section Tidying.
Context `{PythonRuntime}.

Lemma filter_insert {A : Type} (f : A -> bool) (l : list A) (i : nat) (x y : A) :
  l !! i = Some x ->
  (length (List.filter f (<[i := y]> l)) + (if f x then 1 else 0) =
   length (List.filter f l) + (if f y then 1 else 0))%nat.
Proof.
  revert i. induction l as [| a l IH]; intros [| i]; simpl; try discriminate.
  - intros [= ->]. destruct (f x), (f y); simpl; lia.
  - intros Hi. specialize (IH i Hi). destruct (f a); simpl; lia.
Qed.

Lemma describe_kills (first_line : str) (app : list endpoint) (k : bool) :
  describe first_line = (k, Ok app) -> k = true.
Proof.
  unfold describe. destruct (loads first_line) as [desc | ex]; [| destruct ex; discriminate].
  destruct (get desc (u "tools") (JList [])) as [tools | e]; intros [= <- ?]; congruence.
Qed.

Lemma describe_spares (first_line : str) (e : exn) :
  describe first_line = (false, Raise e) -> e = AttributeError \/ e = ValueError.
Proof.
  unfold describe. destruct (loads first_line) as [desc | ex] eqn:El.
  - destruct desc; simpl; try discriminate; intros [= <-]; left; reflexivity.
  - destruct (loads_raises _ _ El) as [-> | ->]; [discriminate | intros [= <-]; auto].
Qed.

Lemma read_lines_io (raw : str) (p : process) :
  stdin (read_lines raw p) = stdin p /\ killed (read_lines raw p) = killed p /\
  (stdout_seen (read_lines raw p) = stdout_seen p \/
   exists x, stdout_seen (read_lines raw p) = stdout_seen p ++ [x]).
Proof.
  unfold read_lines. destruct (reader_exited p); [auto |].
  destruct raw; simpl; eauto.
Qed.

Lemma alter_read_lines (raw : str) (h h' : nat) (ps : list process) (p : process) :
  ps !! h' = Some p ->
  exists p', alter (read_lines raw) h ps !! h' = Some p' /\
    stdin p' = stdin p /\ killed p' = killed p /\
    (stdout_seen p' = stdout_seen p \/ exists x, stdout_seen p' = stdout_seen p ++ [x]).
Proof.
  intros Hp. destruct (decide (h = h')) as [-> | Hne].
  - rewrite list_lookup_alter_eq, Hp. simpl. eexists. split; [reflexivity |].
    apply read_lines_io.
  - rewrite list_lookup_alter_ne by exact Hne. exists p. auto.
Qed.

Lemma call_io_read (ps : list process) (c : call) (h : nat) (raw : str) :
  call_io ps c -> call_io (alter (read_lines raw) h ps) c.
Proof.
  destruct c as [r | t i | h' t i | h' | h' r]; simpl; try easy.
  - intros (p & Hp & Hi & Hk).
    destruct (alter_read_lines raw h h' ps p Hp) as (p' & Hp' & Hi' & Hk' & _).
    exists p'. rewrite Hi', Hk'. auto.
  - intros (p & line & Hp & Hi & Hl & Hk).
    destruct (alter_read_lines raw h h' ps p Hp) as (p' & Hp' & Hi' & Hk' & _).
    exists p', line. rewrite Hi', Hk'. auto 6.
  - intros (p & line & l1 & l2 & rest & Hp & Hi & Hl & Hs & Hk & Hr).
    destruct (alter_read_lines raw h h' ps p Hp) as (p' & Hp' & Hi' & Hk' & [Hs' | [x Hs']]).
    + exists p', line, l1, l2, rest. rewrite Hi', Hk', Hs'. auto 8.
    + exists p', line, l1, l2, (rest ++ [x]). rewrite Hi', Hk', Hs', Hs. auto 8.
Qed.

Lemma call_io_frame (ps ps' : list process) (c : call) :
  (forall h, server_proc c = Some h -> ps' !! h = ps !! h) ->
  call_io ps c -> call_io ps' c.
Proof.
  destruct c; simpl; intros Hf; try easy; rewrite Hf by reflexivity; easy.
Qed.

Lemma tool_endpoint_io (ps : list process) (c : call) :
  call_ok ps c -> call_io ps c -> call_io (tool_endpoint ps c).1 (tool_endpoint ps c).2.
Proof.
  destruct c as [r | t i | h t i | h | h r]; simpl; try easy.
  - intros _ _. exists Popen. split; [| auto].
    rewrite lookup_app_r by lia. rewrite Nat.sub_diag. reflexivity.
  - intros _ (p & Hp & Hi & Hk). rewrite Hp.
    destruct (stdout_buffer p) as [| l b] eqn:Hb; simpl.
    + exists p. auto.
    + eexists _, _. rewrite list_lookup_alter_eq, Hp. simpl. split; [reflexivity |].
      simpl. rewrite Hi. split; [reflexivity |]. split; [| exact Hk].
      exists t, i. reflexivity.
  - intros (p0 & l1 & Hp0 & Hs) (p & line & Hp & Hi & Hl & Hk).
    assert (p0 = p) as -> by congruence. rewrite Hp.
    destruct (stdout_buffer p) as [| l b] eqn:Hb; simpl.
    + exists p, line. auto.
    + destruct (finish l) as [k o] eqn:Hf. simpl.
      eexists _, line, l1, l, b. rewrite list_lookup_alter_eq, Hp. simpl.
      split; [reflexivity |]. rewrite Hf. simpl.
      destruct k; simpl; auto.
Qed.

Lemma tool_endpoint_lines (ps : list process) (c : call) :
  (forall h p, ps !! h = Some p -> Forall request_line (stdin p)) ->
  forall h p, (tool_endpoint ps c).1 !! h = Some p -> Forall request_line (stdin p).
Proof.
  intros Hps h p. destruct c as [r | t i | h' t i | h' | h' r]; simpl; try apply Hps.
  - intros Hp. apply lookup_app_Some in Hp as [Hp | [_ Hp]]; [eapply Hps; eassumption |].
    apply list_lookup_singleton_Some in Hp as [_ <-]. constructor.
  - destruct (ps !! h') as [p' |] eqn:Hp'; [| apply Hps].
    destruct (stdout_buffer p'); [apply Hps |]. simpl.
    destruct (decide (h' = h)) as [-> | Hne].
    + rewrite list_lookup_alter_eq, Hp'. simpl. intros [= <-]. simpl.
      apply Forall_app. split; [eapply Hps; eassumption |].
      constructor; [| constructor]. exists t, i. reflexivity.
    + rewrite list_lookup_alter_ne by exact Hne. apply Hps.
  - destruct (ps !! h') as [p' |] eqn:Hp'; [| apply Hps].
    destruct (stdout_buffer p'); [apply Hps |]. destruct (finish s) as [k o]. simpl.
    destruct (decide (h' = h)) as [-> | Hne].
    + rewrite list_lookup_alter_eq, Hp'. simpl. intros [= <-].
      destruct k; simpl; eapply Hps; eassumption.
    + rewrite list_lookup_alter_ne by exact Hne. apply Hps.
Qed.

Lemma tool_endpoint_count (ps : list process) (c : call) :
  (length (tool_endpoint ps c).1 + (if spawned c then 1 else 0) =
   length ps + (if spawned (tool_endpoint ps c).2 then 1 else 0))%nat.
Proof.
  destruct c as [r | t i | h t i | h | h r]; simpl; try lia.
  - rewrite length_app. simpl. lia.
  - destruct (ps !! h) as [p |]; [| simpl; lia].
    destruct (stdout_buffer p); simpl; [lia |]. rewrite length_alter. lia.
  - destruct (ps !! h) as [p |]; [| simpl; lia].
    destruct (stdout_buffer p); simpl; [lia |]. destruct (finish s). simpl.
    rewrite length_alter. lia.
Qed.

Lemma tidy_initial : tidy initial.
Proof.
  split; simpl.
  - split; reflexivity.
  - intros i c Hc. rewrite lookup_nil in Hc. discriminate.
  - intros i c Hc. rewrite lookup_nil in Hc. discriminate.
  - reflexivity.
  - intros h p Hp. rewrite lookup_nil in Hp. discriminate.
Qed.

Lemma tidy_step (s : bridge) (e : event) : invariant s -> tidy s -> tidy (step s e).
Proof.
  intros [Hcalls Hown Hmain] Ht. destruct Ht as [Tm Tc Th Tn Tl] eqn:Hrec. clear Hrec.
  unfold main_io in Tm.
  destruct e as [| r | j | h raw]; simpl.
  - (* Main *)
    unfold create_app. destruct (main s) as [| h | app | ex] eqn:Hm.
    + destruct Tm as [Hp Hc]. split; unfold main_io; simpl; rewrite ?Hp, ?Hc; simpl.
      * split; [reflexivity |]. split; [reflexivity |]. exists Popen. auto.
      * intros i c Hi. rewrite lookup_nil in Hi. discriminate.
      * intros i c Hi. rewrite lookup_nil in Hi. discriminate.
      * reflexivity.
      * intros h p Hh. apply list_lookup_singleton_Some in Hh as [_ <-]. constructor.
    + destruct Tm as (-> & Hc & p & Hp & Hi & Hk). unfold buffer. rewrite Hp. simpl.
      destruct (stdout_buffer p) as [| l b] eqn:Hb; [exact Ht |].
      destruct (describe l) as [k o] eqn:Hd.
      split; unfold main_io; simpl; rewrite ?Hc, ?Hp; simpl.
      * destruct o as [app | ex].
        -- apply describe_kills in Hd as ->. eexists. split; [reflexivity |]. simpl. auto.
        -- split; [reflexivity |]. eexists. split; [reflexivity |].
           destruct k; simpl; [auto |]. split; [exact Hi |]. right.
           apply describe_spares in Hd. exact Hd.
      * intros i c Hi'. rewrite lookup_nil in Hi'. discriminate.
      * intros i c Hi'. rewrite lookup_nil in Hi'. discriminate.
      * destruct o; reflexivity.
      * intros h q Hq. apply list_lookup_singleton_Some in Hq as [_ <-].
        destruct k; simpl; rewrite Hi; constructor.
    + exact Ht.
    + exact Ht.
  - (* Http *)
    destruct (main s) as [| h | app | ex] eqn:Hm; try exact Ht.
    pose proof (dispatch_not_spawned app r) as Hnone.
    split; unfold main_io; simpl; rewrite ?Hm.
    + exact Tm.
    + intros i c Hc. apply lookup_app_Some in Hc as [Hc | [_ Hc]]; [eapply Tc; eassumption |].
      apply list_lookup_singleton_Some in Hc as [_ <-].
      destruct (dispatch app r); simpl in *; try easy.
    + intros i c Hc. apply lookup_app_Some in Hc as [Hc | [_ Hc]]; [eapply Th; eassumption |].
      apply list_lookup_singleton_Some in Hc as [_ <-]. congruence.
    + assert (spawned (dispatch app r) = false) as Hsp
        by (unfold spawned; rewrite Hnone; reflexivity).
      rewrite List.filter_app, length_app. cbn [List.filter]. rewrite Hsp. simpl in *. lia.
    + exact Tl.
  - (* Tick *)
    destruct (calls s !! j) as [c |] eqn:Hc; [| exact Ht].
    pose proof (Hcalls j c Hc) as Hok.
    pose proof (tool_endpoint_io _ _ Hok (Tc j c Hc)) as Hio.
    pose proof (tool_endpoint_handle (procs s) c) as Hh.
    pose proof (tool_endpoint_frame (procs s) c) as Hfr.
    pose proof (tool_endpoint_count (procs s) c) as Hcnt.
    pose proof (tool_endpoint_lines (procs s) c Tl) as Hlines.
    destruct (tool_endpoint (procs s) c) as [ps c'] eqn:Hte. simpl in *.
    assert (j < length (calls s))%nat as Hj by (eapply lookup_lt_Some; eassumption).
    assert (exists app, main s = Up app) as [app Hup].
    { destruct Hmain as [Hnil | Happ]; [| exact Happ].
      rewrite Hnil in Hc. rewrite lookup_nil in Hc. discriminate. }
    rewrite Hup in *. simpl in Tn.
    split; unfold main_io; simpl; rewrite ?Hup.
    + destruct Tm as (p & Hp & Hi & Hk). exists p. split; [| auto].
      rewrite Hfr; [exact Hp | exact Hok | lia | eapply Th; eassumption].
    + intros i ci Hi. destruct (decide (i = j)) as [-> | Hne].
      * rewrite list_lookup_insert_eq in Hi by exact Hj. injection Hi as <-. exact Hio.
      * rewrite list_lookup_insert_ne in Hi by congruence.
        eapply call_io_frame; [| eapply Tc; exact Hi]. intros h Hs. apply Hfr.
        -- exact Hok.
        -- eapply call_ok_handle; [eapply Hcalls; exact Hi | exact Hs].
        -- eapply (Hown i j); eassumption.
    + intros i ci Hi. destruct (decide (i = j)) as [-> | Hne].
      * rewrite list_lookup_insert_eq in Hi by exact Hj. injection Hi as <-.
        intros Hs. destruct (Hh _ Hs) as [Hs' | [_ Hl]].
        -- eapply Th; eassumption.
        -- lia.
      * rewrite list_lookup_insert_ne in Hi by congruence. eapply Th; eassumption.
    + pose proof (filter_insert spawned (calls s) j c c' Hc) as Hf. simpl. lia.
    + exact Hlines.
  - (* Line *)
    split; unfold main_io; simpl.
    + destruct (main s) as [| h0 | app | ex] eqn:Hm.
      * destruct Tm as [-> ->]. split; reflexivity.
      * destruct Tm as (-> & Hc & p & Hp & Hi & Hk). split; [reflexivity |].
        split; [exact Hc |]. rewrite Hp.
        destruct h as [| h]; simpl; [| exists p; auto].
        eexists. split; [reflexivity |].
        destruct (read_lines_io raw p) as (-> & -> & _). auto.
      * destruct Tm as (p & Hp & Hi & Hk).
        destruct (alter_read_lines raw h 0 (procs s) p Hp) as (p' & Hp' & Hi' & Hk' & _).
        exists p'. rewrite Hi', Hk'. auto.
      * destruct Tm as (Hc & p & Hp & Hi & Hk). split; [exact Hc |]. rewrite Hp.
        destruct h as [| h]; simpl; [| exists p; auto].
        eexists. split; [reflexivity |].
        destruct (read_lines_io raw p) as (-> & -> & _). auto.
    + intros i c Hc. apply call_io_read. eapply Tc. exact Hc.
    + exact Th.
    + rewrite length_alter. exact Tn.
    + intros h' p Hp. destruct (decide (h = h')) as [-> | Hne].
      * rewrite list_lookup_alter_eq in Hp. destruct (procs s !! h') as [q |] eqn:Hq; [| discriminate].
        injection Hp as <-. destruct (read_lines_io raw q) as (-> & _). eapply Tl. exact Hq.
      * rewrite list_lookup_alter_ne in Hp by exact Hne. eapply Tl. exact Hp.
Qed.

Lemma tidy_run (evs : list event) (s : bridge) :
  invariant s -> tidy s -> invariant (run evs s) /\ tidy (run evs s).
Proof.
  revert s. induction evs as [| e evs IH]; intros s Hi Ht; [split; assumption |].
  rewrite run_cons. apply IH; [apply invariant_step; exact Hi | apply tidy_step; assumption].
Qed.

Lemma tidy_reached (evs : list event) : invariant (run evs initial) /\ tidy (run evs initial).
Proof. apply tidy_run; [apply invariant_initial | apply tidy_initial]. Qed.

End Tidying.

(** ** After the end of the output *)

Section Eof.
Context `{PythonRuntime}.

Lemma alter_exited (f : process -> process) (h h' : nat) (ps : list process) :
  (forall p, reader_exited p = true -> reader_exited (f p) = true) ->
  (exists p, ps !! h = Some p /\ reader_exited p = true) ->
  exists p, alter f h' ps !! h = Some p /\ reader_exited p = true.
Proof.
  intros Hf (p & Hp & He). destruct (decide (h' = h)) as [-> | Hne].
  - rewrite list_lookup_alter_eq, Hp. simpl. eauto.
  - rewrite list_lookup_alter_ne by exact Hne. eauto.
Qed.

Lemma snoc_exited (h : nat) (ps : list process) (q : process) :
  (exists p, ps !! h = Some p /\ reader_exited p = true) ->
  exists p, (ps ++ [q]) !! h = Some p /\ reader_exited p = true.
Proof.
  intros (p & Hp & He). exists p. split; [| exact He].
  rewrite lookup_app_l by (eapply lookup_lt_Some; eassumption). exact Hp.
Qed.

Lemma step_keeps_exited (s : bridge) (e : event) (h : nat) :
  exited s h -> exited (step s e) h.
Proof.
  unfold exited. intros He. destruct e as [| r | j | h' raw]; simpl.
  - unfold create_app. destruct (main s); try exact He.
    + simpl. apply snoc_exited. exact He.
    + destruct (buffer s h0); [exact He |]. destruct (describe s0) as [k o]. simpl.
      apply alter_exited; [| exact He]. intros p Hp. destruct k; exact Hp.
  - destruct (main s); exact He.
  - destruct (calls s !! j) as [c |]; [| exact He].
    destruct (tool_endpoint (procs s) c) as [ps c'] eqn:Hte. simpl.
    destruct c as [r | t i | h0 t i | h0 | h0 r]; simpl in Hte.
    + injection Hte as <- _. exact He.
    + injection Hte as <- _. apply snoc_exited. exact He.
    + destruct (procs s !! h0) as [p0 |]; [| injection Hte as <- _; exact He].
      destruct (stdout_buffer p0); injection Hte as <- _; [exact He |].
      apply alter_exited; [| exact He]. intros p Hp. exact Hp.
    + destruct (procs s !! h0) as [p0 |]; [| injection Hte as <- _; exact He].
      destruct (stdout_buffer p0); [injection Hte as <- _; exact He |].
      destruct (finish s0) as [k o]. injection Hte as <- _.
      apply alter_exited; [| exact He]. intros p Hp. destruct k; exact Hp.
    + injection Hte as <- _. exact He.
  - apply alter_exited; [| exact He]. intros p Hp. unfold read_lines. rewrite Hp. exact Hp.
Qed.

Lemma step_line_exited (s : bridge) (h : nat) (raw : str) :
  exited s h -> step s (Line h raw) = s.
Proof.
  intros (p & Hp & He). destruct s as [ps m cs]. simpl in *. f_equal.
  apply list_eq. intros i. destruct (decide (h = i)) as [-> | Hne].
  - rewrite list_lookup_alter_eq, Hp. simpl. unfold read_lines. rewrite He. reflexivity.
  - rewrite list_lookup_alter_ne by exact Hne. reflexivity.
Qed.

Lemma keeps_spinning_after_eof (evs : list event) (s : bridge) (t : thread) (h : nat) :
  polling s t = Some h ->
  buffer s h = [] ->
  exited s h ->
  standing (run evs s) t = standing s t /\ buffer (run evs s) h = [].
Proof.
  revert s. induction evs as [| e evs IH]; intros s Hp Hb He.
  - split; [reflexivity | exact Hb].
  - rewrite run_cons. destruct (line_of h e) eqn:El.
    + destruct e as [| | | h' raw]; try discriminate. simpl in El.
      apply Nat.eqb_eq in El as <-. rewrite step_line_exited by exact He.
      apply IH; assumption.
    + destruct (step_keeps_spinning s e t h Hp Hb El) as [Hs Hb'].
      destruct (IH (step s e)) as [Hs' Hb''].
      * rewrite (polling_standing _ _ _ Hs). exact Hp.
      * exact Hb'.
      * apply step_keeps_exited. exact He.
      * split; [congruence | exact Hb''].
Qed.

End Eof.

(** ** Printable text *)

Lemma hex_digit_printable (n : Z) : 0 <= n < 16 -> printable (hex_digit n).
Proof. unfold printable, hex_digit. intros Hn. destruct (n <? 10) eqn:E; lia. Qed.

Lemma hex2_printable (n : Z) : Forall printable (hex2 n).
Proof.
  unfold hex2. repeat constructor; apply hex_digit_printable; apply Z.mod_pos_bound; lia.
Qed.

Lemma hex4_printable (n : Z) : Forall printable (hex4 n).
Proof. unfold hex4. apply Forall_app. split; apply hex2_printable. Qed.

Lemma escape_char_printable (c : Z) : Forall printable (escape_char c).
Proof.
  unfold escape_char.
  repeat match goal with
         | |- context [if ?b then _ else _] => destruct b eqn:?
         end;
    repeat first [apply hex4_printable | apply hex2_printable | apply Forall_app; split
                 | constructor; [unfold printable; lia |] | apply Forall_nil_2 ].
Qed.

Lemma flat_map_printable (f : Z -> str) (s : str) :
  (forall c, Forall printable (f c)) -> Forall printable (flat_map f s).
Proof.
  intros Hf. induction s as [| c s IH]; simpl; [constructor |].
  apply Forall_app. split; [apply Hf | exact IH].
Qed.

Lemma dumps_str_printable (s : str) : Forall printable (dumps_str s).
Proof.
  unfold dumps_str. constructor; [unfold printable; lia |].
  apply Forall_app. split; [apply flat_map_printable, escape_char_printable |].
  repeat constructor; unfold printable; lia.
Qed.

Lemma join_printable (sep : str) (parts : list str) :
  Forall printable sep -> Forall (Forall printable) parts -> Forall printable (join sep parts).
Proof.
  intros Hsep Hparts. induction Hparts as [| p parts Hp _ IH]; [constructor |].
  destruct parts as [| q parts]; [exact Hp |].
  change (join sep (p :: q :: parts)) with (p ++ sep ++ join sep (q :: parts)).
  apply Forall_app. split; [exact Hp |]. apply Forall_app. split; assumption.
Qed.

Lemma decimal_printable (fuel : nat) (n : Z) : 0 <= n -> Forall printable (decimal fuel n []).
Proof.
  intros Hn. eapply Forall_impl; [apply decimal_digits; exact Hn |].
  intros c Hc. unfold is_digit in Hc. unfold printable. lia.
Qed.

Lemma str_of_int_printable (n : Z) : Forall printable (str_of_int n).
Proof.
  unfold str_of_int. destruct (n <? 0) eqn:E.
  - constructor; [unfold printable; lia |]. apply decimal_printable. lia.
  - apply decimal_printable. lia.
Qed.

Ltac printables :=
  spell; repeat first [apply Forall_nil_2 | apply Forall_cons_2; [unfold printable; lia |]].

Section Printable.
Context `{PythonRuntime}.

Lemma dumps_printable (v : json) : float_free v = true -> Forall printable (dumps v).
Proof.
  induction v as [| b | n | lit | s | l IH | d IH] using json_ind'; intros Hf.
  - simpl. printables.
  - destruct b; simpl; printables.
  - apply str_of_int_printable.
  - discriminate.
  - apply dumps_str_printable.
  - change (dumps (JList l)) with (91 :: join (u ", ") (map dumps l) ++ [93]).
    constructor; [unfold printable; lia |]. apply Forall_app. split.
    + apply join_printable; [printables |].
      simpl in Hf. rewrite forallb_forall in Hf.
      apply List.Forall_forall. intros x Hx. apply in_map_iff in Hx as (y & <- & Hy).
      rewrite List.Forall_forall in IH. apply IH; [exact Hy | apply Hf; exact Hy].
    + printables.
  - change (dumps (JDict d)) with (123 :: join (u ", ") (map member d) ++ [125]).
    constructor; [unfold printable; lia |]. apply Forall_app. split.
    + apply join_printable; [printables |].
      simpl in Hf. rewrite forallb_forall in Hf.
      apply List.Forall_forall. intros x Hx. apply in_map_iff in Hx as (y & <- & Hy).
      rewrite List.Forall_forall in IH. unfold member.
      apply Forall_app. split; [apply dumps_str_printable |].
      apply Forall_app. split; [printables |].
      apply IH; [exact Hy | apply Hf; exact Hy].
    + printables.
Qed.

Lemma wf_float_free (v : json) : wf v = true -> float_free v = true.
Proof.
  induction v as [| b | n | lit | s | l IH | d IH] using json_ind'; intros Hw; try reflexivity.
  - discriminate.
  - simpl in *. rewrite forallb_forall in *. rewrite List.Forall_forall in IH.
    intros x Hx. apply IH; [exact Hx | apply Hw; exact Hx].
  - simpl in *. apply andb_true_iff in Hw as [Hw _]. rewrite forallb_forall in *.
    rewrite List.Forall_forall in IH.
    intros x Hx. apply IH; [exact Hx |]. specialize (Hw x Hx).
    apply andb_true_iff in Hw as [_ Hw]. exact Hw.
Qed.

Lemma tool_call_float_free (tool : str) (input_data : list (str * str)) :
  float_free (tool_call tool input_data) = true.
Proof.
  unfold tool_call. simpl. rewrite andb_true_r.
  induction input_data as [| kv l IH]; [reflexivity | exact IH].
Qed.

Lemma request_line_printable (line : str) :
  request_line line -> exists text, line = text ++ [10] /\ Forall printable text.
Proof.
  intros (tool & input_data & ->). eexists. split; [reflexivity |].
  apply dumps_printable, tool_call_float_free.
Qed.

(* finish *)
Lemma finish_spares (l : str) :
  (finish l).1 = false <->
  (exists e, loads l = Raise e /\ e <> JSONDecodeError) \/
  (exists v, loads l = Ok v /\ forall d, v <> JDict d).
Proof.
  unfold finish. destruct (loads l) as [v | e]; simpl.
  - destruct v; simpl; split;
      try (intros _; right; eexists; split; [reflexivity | discriminate]);
      try reflexivity.
    + destruct (_ || _); discriminate.
    + intros [(e & [=] & _) | (v & [= <-] & Hv)]. exfalso. eapply Hv. reflexivity.
  - destruct e; simpl; split;
      try (intros _; left; eexists; split; [reflexivity | discriminate]);
      try reflexivity.
    + discriminate.
    + intros [(e & [= <-] & He) | (v & [=] & _)]. congruence.
Qed.

Lemma finish_spared (l : str) :
  (finish l).1 = false -> respond (finish l).2 = {| status := 500; payload := ServerError |}.
Proof.
  unfold finish. destruct (loads l) as [v | e] eqn:El; simpl.
  - destruct v; simpl; try reflexivity. destruct (_ || _); discriminate.
  - destruct (loads_raises _ _ El) as [-> | ->]; [discriminate | reflexivity].
Qed.

Lemma is_text_eq (s : str) (o : json) : is_text s o = true <-> o = JStr s.
Proof.
  destruct o; simpl; split; try discriminate.
  - intros Hs. apply str_eqb_eq in Hs. congruence.
  - intros [= ->]. apply str_eqb_eq. reflexivity.
Qed.

Lemma respond_finish (l : str) :
  (status (respond (finish l).2) = 200 \/ status (respond (finish l).2) = 500) /\
  (status (respond (finish l).2) = 200 ->
   exists d output, loads l = Ok (JDict d) /\
     dict_get (u "type") d = Some (JStr (u "tool-result")) /\
     dict_get (u "output") d = Some output /\
     respond (finish l).2 =
       {| status := 200; payload := Output (jsonable_encoder output) |}).
Proof.
  unfold finish. destruct (loads l) as [v | e] eqn:El; cbn [snd].
  2: { destruct (loads_raises _ _ El) as [-> | ->]; cbn [respond status];
         (split; [auto | discriminate]). }
  destruct v as [| | | | | | d]; cbn [snd respond status]; try (split; [auto | discriminate]).
  destruct (dict_get (u "type") d) as [t |] eqn:Et; cbn [negb orb snd respond status];
    [| split; [auto | discriminate]].
  destruct (is_text (u "tool-result") t) eqn:Ett; cbn [negb orb snd respond status];
    [| split; [auto | discriminate]].
  apply is_text_eq in Ett as ->.
  unfold dict_has. destruct (dict_get (u "output") d) as [output |] eqn:Eo;
    cbn [negb orb snd respond status subscript]; rewrite ?Eo; cbn [respond status].
  - destruct (renders (jsonable_encoder output)); cbn [status].
    + split; [auto |]. intros _. exists d, output. auto.
    + split; [auto | discriminate].
  - split; [auto | discriminate].
Qed.

End Printable.

(** ** Lines *)

Lemma universal_newlines_id (s : str) : ~ In 13 s -> universal_newlines s = s.
Proof.
  induction s as [| c s IH]; simpl; [reflexivity |].
  intros Hn. destruct (c =? 13) eqn:E; [exfalso; apply Hn; left; lia |].
  f_equal. apply IH. tauto.
Qed.

Lemma readlines_one (s : str) : s <> [] -> ~ In 10 s -> readlines s = [s].
Proof.
  induction s as [| c s IH]; [congruence |]. intros _ Hn. simpl.
  destruct (c =? 10) eqn:E; [exfalso; apply Hn; left; lia |].
  destruct s as [| c' s]; [reflexivity |].
  rewrite IH; [reflexivity | discriminate | simpl in *; tauto].
Qed.

Lemma split_one (s : str) : ~ In 10 s -> split 10 s = [s].
Proof.
  induction s as [| c s IH]; [reflexivity |]. intros Hn. simpl.
  destruct (c =? 10) eqn:E; [exfalso; apply Hn; left; lia |].
  rewrite IH by (simpl in *; tauto). reflexivity.
Qed.

Lemma split_line (a b : str) : ~ In 10 a -> split 10 (a ++ 10 :: b) = a :: split 10 b.
Proof.
  induction a as [| c a IH]; [reflexivity |]. intros Hn. simpl.
  destruct (c =? 10) eqn:E; [exfalso; apply Hn; left; lia |].
  rewrite IH by (simpl in *; tauto). reflexivity.
Qed.

Lemma printable_no_newline (s : str) : Forall printable s -> ~ In 10 s /\ ~ In 13 s.
Proof.
  intros Hs. rewrite List.Forall_forall in Hs.
  split; intros Hin; apply Hs in Hin; unfold printable in Hin; lia.
Qed.

Lemma strip_keep (c c' : Z) (r r' : str) :
  c :: r = r' ++ [c'] -> isspace c = false -> isspace c' = false ->
  strip ((c :: r) ++ [10]) = c :: r.
Proof.
  intros Hs Hc Hc'. unfold strip. cbn [app]. rewrite lstrip_keep by exact Hc.
  change (c :: r ++ [10]) with ((c :: r) ++ [10]). rewrite Hs, !rev_app_distr. cbn [rev app].
  change (lstrip (10 :: c' :: rev r')) with (lstrip (c' :: rev r')).
  rewrite lstrip_keep by exact Hc'. cbn [rev]. rewrite rev_involutive. reflexivity.
Qed.

Lemma lstrip_spaces (s : str) : forallb isspace s = true -> lstrip s = [].
Proof.
  induction s as [| c s IH]; simpl; [reflexivity |].
  intros Hs. apply andb_true_iff in Hs as [-> Hs]. apply IH. exact Hs.
Qed.

Lemma reader_stays_out (raws : list str) (q : process) :
  reader_exited q = true -> fold_left (fun p raw => read_lines raw p) raws q = q.
Proof.
  revert q. induction raws as [| raw raws IH]; intros q Hq; cbn [fold_left]; [reflexivity |].
  unfold read_lines at 2. rewrite Hq. apply IH. exact Hq.
Qed.

Lemma str_eqb_neq (a b : str) : a <> b -> str_eqb a b = false.
Proof.
  intros Hne. destruct (str_eqb a b) eqn:E; [| reflexivity].
  apply str_eqb_eq in E. congruence.
Qed.

(** ** The loop of a tool *)

Section Served.
Context `{PythonRuntime} `{Interpreter} {world : Type}.
Variable describe_tools : json.
Variable handle_call : world -> json -> json -> result json.

Lemma loads_printed (v : json) : wf v = true -> loads (print_json v) = Ok v.
Proof. intros Hw. apply loads_line; [exact Hw | reflexivity | reflexivity]. Qed.

Lemma loads_dumps (v : json) : wf v = true -> loads (dumps v) = Ok v.
Proof.
  intros Hw. rewrite <- (app_nil_r (dumps v)). apply loads_line; [exact Hw | reflexivity | reflexivity].
Qed.

Lemma strip_printed (v : json) : wf v = true -> strip (print_json v) = dumps v.
Proof. apply strip_line. Qed.

Lemma answer_call (w : world) (tool : str) (input output : json) :
  wf (to_json (ToolCall tool input)) = true ->
  handle_call w (JStr tool) input = Ok output ->
  answer handle_call w (encode (ToolCall tool input)) = Some (to_json (ToolResult output)).
Proof.
  intros Hw Hh. unfold answer, encode.
  change (dumps (to_json (ToolCall tool input)) ++ [10])
    with (print_json (to_json (ToolCall tool input))).
  rewrite loads_printed by exact Hw.
  change (get (to_json (ToolCall tool input)) (u "type") JNull) with (Ok (JStr (u "tool-call"))).
  change (Ok (JStr (u "tool-call")) ≫= ?f) with (f (JStr (u "tool-call"))).
  cbv beta.
  change (is_text (u "tool-call") (JStr (u "tool-call"))) with true. cbv iota.
  change (subscript (to_json (ToolCall tool input)) (u "tool")) with (Ok (JStr tool)).
  change (subscript (to_json (ToolCall tool input)) (u "input")) with (Ok input).
  change (Ok (JStr tool) ≫= ?f) with (f (JStr tool)). cbv beta.
  change (Ok input ≫= ?f) with (f input). cbv beta.
  rewrite Hh. reflexivity.
Qed.

Lemma tool_main_snoc (served : list (world * str)) (w : world) (line : str) :
  tool_main describe_tools handle_call (served ++ [(w, line)]) =
  tool_main describe_tools handle_call served ++
    match answer handle_call w line with
    | Some doc => [print_json doc]
    | None => []
    end.
Proof.
  unfold tool_main. rewrite omap_app. simpl. destruct (answer handle_call w line); reflexivity.
Qed.

Lemma answer_silent (w : world) (line : str) :
  answer handle_call w line = None <->
  exists d, loads line = Ok (JDict d) /\ dict_get (u "type") d <> Some (JStr (u "tool-call")).
Proof.
  unfold answer. destruct (loads line) as [msg | ex];
    [| split; [intros Hx; discriminate Hx | intros (d & Hd & _); discriminate Hd]].
  destruct msg as [| b | n | lit | s | l | d];
    try (split; [intros Hx; discriminate Hx | intros (d' & Hd' & _); discriminate Hd']).
  unfold get, mbind, result_bind.
  destruct (dict_get (u "type") d) as [ty |] eqn:Et.
  - destruct (is_text (u "tool-call") ty) eqn:Ett.
    + apply is_text_eq in Ett as ->. split.
      * destruct (subscript (JDict d) (u "tool")) as [tool |]; [| intros Hx; discriminate Hx].
        destruct (subscript (JDict d) (u "input")) as [input |]; [| intros Hx; discriminate Hx].
        destruct (handle_call w tool input); intros Hx; discriminate Hx.
      * intros (d' & [= <-] & Hne). congruence.
    + split; [| reflexivity]. intros _. exists d. split; [reflexivity |].
      rewrite Et. intros [= ->]. rewrite (proj2 (is_text_eq _ _) eq_refl) in Ett. discriminate.
  - split; [| reflexivity]. intros _. exists d. split; [reflexivity | rewrite Et; discriminate].
Qed.

Lemma answer_read (w : world) (line tool : str) (input : json) :
  loads line = Ok (to_json (ToolCall tool input)) ->
  answer handle_call w line =
  Some (match handle_call w (JStr tool) input with
        | Ok output => to_json (ToolResult output)
        | Raise e => to_json (Error (str_exn line e))
        end).
Proof.
  intros Hl. unfold answer. rewrite Hl.
  change (get (to_json (ToolCall tool input)) (u "type") JNull) with (Ok (JStr (u "tool-call"))).
  change (Ok (JStr (u "tool-call")) ≫= ?f) with (f (JStr (u "tool-call"))).
  cbv beta.
  change (is_text (u "tool-call") (JStr (u "tool-call"))) with true. cbv iota.
  change (subscript (to_json (ToolCall tool input)) (u "tool")) with (Ok (JStr tool)).
  change (subscript (to_json (ToolCall tool input)) (u "input")) with (Ok input).
  change (Ok (JStr tool) ≫= ?f) with (f (JStr tool)). cbv beta.
  change (Ok input ≫= ?f) with (f input). cbv beta.
  destruct (handle_call w (JStr tool) input); reflexivity.
Qed.

Lemma dumps_plain (v : json) : wf v = true -> dumps v <> [] /\ ~ In 10 (dumps v) /\ ~ In 13 (dumps v).
Proof.
  intros Hw. split.
  - destruct (dumps_head v Hw) as (c & r & -> & _). discriminate.
  - apply printable_no_newline, dumps_printable, wf_float_free, Hw.
Qed.

(** What the parent finds in the output of a tool that was given one
    message. *)
Lemma served_once (w : world) (tool : str) (input doc : json) :
  wf describe_tools = true ->
  wf (to_json (ToolCall tool input)) = true ->
  answer handle_call w (dumps (to_json (ToolCall tool input))) = Some doc ->
  wf doc = true ->
  split 10 (strip (stdout (tool_process describe_tools handle_call w
                             (dumps (to_json (ToolCall tool input)))))) =
  [dumps describe_tools; dumps doc].
Proof.
  intros Hd Hc Ha Hw.
  destruct (dumps_plain _ Hd) as (_ & Hd10 & Hd13).
  destruct (dumps_plain _ Hc) as (Hcne & Hc10 & _).
  destruct (dumps_plain _ Hw) as (_ & Hw10 & Hw13).
  unfold tool_process. cbn [stdout]. rewrite readlines_one by assumption.
  unfold tool_main. cbn [map omap list_omap fst snd]. rewrite Ha. cbn [fmap option_fmap option_map concat].
  unfold print_json. rewrite app_nil_r.
  rewrite universal_newlines_id.
  2:{ rewrite !in_app_iff. simpl. intuition lia. }
  destruct (dumps_head _ Hd) as (c & r & Hh & Hop).
  destruct (opener_not_space c Hop) as [_ Hsp].
  destruct (dumps_last _ Hw) as (r' & c' & Hlast & Hsp').
  replace ((dumps describe_tools ++ [10]) ++ dumps doc ++ [10])
    with ((c :: r ++ 10 :: r' ++ [c']) ++ [10])
    by (rewrite Hh, Hlast; repeat (cbn [app]; rewrite <- ?app_assoc); reflexivity).
  rewrite (strip_keep c c' (r ++ 10 :: r' ++ [c']) (c :: r ++ 10 :: r')) by
    (assumption || (cbn [app]; rewrite <- app_assoc; reflexivity)).
  change (c :: r ++ 10 :: r' ++ [c']) with ((c :: r) ++ 10 :: r' ++ [c']).
  rewrite <- Hh, <- Hlast. rewrite split_line by exact Hd10.
  rewrite split_one by exact Hw10. reflexivity.
Qed.

Lemma main_silent (served : list (world * str)) (w : world) (line : str) :
  tool_main describe_tools handle_call (served ++ [(w, line)]) =
    tool_main describe_tools handle_call served <->
  exists d, loads line = Ok (JDict d) /\ dict_get (u "type") d <> Some (JStr (u "tool-call")).
Proof.
  rewrite tool_main_snoc, <- (answer_silent w line).
  destruct (answer handle_call w line) as [doc |]; split; try discriminate.
  - intros Heq. apply (f_equal length) in Heq. rewrite length_app in Heq. simpl in Heq. lia.
  - reflexivity.
  - intros _. apply app_nil_r.
Qed.

End Served.

(** ** One call at a time *)

Section InSequence.
Context `{PythonRuntime}.
#[local] Arguments dumps : simpl never.
#[local] Arguments strip : simpl never.
#[local] Arguments finish : simpl never.
#[local] Arguments respond : simpl never.
#[local] Arguments dispatch : simpl never.
#[local] Arguments describe : simpl never.
#[local] Arguments loads : simpl never.

Lemma lookup_snoc {A : Type} (l : list A) (x : A) : (l ++ [x]) !! length l = Some x.
Proof. rewrite lookup_app_r by lia. rewrite Nat.sub_diag. reflexivity. Qed.

Lemma alter_snoc {A : Type} (f : A -> A) (l : list A) (x : A) :
  alter f (length l) (l ++ [x]) = l ++ [f x].
Proof.
  induction l as [| a l IH]; simpl; [reflexivity |]. f_equal. exact IH.
Qed.

Lemma insert_snoc {A : Type} (l : list A) (x y : A) : <[length l := y]> (l ++ [x]) = l ++ [y].
Proof.
  induction l as [| a l IH]; simpl; [reflexivity |]. f_equal. exact IH.
Qed.

(** The bridge after discovery on a description. *)
Lemma discovered (v : json) (app : list endpoint) :
  wf v = true ->
  describe (dumps v) = (true, Ok app) ->
  run [Main; Line 0 (print_json v); Main] initial =
  {| procs := [{| killed := true; stdin := []; stdout_buffer := []; reader_exited := false;
                  stdout_seen := [dumps v] |}];
     main := Up app; calls := [] |}.
Proof.
  intros Hw Hd. unfold run, print_json. simpl.
  assert (dumps v ++ [10] <> []) as Hne by (destruct (dumps v); discriminate).
  unfold read_lines. simpl. destruct (dumps v ++ [10]) eqn:E; [congruence |]. rewrite <- E.
  unfold create_app, buffer. simpl.
  change (dumps v ++ [10]) with (print_json v). rewrite strip_printed by exact Hw.
  rewrite Hd. reflexivity.
Qed.

Lemma step_http (ps : list process) (eps : list endpoint) (cs : list call) (r : request) :
  step {| procs := ps; main := Up eps; calls := cs |} (Http r) =
  {| procs := ps; main := Up eps; calls := cs ++ [dispatch eps r] |}.
Proof. reflexivity. Qed.

Lemma step_spawn (ps : list process) (m : boot) (cs : list call) (tool : str)
    (input_data : list (str * str)) :
  step {| procs := ps; main := m; calls := cs ++ [Starting tool input_data] |}
       (Tick (length cs)) =
  {| procs := ps ++ [Popen]; main := m;
     calls := cs ++ [AwaitingDescription (length ps) tool input_data] |}.
Proof.
  cbn [step calls procs main]. rewrite lookup_snoc. cbn [tool_endpoint].
  rewrite insert_snoc. reflexivity.
Qed.

Lemma step_line (ps : list process) (m : boot) (cs : list call) (p : process) (raw : str) :
  reader_exited p = false -> raw <> [] ->
  step {| procs := ps ++ [p]; main := m; calls := cs |} (Line (length ps) raw) =
  {| procs := ps ++ [{| killed := killed p; stdin := stdin p;
                        stdout_buffer := stdout_buffer p ++ [strip raw];
                        reader_exited := false;
                        stdout_seen := stdout_seen p ++ [strip raw] |}];
     main := m; calls := cs |}.
Proof.
  intros Hp Hr. cbn [step calls procs main]. rewrite alter_snoc.
  unfold read_lines. rewrite Hp. destruct raw; [congruence | reflexivity].
Qed.

Lemma step_write (ps : list process) (m : boot) (cs : list call) (p : process)
    (tool : str) (input_data : list (str * str)) (first : str) (rest : list str) :
  stdout_buffer p = first :: rest ->
  step {| procs := ps ++ [p]; main := m;
          calls := cs ++ [AwaitingDescription (length ps) tool input_data] |}
       (Tick (length cs)) =
  {| procs := ps ++ [write (dumps (tool_call tool input_data) ++ [10]) (pop0 p)]; main := m;
     calls := cs ++ [AwaitingResult (length ps)] |}.
Proof.
  intros Hb. cbn [step calls procs main]. rewrite lookup_snoc. cbn [tool_endpoint].
  rewrite lookup_snoc, Hb, alter_snoc, insert_snoc. reflexivity.
Qed.

Lemma step_answer (ps : list process) (m : boot) (cs : list call) (p : process)
    (result_line : str) (rest : list str) :
  stdout_buffer p = result_line :: rest ->
  calls (step {| procs := ps ++ [p]; main := m; calls := cs ++ [AwaitingResult (length ps)] |}
              (Tick (length cs))) =
  cs ++ [Answered (length ps) (respond (finish result_line).2)].
Proof.
  intros Hb. cbn [step calls procs main]. rewrite lookup_snoc. cbn [tool_endpoint].
  rewrite lookup_snoc, Hb. destruct (finish result_line) as [k o].
  cbn [calls]. rewrite insert_snoc. reflexivity.
Qed.

(** One call served with nothing else going on: the line written once the
    first line has come, and the answer once the second has. *)
Lemma call_in_sequence (s : bridge) (eps : list endpoint) (r : request)
    (tool : str) (input_data : list (str * str)) (first second : str) :
  main s = Up eps ->
  dispatch eps r = Starting tool input_data ->
  first <> [] -> second <> [] ->
  stdin <$> procs (run [Http r; Tick (length (calls s)); Line (length (procs s)) first;
                        Tick (length (calls s))] s) !! length (procs s) =
    Some [dumps (tool_call tool input_data) ++ [10]] /\
  calls (run [Http r; Tick (length (calls s)); Line (length (procs s)) first;
              Tick (length (calls s)); Line (length (procs s)) second;
              Tick (length (calls s))] s) !! length (calls s) =
    Some (Answered (length (procs s)) (respond (finish (strip second)).2)).
Proof.
  intros Hm Hd Hf Hs. destruct s as [ps m cs]. cbn [main procs calls] in *. subst m.
  rewrite !run_cons, step_http, Hd, step_spawn.
  rewrite step_line by (reflexivity || assumption).
  erewrite step_write by reflexivity.
  split; [cbn [run fold_left procs]; rewrite lookup_snoc; reflexivity |].
  rewrite step_line by (reflexivity || assumption).
  cbn [run fold_left]. erewrite step_answer by reflexivity.
  rewrite lookup_snoc. reflexivity.
Qed.

Lemma wf_message_result (output : json) :
  wf output = true -> wf (to_json (ToolResult output)) = true.
Proof. intros Hw. cbn. rewrite Hw. reflexivity. Qed.

Lemma wf_message_call (tool : str) (input : json) :
  wf_str tool = true -> wf input = true -> wf (to_json (ToolCall tool input)) = true.
Proof. intros Ht Hi. cbn. rewrite Ht, Hi. reflexivity. Qed.

Lemma finish_result (output : json) :
  wf output = true ->
  finish (strip (print_json (to_json (ToolResult output)))) = (true, Ok output).
Proof.
  intros Hw. rewrite strip_printed by (apply wf_message_result; exact Hw).
  unfold finish. rewrite loads_dumps by (apply wf_message_result; exact Hw). reflexivity.
Qed.

Lemma weather_discovered :
  reserved (u "location") = false ->
  run [Main; Line 0 (print_json WeatherServer.describe_tools); Main] initial =
  {| procs := [{| killed := true; stdin := []; stdout_buffer := []; reader_exited := false;
                  stdout_seen := [dumps WeatherServer.describe_tools] |}];
     main := Up [forecast_endpoint]; calls := [] |}.
Proof.
  intros Hr. apply discovered; [reflexivity |].
  unfold describe. rewrite loads_dumps by reflexivity.
  vm_compute in Hr. vm_compute. rewrite Hr. reflexivity.
Qed.

Lemma print_json_not_empty (v : json) : print_json v <> [].
Proof. unfold print_json. destruct (dumps v); discriminate. Qed.

Lemma time_discovered :
  reserved (u "location") = false ->
  run [Main; Line 0 (print_json TimeTool.describe_tools); Main] initial =
  {| procs := [{| killed := true; stdin := []; stdout_buffer := []; reader_exited := false;
                  stdout_seen := [dumps TimeTool.describe_tools] |}];
     main := Up [time_endpoint]; calls := [] |}.
Proof.
  intros Hr. apply discovered; [reflexivity |].
  unfold describe. rewrite loads_dumps by reflexivity.
  vm_compute in Hr. vm_compute. rewrite Hr. reflexivity.
Qed.

End InSequence.

(** ** The tools and the Flask server *)

Lemma choice_in {A : Type} `{Inhabited A} (w : WeatherServer.world) (seq : list A) :
  seq <> [] -> In (WeatherServer.choice w seq) seq.
Proof.
  intros Hne. unfold WeatherServer.choice.
  assert (WeatherServer.randbelow w (length seq) `mod` length seq < length seq)%nat as Hlt.
  { apply Nat.mod_upper_bound. destruct seq; [congruence | simpl; lia]. }
  apply lookup_lt_is_Some_2 in Hlt as [x Hx]. rewrite Hx. simpl.
  apply list_elem_of_In. eapply list_elem_of_lookup_2. exact Hx.
Qed.

Lemma in_range (a b x : Z) : In x (range a b) -> a <= x < b.
Proof.
  unfold range. intros Hin. apply in_map_iff in Hin as (i & <- & Hi).
  apply in_seq in Hi. lia.
Qed.

Lemma register_all_fails `{PythonRuntime} (tools : list json) (tool : json) (e : exn) :
  In tool tools -> register tool = Raise e -> exists e', register_all tools = Raise e'.
Proof.
  induction tools as [| t tools IH]; simpl; [contradiction |].
  intros [-> | Hin] He.
  - rewrite He. simpl. eauto.
  - destruct (register t) as [x | ex]; simpl; [| eauto].
    destruct (IH Hin He) as [e' ->]. simpl. eauto.
Qed.

Section Tools.
Context `{PythonRuntime} `{Interpreter} `{Calendar}.

Lemma get_forecast_shape (w : WeatherServer.world) (location : json) :
  exists about,
    WeatherServer.get_forecast w location =
    JDict [(u "location", location);
           (u "forecast", JStr (about ++ 176 :: u "F in " ++ str_of location))].
Proof.
  assert (forall desc temp, WeatherServer.forecast desc temp location =
            (str_of desc ++ u " and " ++ str_of temp) ++ 176 :: u "F in " ++ str_of location)
    as Hf by (intros; unfold WeatherServer.forecast; rewrite <- !app_assoc; reflexivity).
  unfold WeatherServer.get_forecast, WeatherServer.mock.
  destruct (WeatherServer.requests_get w _ []) as [response |]; [| eexists; rewrite Hf; reflexivity].
  destruct (status_code response =? 200); [| eexists; rewrite Hf; reflexivity].
  destruct (json_body response ≫= WeatherServer.current) as [[temp desc] |];
    eexists; rewrite Hf; reflexivity.
Qed.

Lemma get_time_shape (w : TimeTool.world) (location : json) :
  exists timezone time date,
    TimeTool.get_time w location =
    JDict [(u "location", location); (u "timezone", timezone);
           (u "time", JStr time); (u "date", JStr date)].
Proof.
  unfold TimeTool.get_time, TimeTool.try_get_time.
  destruct (TimeTool.get_coordinates w location) as [[lat lon] |]; [| eauto].
  destruct (TimeTool.get_time_by_coordinates w lat lon) as [current_time timezone_id].
  destruct (negb (truthy current_time) || negb (truthy timezone_id)); [eauto |].
  destruct current_time; eauto.
  destruct (fromisoformat _); eauto.
Qed.

Lemma wf_location_of_forecast (w : WeatherServer.world) (location : json) :
  wf (WeatherServer.get_forecast w location) = true -> wf location = true.
Proof.
  intros Hw. destruct (get_forecast_shape w location) as [about Ha].
  rewrite Ha in Hw. cbn in Hw. apply andb_true_iff in Hw as [Hw _].
  apply andb_true_iff in Hw as [Hw _]. exact Hw.
Qed.

Lemma wf_location_of_time (w : TimeTool.world) (location : json) :
  wf (TimeTool.get_time w location) = true -> wf location = true.
Proof.
  intros Hw. destruct (get_time_shape w location) as (tz & t & dt & Ha).
  rewrite Ha in Hw. cbn in Hw. apply andb_true_iff in Hw as [Hw _].
  apply andb_true_iff in Hw as [Hw _]. exact Hw.
Qed.

Lemma tool_result_of_result (output : json) :
  wf output = true ->
  McpServer.tool_result (dumps (to_json (ToolResult output))) = Some output.
Proof.
  intros Hw. unfold McpServer.tool_result.
  rewrite loads_dumps by (apply wf_message_result; exact Hw). reflexivity.
Qed.

Lemma tool_result_of_error (text : str) :
  wf_str text = true -> McpServer.tool_result (dumps (to_json (Error text))) = None.
Proof.
  intros Hw. unfold McpServer.tool_result.
  rewrite loads_dumps by (cbn; rewrite Hw; reflexivity). reflexivity.
Qed.

Lemma first_result_skips (before : list str) (rest : list str) :
  Forall (fun l => McpServer.tool_result l = None) before ->
  McpServer.first_result (before ++ rest) = McpServer.first_result rest.
Proof.
  intros Hb. induction Hb as [| l before Hl _ IH]; [reflexivity |].
  cbn [app McpServer.first_result]. rewrite Hl. exact IH.
Qed.

End Tools.

(** * Further properties *)

Section Further.
Context `{PythonRuntime} `{Interpreter} `{Calendar}.

(** X1. [read_lines] (lines 33 to 39). A reader that has not left its loop
    appends to the buffer the stripped form of every line it reads, in
    order, up to the first empty read; it appends nothing after that, and
    it has left its loop exactly when an empty read has come. *)
Theorem reader_keeps_the_lines_until_the_end (raws : list str) (p : process) :
  reader_exited p = false ->
  stdout_buffer (fold_left (fun p raw => read_lines raw p) raws p) =
    stdout_buffer p ++ map strip (until_eof raws) /\
  (reader_exited (fold_left (fun p raw => read_lines raw p) raws p) = true <-> In [] raws).
Proof.
  revert p. induction raws as [| raw raws IH]; intros p Hp; cbn [fold_left until_eof map].
  - rewrite app_nil_r, Hp. split; [reflexivity |]. split; [discriminate | contradiction].
  - destruct raw as [| c raw].
    + rewrite reader_stays_out by (unfold read_lines; rewrite Hp; reflexivity).
      unfold read_lines. rewrite Hp. cbn [stdout_buffer reader_exited map].
      rewrite app_nil_r. split; [reflexivity |]. split; [left; reflexivity | reflexivity].
    + destruct (IH (read_lines (c :: raw) p)) as [Hb He];
        [unfold read_lines; rewrite Hp; reflexivity |].
      rewrite Hb, He. unfold read_lines at 1. rewrite Hp. cbn [stdout_buffer map].
      rewrite <- app_assoc. split; [reflexivity |].
      split; [right; assumption |]. intros [Hc | Hin]; [discriminate | exact Hin].
Qed.

(** X2. [read_lines] and [create_app] (lines 39 and 85 to 94). A first line
    that holds white space only, such as a bare newline, is stored as the
    empty text; the buffer is then not empty, so the wait ends, the text
    is not JSON, and [create_app] kills the subprocess and raises the
    [RuntimeError]. *)
Theorem blank_first_line_fails_startup (raw : str) :
  raw <> [] ->
  forallb isspace raw = true ->
  main (run [Main; Line 0 raw; Main] initial) = Failed RuntimeError /\
  killed <$> procs (run [Main; Line 0 raw; Main] initial) !! 0%nat = Some true.
Proof.
  intros Hne Hsp. destruct raw as [| c raw]; [congruence |].
  assert (strip (c :: raw) = []) as Hs
    by (unfold strip; rewrite (lstrip_spaces (c :: raw) Hsp); reflexivity).
  unfold run. cbn [fold_left step initial create_app main procs calls buffer].
  cbn [app length alter list_alter lookup list_lookup Popen read_lines reader_exited].
  rewrite Hs. split; reflexivity.
Qed.

(** X3. [read_lines] and the waits (lines 37 to 38, 85, 138 and 152). The
    end of the output of a subprocess is not told to the thread that
    waits for it: once the reader has left its loop with the buffer empty,
    the waiting thread, [create_app] or a call, stands where it stood
    under every schedule, whatever is read or done afterwards. *)
Theorem end_of_output_is_never_noticed
    (evs : list event) (s : bridge) (t : thread) (h : nat) :
  polling s t = Some h ->
  buffer s h = [] ->
  exited s h ->
  standing (run evs s) t = standing s t /\ buffer (run evs s) h = [].
Proof. apply keeps_spinning_after_eof. Qed.

(** X4. [create_app] (lines 88 to 96). A first line that is JSON but not an
    object (a list, a number, text) makes [desc.get] raise
    [AttributeError], which the handler for [JSONDecodeError] does not
    catch: [create_app] ends with that exception and the subprocess is left
    as it was, not killed. *)
Theorem first_line_not_an_object_is_not_caught
    (s : bridge) (h : nat) (p : process) (first_line : str) (rest : list str) (v : json) :
  main s = Describing h ->
  procs s !! h = Some p ->
  stdout_buffer p = first_line :: rest ->
  loads first_line = Ok v ->
  (forall d, v <> JDict d) ->
  main (step s Main) = Failed AttributeError /\
  killed <$> procs (step s Main) !! h = Some (killed p).
Proof.
  intros Hm Hp Hb Hl Hv. simpl. unfold create_app, buffer. rewrite Hm, Hp, Hb.
  unfold describe. rewrite Hl.
  assert (get v (u "tools") (JList []) = Raise AttributeError) as ->.
  { destruct v; try reflexivity. exfalso. eapply Hv. reflexivity. }
  simpl. split; [reflexivity |]. rewrite list_lookup_alter_eq, Hp. reflexivity.
Qed.

(** X5. [create_app] (lines 91 to 102). When the [tools] entry of the
    description is not a list, the subprocess is still killed first; an
    empty text or an empty object then gives an application with no
    endpoint, and anything else (a number, [null], text or an object that
    is not empty) raises [TypeError], from the loop or from
    [tool["name"]]. *)
Theorem tools_that_are_no_list
    (s : bridge) (h : nat) (p : process) (first_line : str) (rest : list str)
    (d : list (str * json)) (tools : json) :
  main s = Describing h ->
  procs s !! h = Some p ->
  stdout_buffer p = first_line :: rest ->
  loads first_line = Ok (JDict d) ->
  dict_get (u "tools") d = Some tools ->
  (forall l, tools <> JList l) ->
  killed <$> procs (step s Main) !! h = Some true /\
  (tools = JStr [] \/ tools = JDict [] -> main (step s Main) = Up []) /\
  (tools <> JStr [] -> tools <> JDict [] -> main (step s Main) = Failed TypeError).
Proof.
  intros Hm Hp Hb Hl Ht Hnl. simpl. unfold create_app, buffer. rewrite Hm, Hp, Hb.
  unfold describe. rewrite Hl. simpl. rewrite Ht. simpl.
  split; [rewrite list_lookup_alter_eq, Hp; reflexivity |]. split.
  - intros [-> | ->]; reflexivity.
  - intros Hs Hd. destruct tools as [| b | n | lit | t | l | kvs]; try reflexivity.
    + destruct t as [| c t]; [congruence | reflexivity].
    + exfalso. eapply Hnl. reflexivity.
    + destruct kvs as [| [k v] kvs]; [congruence | reflexivity].
Qed.

(** X6. [create_app] (lines 96 to 117). Registration is all or nothing: if
    any tool of the description cannot be registered, [create_app] raises
    (after it has killed the subprocess), so no endpoint is served, not
    even for the tools described well. *)
Theorem one_bad_tool_fails_startup
    (s : bridge) (h : nat) (p : process) (first_line : str) (rest : list str)
    (d : list (str * json)) (tools : list json) (tool : json) (e : exn) :
  main s = Describing h ->
  procs s !! h = Some p ->
  stdout_buffer p = first_line :: rest ->
  loads first_line = Ok (JDict d) ->
  dict_get (u "tools") d = Some (JList tools) ->
  In tool tools ->
  register tool = Raise e ->
  exists e', main (step s Main) = Failed e' /\
    killed <$> procs (step s Main) !! h = Some true.
Proof.
  intros Hm Hp Hb Hl Ht Hin He. simpl. unfold create_app, buffer. rewrite Hm, Hp, Hb.
  unfold describe. rewrite Hl. simpl. rewrite Ht. simpl.
  destruct (register_all_fails tools tool e Hin He) as [e' ->].
  exists e'. split; [reflexivity |]. rewrite list_lookup_alter_eq, Hp. reflexivity.
Qed.

(** X7. [create_app] (lines 100 to 117). An input schema without
    [properties] counts as one with none: the tool is registered with an
    empty request model, its endpoint accepts every JSON object as a body,
    and the input handed on is empty. The name of the tool is one the
    frameworks take as it is ([plain_name]). *)
Theorem schema_without_properties_takes_any_object
    (tool : json) (name : str) (schema : list (str * json)) (output_schema : json) :
  subscript tool (u "name") = Ok (JStr name) ->
  plain_name name = true ->
  subscript tool (u "input_schema") = Ok (JDict schema) ->
  dict_get (u "properties") schema = None ->
  subscript tool (u "output_schema") = Ok output_schema ->
  register tool = Ok {| path := 47 :: name; request_model := []; default_tool := name |} /\
  forall d, dispatch [{| path := 47 :: name; request_model := []; default_tool := name |}]
              {| verb := POST; target := 47 :: name; query := []; body := JDict d |} =
            Starting name [].
Proof.
  intros Hn Hplain Hi Hp Ho. split.
  - unfold register. rewrite Hn, Hi, Ho. simpl. rewrite Hp. simpl.
    rewrite create_model_plain; [reflexivity | exact Hplain | constructor].
  - intros d. unfold dispatch. cbn [find target path].
    rewrite (proj2 (str_eqb_eq _ _) eq_refl). reflexivity.
Qed.

(** X8. [create_app] (lines 69 to 96), under every schedule. The subprocess
    spawned for the description is the first of the table; nothing is ever
    written to its input; once [create_app] has returned the application
    it has been killed; and no call ever takes it for its own. *)
Theorem discovery_subprocess_is_never_written_to (evs : list event) (p : process) :
  procs (run evs initial) !! 0%nat = Some p ->
  stdin p = [] /\
  (forall app, main (run evs initial) = Up app -> killed p = true) /\
  (forall i c, calls (run evs initial) !! i = Some c -> server_proc c <> Some 0%nat).
Proof.
  intros Hp. destruct (tidy_reached evs) as [_ [Tm _ Th _ _]].
  split; [| split; [| exact Th]].
  - unfold main_io in Tm. destruct (main (run evs initial)).
    + destruct Tm as [Hn _]. rewrite Hn in Hp. discriminate.
    + destruct Tm as (_ & _ & q & Hq & Hi & _). rewrite Hq in Hp. injection Hp as <-. exact Hi.
    + destruct Tm as (q & Hq & Hi & _). congruence.
    + destruct Tm as (_ & q & Hq & Hi & _). rewrite Hq in Hp. injection Hp as <-. exact Hi.
  - intros app Hup. unfold main_io in Tm. rewrite Hup in Tm.
    destruct Tm as (q & Hq & _ & Hk). congruence.
Qed.

(** X9. [create_app] and [tool_endpoint] (lines 69 and 122), under every
    schedule. The subprocesses spawned so far are one for [create_app],
    once it has started, and one for each call that has got past its
    [Popen]; a request turned away by the framework spawns none. *)
Theorem one_subprocess_per_started_call (evs : list event) :
  length (procs (run evs initial)) =
  ((if launched (main (run evs initial)) then 1 else 0) +
   length (List.filter spawned (calls (run evs initial))))%nat.
Proof. destruct (tidy_reached evs) as [_ [_ _ _ Tn _]]. exact Tn. Qed.

(** X10. [tool_endpoint] (lines 137 to 149), under every schedule. A call
    that still waits for the description has written nothing to its
    subprocess; after that, and for good, the input of the subprocess
    holds exactly one line, and that line is a [tool-call] message. *)
Theorem each_call_writes_one_message (evs : list event) (i h : nat) (c : call) :
  calls (run evs initial) !! i = Some c ->
  server_proc c = Some h ->
  exists p, procs (run evs initial) !! h = Some p /\
    match c with
    | AwaitingDescription _ _ _ => stdin p = []
    | _ => exists tool input_data,
             stdin p = [encode (ToolCall tool (JDict (map (fun kv => (kv.1, JStr kv.2))
                                                        input_data)))]
    end.
Proof.
  intros Hc Hs. destruct (tidy_reached evs) as [_ [_ Tc _ _ _]].
  specialize (Tc i c Hc). destruct c as [r | t d | h' t d | h' | h' r]; simpl in *;
    try discriminate; injection Hs as ->.
  - destruct Tc as (p & Hp & Hi & _). eauto.
  - destruct Tc as (p & line & Hp & Hi & (tool & input_data & ->) & _).
    exists p. split; [exact Hp |]. exists tool, input_data. exact Hi.
  - destruct Tc as (p & line & l1 & l2 & rest & Hp & Hi & (tool & input_data & ->) & _).
    exists p. split; [exact Hp |]. exists tool, input_data. exact Hi.
Qed.

(** X11. [tool_endpoint] (lines 143 to 149), under every schedule. Every line
    the bridge writes to a subprocess is printable ASCII followed by one
    newline: [json.dumps] escapes what the request holds, so no text in a
    body can break a message into two lines. *)
Theorem written_lines_are_single_ascii_lines
    (evs : list event) (h : nat) (p : process) (line : str) :
  procs (run evs initial) !! h = Some p ->
  In line (stdin p) ->
  exists text, line = text ++ [10] /\ Forall printable text.
Proof.
  intros Hp Hin. destruct (tidy_reached evs) as [_ [_ _ _ _ Tl]].
  specialize (Tl h p Hp). rewrite List.Forall_forall in Tl.
  apply request_line_printable, Tl, Hin.
Qed.

(** X12. [tool_endpoint] (lines 155 to 167), under every schedule. A call is
    answered 200 or 500; when it is answered 200, the second line its
    subprocess printed is an object of type "tool-result" that has an
    [output], and the answer is that output, as [jsonable_encoder] leaves
    it. *)
Theorem ok_answer_is_the_output_of_a_tool_result
    (evs : list event) (i h : nat) (r : response) :
  calls (run evs initial) !! i = Some (Answered h r) ->
  (status r = 200 \/ status r = 500) /\
  (status r = 200 ->
   exists p l1 l2 rest d output,
     procs (run evs initial) !! h = Some p /\
     stdout_seen p = l1 :: l2 :: rest /\
     loads l2 = Ok (JDict d) /\
     dict_get (u "type") d = Some (JStr (u "tool-result")) /\
     dict_get (u "output") d = Some output /\
     r = {| status := 200; payload := Output (jsonable_encoder output) |}).
Proof.
  intros Hc. destruct (tidy_reached evs) as [_ [_ Tc _ _ _]].
  destruct (Tc i _ Hc) as (p & line & l1 & l2 & rest & Hp & _ & _ & Hs & _ & ->).
  destruct (respond_finish l2) as [Hone Hok]. split; [exact Hone |].
  intros H200. destruct (Hok H200) as (d & output & Hl & Ht & Ho & Hr).
  exists p, l1, l2, rest, d, output. auto 8.
Qed.

(** X13. [tool_endpoint] (lines 155 to 167), under every schedule. The
    subprocess of an answered call has been killed, except in two cases:
    [json.loads] raised something else than [JSONDecodeError] for the
    result line (the [ValueError] of an integer that is too long), which
    the handler does not catch; or the line was JSON but not an object, so
    that [result.get] raises [AttributeError]. Both happen before any
    [kill]: the call is answered 500 by the framework, and the subprocess
    is left running. *)
Theorem subprocess_is_killed_unless_the_result_is_not_an_object
    (evs : list event) (i h : nat) (r : response) :
  calls (run evs initial) !! i = Some (Answered h r) ->
  exists p l1 l2 rest,
    procs (run evs initial) !! h = Some p /\
    stdout_seen p = l1 :: l2 :: rest /\
    (killed p = false <->
       (exists e, loads l2 = Raise e /\ e <> JSONDecodeError) \/
       (exists v, loads l2 = Ok v /\ forall d, v <> JDict d)) /\
    (killed p = false -> r = {| status := 500; payload := ServerError |}).
Proof.
  intros Hc. destruct (tidy_reached evs) as [_ [_ Tc _ _ _]].
  destruct (Tc i _ Hc) as (p & line & l1 & l2 & rest & Hp & _ & _ & Hs & Hk & ->).
  exists p, l1, l2, rest. split; [exact Hp |]. split; [exact Hs |]. rewrite Hk. split.
  - apply finish_spares.
  - apply finish_spared.
Qed.

(** X14. [get_forecast] of the weather server (lines 87 to 115). Whatever the
    network does, the function returns an object with the two keys
    [location] and [forecast]; the location is the one given, and the
    forecast ends with the degree sign, "F in " and that location. *)
Theorem forecast_is_about_the_location (w : WeatherServer.world) (location : json) :
  exists about,
    WeatherServer.get_forecast w location =
    JDict [(u "location", location);
           (u "forecast", JStr (about ++ 176 :: u "F in " ++ str_of location))].
Proof. apply get_forecast_shape. Qed.

(** X15. [get_forecast] of the weather server (lines 92 to 115). When the
    request raises, or is not answered 200, or the answer does not have
    the shape read from it, the forecast is the mock one: one of the five
    conditions and a temperature from 60 to 84. *)
Theorem mock_forecast_is_within_bounds (w : WeatherServer.world) (location : json) :
  (forall response,
     WeatherServer.requests_get w (u "https://wttr.in/" ++ str_of location ++ u "?format=j1") []
       = Some response ->
     status_code response = 200 ->
     json_body response ≫= WeatherServer.current = None) ->
  exists conditions temp,
    In conditions WeatherServer.conditions /\ 60 <= temp < 85 /\
    WeatherServer.get_forecast w location =
    JDict [(u "location", location);
           (u "forecast",
            JStr (conditions ++ u " and " ++ str_of_int temp ++ 176 :: u "F in " ++
                  str_of location))].
Proof.
  intros Hbad.
  exists (WeatherServer.choice w WeatherServer.conditions), (WeatherServer.choice w (range 60 85)).
  split; [apply choice_in; discriminate |].
  split; [apply in_range, choice_in; discriminate |].
  unfold WeatherServer.get_forecast.
  destruct (WeatherServer.requests_get w _ []) as [response |] eqn:Er; [| reflexivity].
  destruct (status_code response =? 200) eqn:Es; [| reflexivity].
  rewrite (Hbad response eq_refl) by (apply Z.eqb_eq; exact Es). reflexivity.
Qed.

(** X16. [get_forecast] of the weather server (lines 97 to 104). An answer
    200 whose object has no [current_condition] is not an error: the
    defaults of the two [get] chains apply, and the forecast reads
    "unknown and ??" before the degree sign. *)
Theorem answer_without_conditions_reads_unknown
    (w : WeatherServer.world) (location : json) (response : Response) (d : list (str * json)) :
  WeatherServer.requests_get w (u "https://wttr.in/" ++ str_of location ++ u "?format=j1") []
    = Some response ->
  status_code response = 200 ->
  json_body response = Some (JDict d) ->
  dict_get (u "current_condition") d = None ->
  WeatherServer.get_forecast w location =
  JDict [(u "location", location);
         (u "forecast", JStr (u "unknown and ??" ++ 176 :: u "F in " ++ str_of location))].
Proof.
  intros Hr Hs Hb Hd. unfold WeatherServer.get_forecast. rewrite Hr, Hs, Hb.
  change (200 =? 200) with true. cbv iota.
  cbn [mbind option_bind]. unfold WeatherServer.current.
  cbn [get caught mbind option_bind]. rewrite Hd. reflexivity.
Qed.

(** X17. [main] of either tool (lines 129 to 146 of the weather server, 205
    to 222 of the time tool). A line of input adds nothing to what the
    tool prints exactly when it is a JSON object whose [type] is not
    "tool-call"; every other line is answered, by a result or by an error
    message. *)
Theorem a_line_of_another_type_gets_no_answer :
  (forall served w line,
     WeatherServer.main (served ++ [(w, line)]) = WeatherServer.main served <->
     exists d, loads line = Ok (JDict d) /\
       dict_get (u "type") d <> Some (JStr (u "tool-call"))) /\
  (forall served w line,
     TimeTool.main (served ++ [(w, line)]) = TimeTool.main served <->
     exists d, loads line = Ok (JDict d) /\
       dict_get (u "type") d <> Some (JStr (u "tool-call"))).
Proof. split; intros served w line; apply main_silent. Qed.

(** X18. [main] and [handle_call] of the weather server (lines 78 to 85 and
    129 to 146). A [tool-call] message that lacks [tool], or [input], or
    the [location] of a forecast, is answered with an error message whose
    text is the missing key in single quotes, which is how a [KeyError]
    prints. *)
Theorem missing_key_is_reported_by_its_name
    (w : WeatherServer.world) (line : str) (d : list (str * json)) :
  loads line = Ok (JDict d) ->
  dict_get (u "type") d = Some (JStr (u "tool-call")) ->
  (dict_get (u "tool") d = None ->
   WeatherServer.main [(w, line)] =
     [print_json WeatherServer.describe_tools; print_json (to_json (Error (u "'tool'")))]) /\
  (forall tool, dict_get (u "tool") d = Some tool -> dict_get (u "input") d = None ->
   WeatherServer.main [(w, line)] =
     [print_json WeatherServer.describe_tools; print_json (to_json (Error (u "'input'")))]) /\
  (forall input, dict_get (u "tool") d = Some (JStr (u "get-forecast")) ->
   dict_get (u "input") d = Some (JDict input) -> dict_get (u "location") input = None ->
   WeatherServer.main [(w, line)] =
     [print_json WeatherServer.describe_tools; print_json (to_json (Error (u "'location'")))]).
Proof.
  intros Hl Ht. unfold WeatherServer.main, tool_main. cbn [omap list_omap fst snd].
  unfold answer. rewrite Hl. unfold get, subscript, mbind, result_bind. rewrite Ht.
  change (is_text (u "tool-call") (JStr (u "tool-call"))) with true. cbv iota.
  split; [| split].
  - intros ->. reflexivity.
  - intros tool -> ->. reflexivity.
  - intros input -> -> Hloc. unfold WeatherServer.handle_call.
    change (is_text (u "get-forecast") (JStr (u "get-forecast"))) with true. cbv iota.
    unfold subscript, mbind, result_bind. rewrite Hloc. reflexivity.
Qed.

(** X19. The bridge with the weather server behind it ([tool_endpoint], lines
    117 to 167, with [main], [handle_call] and [get_forecast] of the
    tool). Started on what the tool prints first and asked for the
    forecast of a location, the bridge writes a line that the tool answers
    with a result, and the endpoint returns what [get_forecast] returned:
    the answer is 200 with that forecast when the framework can render it,
    and 500 when it cannot (a surrogate in the location, say). The
    forecast is one that survives the wire ([wf]), and pydantic takes
    [location] for the name of a field. *)
Theorem forecast_through_the_bridge (w : WeatherServer.world) (location : str) :
  reserved (u "location") = false ->
  wf (WeatherServer.get_forecast w (JStr location)) = true ->
  let described := print_json WeatherServer.describe_tools in
  let r := {| verb := POST; target := u "/get-forecast"; query := [];
              body := JDict [(u "location", JStr location)] |} in
  let s := run [Main; Line 0 described; Main; Http r; Tick 0; Line 1 described; Tick 0]
               initial in
  WeatherServer.main [] = [described] /\
  exists asked reply,
    stdin <$> procs s !! 1%nat = Some [asked] /\
    WeatherServer.main [(w, asked)] = [described; reply] /\
    calls (run [Line 1 reply; Tick 0] s) !! 0%nat =
      Some (Answered 1
              (if renders (WeatherServer.get_forecast w (JStr location))
               then {| status := 200;
                       payload := Output (WeatherServer.get_forecast w (JStr location)) |}
               else {| status := 500; payload := ServerError |})).
Proof.
  intros Hres Hw described r s. split; [reflexivity |].
  assert (jsonable_encoder (WeatherServer.get_forecast w (JStr location)) =
          WeatherServer.get_forecast w (JStr location)) as Henc.
  { destruct (get_forecast_shape w (JStr location)) as [about ->]. reflexivity. }
  assert (wf_str location = true) as Hl.
  { destruct (get_forecast_shape w (JStr location)) as [about Ha].
    rewrite Ha in Hw. cbn in Hw. rewrite !andb_true_r in Hw.
    apply andb_true_iff in Hw as [Hw _]. exact Hw. }
  set (out := WeatherServer.get_forecast w (JStr location)) in *.
  exists (encode (ToolCall (u "get-forecast") (JDict [(u "location", JStr location)]))),
         (print_json (to_json (ToolResult out))).
  pose proof (call_in_sequence
                (run [Main; Line 0 described; Main] initial) [forecast_endpoint] r
                (u "get-forecast") [(u "location", location)] described
                (print_json (to_json (ToolResult out)))) as Hc.
  unfold described in Hc at 1. rewrite weather_discovered in Hc by exact Hres.
  destruct Hc as [Hasked Hans];
    [reflexivity | reflexivity | apply print_json_not_empty | apply print_json_not_empty |].
  cbn [length procs calls] in Hasked, Hans.
  split; [| split].
  - exact Hasked.
  - unfold WeatherServer.main, tool_main. cbn [omap list_omap fst snd].
    rewrite (answer_call WeatherServer.handle_call w _ _ out).
    + reflexivity.
    + apply wf_message_call; [reflexivity |]. cbn. rewrite Hl. reflexivity.
    + reflexivity.
  - rewrite finish_result in Hans by exact Hw. unfold respond in Hans. cbn [snd] in Hans.
    rewrite Henc in Hans. exact Hans.
Qed.

(** X20. The bridge with the weather server behind it, asked with a [tool]
    query parameter that names another tool (line 117 of the bridge, lines
    78 to 85 of the tool). The tool does not treat the name as an error:
    it answers with a result, and the bridge answers 200 with
    [{"forecast": "Unknown tool"}]. Pydantic takes [location] for the name
    of a field. *)
Theorem another_tool_name_is_answered_unknown_tool
    (w : WeatherServer.world) (location tool : str) :
  reserved (u "location") = false ->
  wf_str location = true ->
  wf_str tool = true ->
  tool <> u "get-forecast" ->
  let described := print_json WeatherServer.describe_tools in
  let r := {| verb := POST; target := u "/get-forecast"; query := [(u "tool", tool)];
              body := JDict [(u "location", JStr location)] |} in
  let s := run [Main; Line 0 described; Main; Http r; Tick 0; Line 1 described; Tick 0]
               initial in
  exists asked reply,
    stdin <$> procs s !! 1%nat = Some [asked] /\
    WeatherServer.main [(w, asked)] = [described; reply] /\
    calls (run [Line 1 reply; Tick 0] s) !! 0%nat =
      Some (Answered 1 {| status := 200;
                          payload := Output (JDict [(u "forecast", JStr (u "Unknown tool"))]) |}).
Proof.
  intros Hres Hl Ht Hne described r s.
  set (out := JDict [(u "forecast", JStr (u "Unknown tool"))]).
  exists (encode (ToolCall tool (JDict [(u "location", JStr location)]))),
         (print_json (to_json (ToolResult out))).
  pose proof (call_in_sequence
                (run [Main; Line 0 described; Main] initial) [forecast_endpoint] r
                tool [(u "location", location)] described
                (print_json (to_json (ToolResult out)))) as Hc.
  unfold described in Hc at 1. rewrite weather_discovered in Hc by exact Hres.
  destruct Hc as [Hasked Hans];
    [reflexivity | reflexivity | apply print_json_not_empty | apply print_json_not_empty |].
  cbn [length procs calls] in Hasked, Hans.
  split; [| split].
  - exact Hasked.
  - unfold WeatherServer.main, tool_main. cbn [omap list_omap fst snd].
    rewrite (answer_call WeatherServer.handle_call w _ _ out).
    + reflexivity.
    + apply wf_message_call; [exact Ht |]. cbn. rewrite Hl. reflexivity.
    + unfold WeatherServer.handle_call. cbn [is_text]. rewrite str_eqb_neq by exact Hne.
      reflexivity.
  - rewrite finish_result in Hans by reflexivity. exact Hans.
Qed.

(** X21. [get_time] of the time tool (lines 145 to 191). Whatever the network
    and the parsing of the time do, the function returns an object with
    the four keys [location], [timezone], [time] and [date], in this
    order; the location is the one given, the time and the date are
    text. *)
Theorem get_time_always_answers_in_one_shape (w : TimeTool.world) (location : json) :
  exists timezone time date,
    TimeTool.get_time w location =
    JDict [(u "location", location); (u "timezone", timezone);
           (u "time", JStr time); (u "date", JStr date)].
Proof. apply get_time_shape. Qed.

(** X22. [get_coordinates] and [get_time] of the time tool (lines 95 to 118
    and 150 to 182). When the request to the geocoder raises, or is
    answered with an error status, or with a body that is no JSON or is
    empty, the answer carries "Error: Location '...' not found." as its
    timezone, and the time of the clock in UTC, marked " (UTC)". *)
Theorem place_not_found_is_reported_in_the_timezone (w : TimeTool.world) (location : json) :
  (forall resp,
     TimeTool.requests_get w (u "https://nominatim.openstreetmap.org/search")
       [(u "q", location); (u "format", JStr (u "json")); (u "limit", JInt 1)] = Some resp ->
     raises_for_status resp = true \/ json_body resp = None \/
     exists data, json_body resp = Some data /\ truthy data = false) ->
  TimeTool.get_time w location =
  JDict [(u "location", location);
         (u "timezone", JStr (u "Error: Location '" ++ str_of location ++ u "' not found."));
         (u "time", JStr (strftime (TimeTool.utcnow w) (u "%H:%M:%S") ++ u " (UTC)"));
         (u "date", JStr (strftime (TimeTool.utcnow w) (u "%Y-%m-%d")))].
Proof.
  intros Hnet.
  assert (TimeTool.get_coordinates w location = None) as Hc.
  { unfold TimeTool.get_coordinates.
    destruct (TimeTool.requests_get w _ _) as [resp |] eqn:Er; [| reflexivity].
    cbn [mbind option_bind].
    destruct (Hnet resp eq_refl) as [Hs | [Hb | (data & Hb & Ht)]].
    - rewrite Hs. reflexivity.
    - destruct (raises_for_status resp); [reflexivity |]. rewrite Hb. reflexivity.
    - destruct (raises_for_status resp); [reflexivity |]. rewrite Hb. cbn [mbind option_bind].
      rewrite Ht. reflexivity. }
  unfold TimeTool.get_time, TimeTool.try_get_time. rewrite Hc. reflexivity.
Qed.

(** X23. [get_coordinates], [get_time_by_coordinates] and [get_time] of the
    time tool (lines 95 to 173). When the geocoder answers with a list
    whose first place has a latitude and a longitude, and the time service,
    asked for these, answers with a time stamp that is text and a time
    zone, then the answer carries that time zone, and the time and the
    date of the stamp, parsed after its Z has been put as "+00:00". *)
Theorem time_is_read_from_the_two_services
    (w : TimeTool.world) (location : json) (found times : Response)
    (place : list (str * json)) (others : list json) (lat lon : json)
    (told : list (str * json)) (stamp : str) (zone : json) (dt : datetime) :
  TimeTool.requests_get w (u "https://nominatim.openstreetmap.org/search")
    [(u "q", location); (u "format", JStr (u "json")); (u "limit", JInt 1)] = Some found ->
  raises_for_status found = false ->
  json_body found = Some (JList (JDict place :: others)) ->
  dict_get (u "lat") place = Some lat ->
  dict_get (u "lon") place = Some lon ->
  TimeTool.requests_get w (u "https://timeapi.io/api/Time/current/coordinate")
    [(u "latitude", lat); (u "longitude", lon)] = Some times ->
  raises_for_status times = false ->
  json_body times = Some (JDict told) ->
  dict_get (u "dateTime") told = Some (JStr stamp) ->
  stamp <> [] ->
  dict_get (u "timeZone") told = Some zone ->
  truthy zone = true ->
  fromisoformat (replace 90 (u "+00:00") stamp) = inl dt ->
  TimeTool.get_time w location =
  JDict [(u "location", location); (u "timezone", zone);
         (u "time", JStr (strftime dt (u "%H:%M:%S")));
         (u "date", JStr (strftime dt (u "%Y-%m-%d")))].
Proof.
  intros Hf Hfs Hfb Hlat Hlon Ht Hts Htb Hstamp Hne Hzone Hz Hdt.
  assert (TimeTool.get_coordinates w location = Some (lat, lon)) as Hc.
  { unfold TimeTool.get_coordinates. rewrite Hf. cbn [mbind option_bind]. rewrite Hfs, Hfb.
    cbn [mbind option_bind truthy negb index0 subscript caught]. rewrite Hlat.
    cbn [mbind option_bind caught]. rewrite Hlon. reflexivity. }
  assert (TimeTool.get_time_by_coordinates w lat lon = (JStr stamp, zone)) as Hg.
  { unfold TimeTool.get_time_by_coordinates. rewrite Ht. cbn [mbind option_bind]. rewrite Hts, Htb.
    cbn [mbind option_bind get caught]. rewrite Hstamp, Hzone. cbn [mbind option_bind caught].
    destruct stamp as [| c stamp]; [congruence |]. cbn [truthy negb orb]. rewrite Hz.
    reflexivity. }
  unfold TimeTool.get_time, TimeTool.try_get_time. rewrite Hc, Hg.
  destruct stamp as [| c stamp]; [congruence |]. cbn [truthy negb orb]. rewrite Hz.
  cbn [negb]. rewrite Hdt. reflexivity.
Qed.

(** X24. The bridge with the time tool behind it ([tool_endpoint], lines 117
    to 167, with [main], [handle_call] and [get_time] of the tool).
    Started on what the tool prints first and asked for the time at a
    location, the bridge writes a line that the tool answers with a
    result, and the endpoint returns what [get_time] returned: the answer
    is 200 with that document, as [jsonable_encoder] leaves it, when the
    framework can render it, and 500 when it cannot. The document is one
    that survives the wire ([wf]), and pydantic takes [location] for the
    name of a field. *)
Theorem time_through_the_bridge (w : TimeTool.world) (location : str) :
  reserved (u "location") = false ->
  wf (TimeTool.get_time w (JStr location)) = true ->
  let described := print_json TimeTool.describe_tools in
  let r := {| verb := POST; target := u "/get-time"; query := [];
              body := JDict [(u "location", JStr location)] |} in
  let s := run [Main; Line 0 described; Main; Http r; Tick 0; Line 1 described; Tick 0]
               initial in
  let content := jsonable_encoder (TimeTool.get_time w (JStr location)) in
  TimeTool.main [] = [described] /\
  exists asked reply,
    stdin <$> procs s !! 1%nat = Some [asked] /\
    TimeTool.main [(w, asked)] = [described; reply] /\
    calls (run [Line 1 reply; Tick 0] s) !! 0%nat =
      Some (Answered 1
              (if renders content then {| status := 200; payload := Output content |}
               else {| status := 500; payload := ServerError |})).
Proof.
  intros Hres Hw described r s content. split; [reflexivity |].
  pose proof (wf_location_of_time w (JStr location) Hw) as Hl.
  set (out := TimeTool.get_time w (JStr location)) in *.
  exists (encode (ToolCall (u "get-time") (JDict [(u "location", JStr location)]))),
         (print_json (to_json (ToolResult out))).
  pose proof (call_in_sequence
                (run [Main; Line 0 described; Main] initial) [time_endpoint] r
                (u "get-time") [(u "location", location)] described
                (print_json (to_json (ToolResult out)))) as Hc.
  unfold described in Hc at 1. rewrite time_discovered in Hc by exact Hres.
  destruct Hc as [Hasked Hans];
    [reflexivity | reflexivity | apply print_json_not_empty | apply print_json_not_empty |].
  cbn [length procs calls] in Hasked, Hans.
  split; [| split].
  - exact Hasked.
  - unfold TimeTool.main, tool_main. cbn [omap list_omap fst snd].
    rewrite (answer_call TimeTool.handle_call w _ _ out).
    + reflexivity.
    + apply wf_message_call; [reflexivity |]. cbn. cbn in Hl. rewrite Hl. reflexivity.
    + reflexivity.
  - rewrite finish_result in Hans by exact Hw. exact Hans.
Qed.

(** X25. [call_mcp_tool] of the Flask server (lines 86 to 96). When the tool
    exits with 0, the lines of its output are tried in order, and the
    function returns the [output] of the first line that is an object of
    type "tool-result" with an output; lines before it that are no such
    thing (the description, error messages, text that is not JSON) are
    passed over. *)
Theorem first_tool_result_is_returned
    (run : str -> str -> CompletedProcess + str) (tool_path tool_name : str) (input_data : json)
    (result : CompletedProcess) (before after : list str) (line : str)
    (d : list (str * json)) (output : json) :
  run tool_path (dumps (to_json (ToolCall tool_name input_data))) = inl result ->
  returncode result = 0 ->
  split 10 (strip (stdout result)) = before ++ line :: after ->
  Forall (fun l => McpServer.tool_result l = None) before ->
  loads line = Ok (JDict d) ->
  dict_get (u "type") d = Some (JStr (u "tool-result")) ->
  dict_get (u "output") d = Some output ->
  McpServer.call_mcp_tool run tool_path tool_name input_data = output.
Proof.
  intros Hr Hc Hs Hb Hl Ht Ho. unfold McpServer.call_mcp_tool. rewrite Hr, Hc, Hs.
  change (0 =? 0) with true. cbv iota.
  rewrite first_result_skips by exact Hb. cbn [McpServer.first_result].
  unfold McpServer.tool_result. rewrite Hl. cbn [mbind option_bind get caught].
  rewrite Ht. cbn [mbind option_bind caught].
  change (is_text (u "tool-result") (JStr (u "tool-result"))) with true. cbv iota.
  cbn [subscript]. rewrite Ho. reflexivity.
Qed.

(** X26. [weather] and [time] of the Flask server (lines 103 to 139). A body
    without [location], or with one that is false (empty text, zero,
    [null], an empty list), is answered 400 with "Missing location",
    whatever running a tool would give: no tool is run. *)
Theorem missing_location_is_refused_without_a_tool
    (run : str -> str -> CompletedProcess + str) (d : list (str * json)) :
  match dict_get (u "location") d with
  | Some location => truthy location = false
  | None => True
  end ->
  McpServer.weather run (JDict d) = Ok (400, JDict [(u "error", JStr (u "Missing location"))]) /\
  McpServer.time run (JDict d) = Ok (400, JDict [(u "error", JStr (u "Missing location"))]).
Proof.
  intros Hl. unfold McpServer.weather, McpServer.time. cbn [get mbind result_bind].
  destruct (dict_get (u "location") d) as [location |]; [rewrite Hl |]; split; reflexivity.
Qed.

(** X27. [weather] and [call_mcp_tool] of the Flask server with the weather
    server as the script it runs, run to its end within the time allowed
    (lines 54 to 120, and [main] of the tool). For a body whose
    [location] is true, the view answers 200 with what [get_forecast]
    returned for that location: the description the tool prints first is
    passed over, the result is found. The location need not be text. *)
Theorem weather_view_answers_with_the_forecast
    (w : WeatherServer.world) (d : list (str * json)) (location : json) :
  dict_get (u "location") d = Some location ->
  truthy location = true ->
  wf (WeatherServer.get_forecast w location) = true ->
  McpServer.weather (fun _ input => inl (WeatherServer.subprocess_run w input)) (JDict d) =
  Ok (200, WeatherServer.get_forecast w location).
Proof.
  intros Hl Ht Hw. pose proof (wf_location_of_forecast w location Hw) as Hwl.
  unfold McpServer.weather. cbn [get mbind result_bind]. rewrite Hl, Ht. cbn [negb].
  unfold McpServer.call_mcp_tool, WeatherServer.subprocess_run.
  change (returncode (tool_process _ _ _ _) =? 0) with true. cbv iota.
  assert (wf (to_json (ToolCall (u "get-forecast") (JDict [(u "location", location)]))) = true)
    as Hc by (apply wf_message_call; [reflexivity | cbn; rewrite Hwl; reflexivity]).
  rewrite (served_once _ _ w _ _ (to_json (ToolResult (WeatherServer.get_forecast w location)))).
  - cbn [McpServer.first_result].
    replace (McpServer.tool_result (dumps WeatherServer.describe_tools)) with (@None json)
      by (unfold McpServer.tool_result; rewrite loads_dumps by reflexivity; reflexivity).
    rewrite tool_result_of_result by exact Hw. reflexivity.
  - reflexivity.
  - exact Hc.
  - rewrite (answer_read _ w _ (u "get-forecast") (JDict [(u "location", location)]))
      by (apply loads_dumps; exact Hc).
    reflexivity.
  - apply wf_message_result. exact Hw.
Qed.

(** X28. [time] and [call_mcp_tool] of the Flask server with the time tool as
    the script it runs, run to its end within the time allowed (lines 54
    to 101 and 122 to 139, and [main] of the tool). For a body whose
    [location] is true, the view answers 200 with what [get_time] returned
    for that location. *)
Theorem time_view_answers_with_the_time
    (w : TimeTool.world) (d : list (str * json)) (location : json) :
  dict_get (u "location") d = Some location ->
  truthy location = true ->
  wf (TimeTool.get_time w location) = true ->
  McpServer.time (fun _ input => inl (TimeTool.subprocess_run w input)) (JDict d) =
  Ok (200, TimeTool.get_time w location).
Proof.
  intros Hl Ht Hw. pose proof (wf_location_of_time w location Hw) as Hwl.
  unfold McpServer.time. cbn [get mbind result_bind]. rewrite Hl, Ht. cbn [negb].
  unfold McpServer.call_mcp_tool, TimeTool.subprocess_run.
  change (returncode (tool_process _ _ _ _) =? 0) with true. cbv iota.
  assert (wf (to_json (ToolCall (u "get-time") (JDict [(u "location", location)]))) = true)
    as Hc by (apply wf_message_call; [reflexivity | cbn; rewrite Hwl; reflexivity]).
  rewrite (served_once _ _ w _ _ (to_json (ToolResult (TimeTool.get_time w location)))).
  - cbn [McpServer.first_result].
    replace (McpServer.tool_result (dumps TimeTool.describe_tools)) with (@None json)
      by (unfold McpServer.tool_result; rewrite loads_dumps by reflexivity; reflexivity).
    rewrite tool_result_of_result by exact Hw. reflexivity.
  - reflexivity.
  - exact Hc.
  - rewrite (answer_read _ w _ (u "get-time") (JDict [(u "location", location)]))
      by (apply loads_dumps; exact Hc).
    reflexivity.
  - apply wf_message_result. exact Hw.
Qed.

(** X29. [call_mcp_tool] of the Flask server with the weather server as the
    script it runs, run to its end within the time allowed (lines 86 to
    96). When the tool answers with an error message (here: an input
    without [location]), the message is passed over like any other line,
    and the caller gets "No valid tool result found" in place of the text
    of the error. *)
Theorem tool_error_does_not_reach_the_caller
    (w : WeatherServer.world) (tool_path : str) (input : list (str * json)) :
  wf (JDict input) = true ->
  dict_get (u "location") input = None ->
  McpServer.call_mcp_tool (fun _ input => inl (WeatherServer.subprocess_run w input))
    tool_path (u "get-forecast") (JDict input) =
  JDict [(u "error", JStr (u "No valid tool result found"))].
Proof.
  intros Hw Hl. unfold McpServer.call_mcp_tool, WeatherServer.subprocess_run.
  change (returncode (tool_process _ _ _ _) =? 0) with true. cbv iota.
  assert (wf (to_json (ToolCall (u "get-forecast") (JDict input))) = true)
    as Hc by (apply wf_message_call; [reflexivity | exact Hw]).
  rewrite (served_once _ _ w _ _ (to_json (Error (u "'location'")))).
  - cbn [McpServer.first_result].
    replace (McpServer.tool_result (dumps WeatherServer.describe_tools)) with (@None json)
      by (unfold McpServer.tool_result; rewrite loads_dumps by reflexivity; reflexivity).
    rewrite tool_result_of_error by reflexivity. reflexivity.
  - reflexivity.
  - exact Hc.
  - rewrite (answer_read _ w _ (u "get-forecast") (JDict input))
      by (apply loads_dumps; exact Hc).
    unfold WeatherServer.handle_call.
    change (is_text (u "get-forecast") (JStr (u "get-forecast"))) with true. cbv iota.
    cbn [subscript mbind result_bind]. rewrite Hl. reflexivity.
  - reflexivity.
Qed.

(** X30. [call_mcp_tool] and [weather] of the Flask server (lines 70 to 101
    and 112 to 120). A tool that exits with another code than 0, or
    cannot be run at all, does not make the view fail: the view answers
    200, with an object whose [error] is the standard error of the tool
    after "Tool execution failed: ", or the text of the exception. *)
Theorem tool_failure_is_answered_200
    (run : str -> str -> CompletedProcess + str) (d : list (str * json)) (location : json) :
  dict_get (u "location") d = Some location ->
  truthy location = true ->
  (forall result,
     run (u "/app/weather-tool/tool.py")
         (dumps (to_json (ToolCall (u "get-forecast") (JDict [(u "location", location)]))))
       = inl result ->
     returncode result <> 0 ->
     McpServer.weather run (JDict d) =
     Ok (200, JDict [(u "error", JStr (u "Tool execution failed: " ++ stderr result))])) /\
  (forall message,
     run (u "/app/weather-tool/tool.py")
         (dumps (to_json (ToolCall (u "get-forecast") (JDict [(u "location", location)]))))
       = inr message ->
     McpServer.weather run (JDict d) = Ok (200, JDict [(u "error", JStr message)])).
Proof.
  intros Hl Ht. unfold McpServer.weather, McpServer.call_mcp_tool.
  cbn [get mbind result_bind]. rewrite Hl, Ht. cbn [negb]. split.
  - intros result -> Hr. apply Z.eqb_neq in Hr. rewrite Hr. reflexivity.
  - intros message ->. reflexivity.
Qed.

End Further.

(** * Further properties on concrete runs *)

Section FurtherRuns.
#[local] Existing Instance plain_runtime.
#[local] Existing Instance plain_interpreter.
#[local] Existing Instance plain_calendar.

(** ** The bridge *)

Lemma reader_keeps_the_lines_until_the_end_witness :
  stdout_buffer (fold_left (fun p raw => read_lines raw p)
                   [u "one" ++ [10]; u "  two " ++ [10]; []; u "late"] Popen) =
    stdout_buffer Popen ++
    map strip (until_eof [u "one" ++ [10]; u "  two " ++ [10]; []; u "late"]) /\
  (reader_exited (fold_left (fun p raw => read_lines raw p)
                    [u "one" ++ [10]; u "  two " ++ [10]; []; u "late"] Popen) = true <->
   In [] [u "one" ++ [10]; u "  two " ++ [10]; []; u "late"]).
Proof.
  apply (reader_keeps_the_lines_until_the_end
           [u "one" ++ [10]; u "  two " ++ [10]; []; u "late"] Popen).
  reflexivity.
Defined.

Lemma blank_first_line_fails_startup_witness :
  main (run [Main; Line 0 [32; 10]; Main] initial) = Failed RuntimeError /\
  killed <$> procs (run [Main; Line 0 [32; 10]; Main] initial) !! 0%nat = Some true.
Proof.
  apply (blank_first_line_fails_startup [32; 10]).
  - discriminate.
  - reflexivity.
Defined.

Lemma end_of_output_is_never_noticed_witness :
  standing (run [Line 0 (u "late"); Main; Tick 0; Main] (run [Main; Line 0 []] initial))
           MainThread =
    standing (run [Main; Line 0 []] initial) MainThread /\
  buffer (run [Line 0 (u "late"); Main; Tick 0; Main] (run [Main; Line 0 []] initial)) 0 = [].
Proof.
  apply (end_of_output_is_never_noticed [Line 0 (u "late"); Main; Tick 0; Main]
           (run [Main; Line 0 []] initial) MainThread 0).
  - reflexivity.
  - reflexivity.
  - eexists. split; reflexivity.
Defined.

Lemma first_line_not_an_object_is_not_caught_witness :
  main (step (run [Main; Line 0 (printed (JList [JInt 1]))] initial) Main) =
    Failed AttributeError /\
  killed <$> procs (step (run [Main; Line 0 (printed (JList [JInt 1]))] initial) Main) !! 0%nat =
    Some false.
Proof.
  apply (first_line_not_an_object_is_not_caught
           (run [Main; Line 0 (printed (JList [JInt 1]))] initial) 0
           {| killed := false; stdin := []; stdout_buffer := [dumps (JList [JInt 1])];
              reader_exited := false; stdout_seen := [dumps (JList [JInt 1])] |}
           (dumps (JList [JInt 1])) [] (JList [JInt 1])).
  - vm_compute. reflexivity.
  - vm_compute. reflexivity.
  - vm_compute. reflexivity.
  - vm_compute. reflexivity.
  - intros d. discriminate.
Defined.

Lemma tools_that_are_no_list_witness :
  killed <$> procs (step (run [Main; Line 0 (printed (JDict [(u "tools", JInt 3)]))] initial)
                         Main) !! 0%nat = Some true /\
  (JInt 3 = JStr [] \/ JInt 3 = JDict [] ->
   main (step (run [Main; Line 0 (printed (JDict [(u "tools", JInt 3)]))] initial) Main) =
     Up []) /\
  (JInt 3 <> JStr [] -> JInt 3 <> JDict [] ->
   main (step (run [Main; Line 0 (printed (JDict [(u "tools", JInt 3)]))] initial) Main) =
     Failed TypeError).
Proof.
  eapply (tools_that_are_no_list
            (run [Main; Line 0 (printed (JDict [(u "tools", JInt 3)]))] initial) 0).
  - vm_compute. reflexivity.
  - vm_compute. reflexivity.
  - vm_compute. reflexivity.
  - vm_compute. reflexivity.
  - vm_compute. reflexivity.
  - intros l. discriminate.
Defined.

Lemma one_bad_tool_fails_startup_witness :
  exists e',
    main (step (run [Main; Line 0 (printed half_described)] initial) Main) = Failed e' /\
    killed <$> procs (step (run [Main; Line 0 (printed half_described)] initial) Main) !! 0%nat =
      Some true.
Proof.
  eapply (one_bad_tool_fails_startup
            (run [Main; Line 0 (printed half_described)] initial) 0 _ _ _ _ _
            (JDict [(u "name", JStr (u "broken"))])).
  - vm_compute. reflexivity.
  - vm_compute. reflexivity.
  - vm_compute. reflexivity.
  - vm_compute. reflexivity.
  - vm_compute. reflexivity.
  - right. left. reflexivity.
  - vm_compute. reflexivity.
Defined.

Lemma schema_without_properties_takes_any_object_witness :
  register ping_tool =
    Ok {| path := 47 :: u "ping"; request_model := []; default_tool := u "ping" |} /\
  forall d,
    dispatch [{| path := 47 :: u "ping"; request_model := []; default_tool := u "ping" |}]
      {| verb := POST; target := 47 :: u "ping"; query := []; body := JDict d |} =
    Starting (u "ping") [].
Proof.
  apply (schema_without_properties_takes_any_object ping_tool (u "ping")
           [(u "type", JStr (u "object"))] (JDict [(u "type", JStr (u "object"))])).
  - reflexivity.
  - reflexivity.
  - reflexivity.
  - reflexivity.
  - reflexivity.
Defined.

Lemma discovery_subprocess_is_never_written_to_witness :
  exists p,
    procs (run one_call initial) !! 0%nat = Some p /\
    stdin p = [] /\
    (forall app, main (run one_call initial) = Up app -> killed p = true) /\
    (forall i c, calls (run one_call initial) !! i = Some c -> server_proc c <> Some 0%nat).
Proof.
  eexists. split; [vm_compute; reflexivity |].
  apply (discovery_subprocess_is_never_written_to one_call).
  vm_compute. reflexivity.
Defined.

Lemma each_call_writes_one_message_witness :
  exists p,
    procs (run one_call initial) !! 1%nat = Some p /\
    exists tool input_data,
      stdin p = [encode (ToolCall tool (JDict (map (fun kv => (kv.1, JStr kv.2)) input_data)))].
Proof.
  apply (each_call_writes_one_message one_call 0 1 (AwaitingResult 1)).
  - vm_compute. reflexivity.
  - reflexivity.
Defined.

Lemma written_lines_are_single_ascii_lines_witness :
  exists text,
    encode (ToolCall (u "get-forecast") (JDict [(u "location", JStr (u "Paris"))])) =
      text ++ [10] /\
    Forall printable text.
Proof.
  eapply (written_lines_are_single_ascii_lines one_call 1).
  - vm_compute. reflexivity.
  - left. vm_compute. reflexivity.
Defined.

Lemma ok_answer_is_the_output_of_a_tool_result_witness :
  (status {| status := 200; payload := Output sunny |} = 200 \/
   status {| status := 200; payload := Output sunny |} = 500) /\
  (status {| status := 200; payload := Output sunny |} = 200 ->
   exists p l1 l2 rest d output,
     procs (run answered_sunny initial) !! 1%nat = Some p /\
     stdout_seen p = l1 :: l2 :: rest /\
     loads l2 = Ok (JDict d) /\
     dict_get (u "type") d = Some (JStr (u "tool-result")) /\
     dict_get (u "output") d = Some output /\
     {| status := 200; payload := Output sunny |} =
       {| status := 200; payload := Output (jsonable_encoder output) |}).
Proof.
  apply (ok_answer_is_the_output_of_a_tool_result answered_sunny 0 1
           {| status := 200; payload := Output sunny |}).
  vm_compute. reflexivity.
Defined.

Lemma subprocess_is_killed_unless_the_result_is_not_an_object_witness :
  exists p l1 l2 rest,
    procs (run answered_list initial) !! 1%nat = Some p /\
    stdout_seen p = l1 :: l2 :: rest /\
    (killed p = false <->
       (exists e, loads l2 = Raise e /\ e <> JSONDecodeError) \/
       (exists v, loads l2 = Ok v /\ forall d, v <> JDict d)) /\
    (killed p = false ->
     {| status := 500; payload := ServerError |} = {| status := 500; payload := ServerError |}).
Proof.
  apply (subprocess_is_killed_unless_the_result_is_not_an_object answered_list 0 1
           {| status := 500; payload := ServerError |}).
  vm_compute. reflexivity.
Defined.

(** A result line that is an integer of 4301 digits: [json.loads] raises
    the [ValueError], which the handler does not catch; the call is
    answered 500 and its subprocess is left running. *)
Example long_integer_result_is_not_caught :
  loads (repeat 49 4301%nat) = Raise ValueError /\
  calls (run answered_long initial) !! 0%nat =
    Some (Answered 1 {| status := 500; payload := ServerError |}) /\
  killed <$> procs (run answered_long initial) !! 1%nat = Some false.
Proof. split; [| split]; vm_compute; reflexivity. Qed.

(** ** The tools *)

Lemma mock_forecast_is_within_bounds_witness :
  exists conditions temp,
    In conditions WeatherServer.conditions /\ 60 <= temp < 85 /\
    WeatherServer.get_forecast offline (JStr (u "Paris")) =
    JDict [(u "location", JStr (u "Paris"));
           (u "forecast",
            JStr (conditions ++ u " and " ++ str_of_int temp ++ 176 :: u "F in " ++
                  str_of (JStr (u "Paris"))))].
Proof.
  apply (mock_forecast_is_within_bounds offline (JStr (u "Paris"))).
  intros response Hr. vm_compute in Hr. discriminate Hr.
Defined.

Lemma answer_without_conditions_reads_unknown_witness :
  WeatherServer.get_forecast no_conditions (JStr (u "Paris")) =
  JDict [(u "location", JStr (u "Paris"));
         (u "forecast",
          JStr (u "unknown and ??" ++ 176 :: u "F in " ++ str_of (JStr (u "Paris"))))].
Proof.
  apply (answer_without_conditions_reads_unknown no_conditions (JStr (u "Paris"))
           {| status_code := 200; json_body := Some (JDict []) |} []).
  - reflexivity.
  - reflexivity.
  - reflexivity.
  - reflexivity.
Defined.

Lemma missing_key_is_reported_by_its_name_witness :
  WeatherServer.main [(offline, dumps (JDict [(u "type", JStr (u "tool-call"))]))] =
  [print_json WeatherServer.describe_tools; print_json (to_json (Error (u "'tool'")))].
Proof.
  refine (proj1 (missing_key_is_reported_by_its_name offline
                   (dumps (JDict [(u "type", JStr (u "tool-call"))]))
                   [(u "type", JStr (u "tool-call"))] _ _) _).
  - vm_compute. reflexivity.
  - vm_compute. reflexivity.
  - vm_compute. reflexivity.
Defined.

Lemma forecast_through_the_bridge_witness :
  let described := print_json WeatherServer.describe_tools in
  let r := {| verb := POST; target := u "/get-forecast"; query := [];
              body := JDict [(u "location", JStr (u "Paris"))] |} in
  let s := run [Main; Line 0 described; Main; Http r; Tick 0; Line 1 described; Tick 0]
               initial in
  WeatherServer.main [] = [described] /\
  exists asked reply,
    stdin <$> procs s !! 1%nat = Some [asked] /\
    WeatherServer.main [(offline, asked)] = [described; reply] /\
    calls (run [Line 1 reply; Tick 0] s) !! 0%nat =
      Some (Answered 1 {| status := 200;
                          payload := Output (WeatherServer.get_forecast offline
                                               (JStr (u "Paris"))) |}).
Proof.
  apply (forecast_through_the_bridge offline (u "Paris")).
  - reflexivity.
  - vm_compute. reflexivity.
Defined.

Lemma another_tool_name_is_answered_unknown_tool_witness :
  let described := print_json WeatherServer.describe_tools in
  let r := {| verb := POST; target := u "/get-forecast"; query := [(u "tool", u "get-time")];
              body := JDict [(u "location", JStr (u "Paris"))] |} in
  let s := run [Main; Line 0 described; Main; Http r; Tick 0; Line 1 described; Tick 0]
               initial in
  exists asked reply,
    stdin <$> procs s !! 1%nat = Some [asked] /\
    WeatherServer.main [(offline, asked)] = [described; reply] /\
    calls (run [Line 1 reply; Tick 0] s) !! 0%nat =
      Some (Answered 1 {| status := 200;
                          payload := Output (JDict [(u "forecast", JStr (u "Unknown tool"))]) |}).
Proof.
  apply (another_tool_name_is_answered_unknown_tool offline (u "Paris") (u "get-time")).
  - reflexivity.
  - vm_compute. reflexivity.
  - vm_compute. reflexivity.
  - intros Heq. vm_compute in Heq. discriminate Heq.
Defined.

Lemma place_not_found_is_reported_in_the_timezone_witness :
  TimeTool.get_time offline_at_noon (JStr (u "Atlantis")) =
  JDict [(u "location", JStr (u "Atlantis"));
         (u "timezone",
          JStr (u "Error: Location '" ++ str_of (JStr (u "Atlantis")) ++ u "' not found."));
         (u "time", JStr (strftime (TimeTool.utcnow offline_at_noon) (u "%H:%M:%S") ++ u " (UTC)"));
         (u "date", JStr (strftime (TimeTool.utcnow offline_at_noon) (u "%Y-%m-%d")))].
Proof.
  apply (place_not_found_is_reported_in_the_timezone offline_at_noon (JStr (u "Atlantis"))).
  intros resp Hr. vm_compute in Hr. discriminate Hr.
Defined.

Lemma time_is_read_from_the_two_services_witness :
  TimeTool.get_time online_tokyo (JStr (u "Tokyo")) =
  JDict [(u "location", JStr (u "Tokyo")); (u "timezone", JStr (u "Asia/Tokyo"));
         (u "time", JStr (strftime (u "2024-01-01", u "21:00:00") (u "%H:%M:%S")));
         (u "date", JStr (strftime (u "2024-01-01", u "21:00:00") (u "%Y-%m-%d")))].
Proof.
  eapply (time_is_read_from_the_two_services online_tokyo (JStr (u "Tokyo"))).
  - vm_compute. reflexivity.
  - reflexivity.
  - reflexivity.
  - vm_compute. reflexivity.
  - vm_compute. reflexivity.
  - vm_compute. reflexivity.
  - reflexivity.
  - reflexivity.
  - vm_compute. reflexivity.
  - discriminate.
  - vm_compute. reflexivity.
  - reflexivity.
  - vm_compute. reflexivity.
Defined.

Lemma time_through_the_bridge_witness :
  let described := print_json TimeTool.describe_tools in
  let r := {| verb := POST; target := u "/get-time"; query := [];
              body := JDict [(u "location", JStr (u "Tokyo"))] |} in
  let s := run [Main; Line 0 described; Main; Http r; Tick 0; Line 1 described; Tick 0]
               initial in
  TimeTool.main [] = [described] /\
  exists asked reply,
    stdin <$> procs s !! 1%nat = Some [asked] /\
    TimeTool.main [(offline_at_noon, asked)] = [described; reply] /\
    calls (run [Line 1 reply; Tick 0] s) !! 0%nat =
      Some (Answered 1 {| status := 200;
                          payload := Output (TimeTool.get_time offline_at_noon
                                               (JStr (u "Tokyo"))) |}).
Proof.
  apply (time_through_the_bridge offline_at_noon (u "Tokyo")).
  - reflexivity.
  - vm_compute. reflexivity.
Defined.

(** ** The Flask server *)

Lemma first_tool_result_is_returned_witness :
  McpServer.call_mcp_tool (fun _ _ => inl sunny_process) (u "/app/weather-tool/tool.py")
    (u "get-forecast") (JDict [(u "location", JStr (u "Paris"))]) = sunny.
Proof.
  eapply (first_tool_result_is_returned (fun _ _ => inl sunny_process)
            (u "/app/weather-tool/tool.py") (u "get-forecast")
            (JDict [(u "location", JStr (u "Paris"))]) sunny_process
            [dumps WeatherServer.describe_tools] []
            (dumps (to_json (ToolResult sunny)))).
  - reflexivity.
  - reflexivity.
  - vm_compute. reflexivity.
  - constructor; [vm_compute; reflexivity | constructor].
  - vm_compute. reflexivity.
  - vm_compute. reflexivity.
  - vm_compute. reflexivity.
Defined.

Lemma missing_location_is_refused_without_a_tool_witness :
  McpServer.weather (fun _ _ => inr []) (JDict [(u "location", JStr [])]) =
    Ok (400, JDict [(u "error", JStr (u "Missing location"))]) /\
  McpServer.time (fun _ _ => inr []) (JDict [(u "location", JStr [])]) =
    Ok (400, JDict [(u "error", JStr (u "Missing location"))]).
Proof.
  apply (missing_location_is_refused_without_a_tool (fun _ _ => inr [])
           [(u "location", JStr [])]).
  vm_compute. reflexivity.
Defined.

Lemma weather_view_answers_with_the_forecast_witness :
  McpServer.weather (fun _ input => inl (WeatherServer.subprocess_run offline input))
    (JDict [(u "location", JStr (u "Paris"))]) =
  Ok (200, WeatherServer.get_forecast offline (JStr (u "Paris"))).
Proof.
  apply (weather_view_answers_with_the_forecast offline [(u "location", JStr (u "Paris"))]
           (JStr (u "Paris"))).
  - vm_compute. reflexivity.
  - vm_compute. reflexivity.
  - vm_compute. reflexivity.
Defined.

Lemma time_view_answers_with_the_time_witness :
  McpServer.time (fun _ input => inl (TimeTool.subprocess_run offline_at_noon input))
    (JDict [(u "location", JInt 7)]) =
  Ok (200, TimeTool.get_time offline_at_noon (JInt 7)).
Proof.
  apply (time_view_answers_with_the_time offline_at_noon [(u "location", JInt 7)] (JInt 7)).
  - vm_compute. reflexivity.
  - vm_compute. reflexivity.
  - vm_compute. reflexivity.
Defined.

Lemma tool_error_does_not_reach_the_caller_witness :
  McpServer.call_mcp_tool (fun _ input => inl (WeatherServer.subprocess_run offline input))
    (u "/app/weather-tool/tool.py") (u "get-forecast") (JDict [(u "city", JStr (u "Paris"))]) =
  JDict [(u "error", JStr (u "No valid tool result found"))].
Proof.
  apply (tool_error_does_not_reach_the_caller offline (u "/app/weather-tool/tool.py")
           [(u "city", JStr (u "Paris"))]).
  - vm_compute. reflexivity.
  - vm_compute. reflexivity.
Defined.

Lemma tool_failure_is_answered_200_witness :
  McpServer.weather (fun _ _ => inl crashed) (JDict [(u "location", JStr (u "Paris"))]) =
  Ok (200, JDict [(u "error", JStr (u "Tool execution failed: " ++ stderr crashed))]).
Proof.
  refine (proj1 (tool_failure_is_answered_200 (fun _ _ => inl crashed)
                   [(u "location", JStr (u "Paris"))] (JStr (u "Paris")) _ _)
                crashed _ _).
  - vm_compute. reflexivity.
  - vm_compute. reflexivity.
  - reflexivity.
  - discriminate.
Defined.

End FurtherRuns.
